(** * Kelp OS gateway: a shallow embedding of the gateway sources

    The development follows the C sources of the gateway daemon
    (HTTP parser, router, response builder, event loop, WebSocket codec,
    session store, chat and health handlers) and of the agent tool
    registry.  The definitions come first, module by module; the
    properties follow under the heading Properties.

    Conventions used throughout:
    - a C string of the gateway is the [list ascii] of its characters
      before the terminating NUL ([Cstr.str] turns a literal into one);
      a buffer filled from a socket may hold any byte and is read as a
      C string through [Cstr.cstr_view]; the tool registry, which keys a
      map by names, uses [string];
    - the WebSocket codec works on the bits of its bytes, so there a
      byte is a [Z] in [0, 256);
    - [size_t] and [uint64_t] are [Z] with the wrap-around modulo [2^64]
      written out where the C arithmetic can reach it;
    - a pointer into a buffer is an index ([nat]) into the list that
      models the buffer, a pointer that may be [NULL] is an option;
    - heap allocation ([malloc], [calloc], [realloc], [strdup]) succeeds;
      the branches the sources take only when it fails are named in
      comments where they are left out;
    - system calls are functions of an explicit environment (the bytes
      pending on a socket, the clock), and every [write] takes all the
      bytes it is given unless a definition says otherwise;
    - functions of libraries the sources only call (cJSON, the helpers
      of json.h, auth.h and http.h, executors behind function pointers)
      are Variables of a Section. *)

From Stdlib Require Import ZArith QArith List String Ascii Lia Bool DecimalString.
From stdpp Require Import base gmap strings list.

Local Open Scope Z_scope.

(** ** Bytes and machine integers *)

Module Mach.

Definition two64 : Z := 2 ^ 64.
Definition two32 : Z := 2 ^ 32.

(** Truncation to [size_t] / [uint64_t]. *)
Definition u64 (x : Z) : Z := x mod two64.

(** Truncation to [uint32_t]. *)
Definition u32 (x : Z) : Z := x mod two32.

Definition is_byte (b : Z) : Prop := 0 <= b < 256.

(** Return codes of openclaw.h. *)
Definition OC_OK : Z := 0.
Definition OC_ERR : Z := -1.

Definition byte_of_ascii (c : ascii) : Z := Z.of_N (N_of_ascii c).
Definition ascii_of_byte (b : Z) : ascii := ascii_of_N (Z.to_N b).

Definition bytes_of_string (s : string) : list Z :=
  map byte_of_ascii (list_ascii_of_string s).
Definition string_of_bytes (l : list Z) : string :=
  string_of_list_ascii (map ascii_of_byte l).

(** Big-endian value of a byte sequence, as the shift-and-or loops of the
    sources compute it in a [size_t]. *)
Definition be_value (bs : list Z) : Z :=
  fold_left (fun acc b => u64 (Z.lor (Z.shiftl acc 8) b)) bs 0.

End Mach.

(** ** Sockets

    The inbound side of a socket is the list of bytes that have arrived
    and not been read yet.  [read(fd, buf, n)] takes up to [n] of them;
    on an empty queue it returns no byte, and what it reports then
    (end of stream, [EAGAIN], another error) is part of the socket where
    the sources tell them apart. *)

Module Sock.

Definition read {A : Type} (n : nat) (pending : list A) : list A * list A :=
  (take n pending, drop n pending).

End Sock.

(** ** WebSocket frame reader (ws_read_frame) *)

Module Ws.
Import Mach.

(** The unmasking loop of [ws_read_frame]:
    [for (i = 0; i < len; i++) data[i] ^= (char)mask_key[i % 4];]
    started at index [i]. *)
Fixpoint xor_mask_from (i : nat) (mask_key : list Z) (data : list Z) : list Z :=
  match data with
  | [] => []
  | d :: rest =>
      Z.lxor d (nth (i mod 4)%nat mask_key 0) :: xor_mask_from (S i) mask_key rest
  end.

Definition unmask (data mask_key : list Z) : list Z := xor_mask_from 0 mask_key data.

(** Client-side masking as RFC 6455, 5.3 words it, what the peer does
    before it sends: octet [i] of the transformed data is octet [i] of
    the original data XOR octet [i mod 4] of the masking key. *)
Definition mask (payload mask_key : list Z) : list Z :=
  imap (fun i b => Z.lxor b (nth (i mod 4)%nat mask_key 0)) payload.

(** The number a byte sequence denotes, most significant byte first. *)
Definition be_number (bs : list Z) : Z :=
  fold_left (fun acc b => acc * 256 + b) bs 0.

(** How the 7-bit length field and the extended length bytes of a frame
    header denote a payload length (RFC 6455, 5.2). *)
Inductive length_field : Z -> list Z -> Z -> Prop :=
  | length_7 n : 0 <= n < 126 -> length_field n [] n
  | length_16 e0 e1 :
      is_byte e0 -> is_byte e1 -> length_field 126 [e0; e1] (be_number [e0; e1])
  | length_64 ext :
      length ext = 8%nat -> Forall is_byte ext -> length_field 127 ext (be_number ext).

(** The payload loop of [ws_read_frame]:
    [while (total_read < len) { n = read(fd, data + total_read, len - total_read);
       if (n <= 0) fail; total_read += n; }]
    [want] is [len - total_read]; every turn reads at least one byte, so
    [want] turns are enough. *)
Fixpoint read_payload (fuel : nat) (want : nat) (pending : list Z)
  : option (list Z * list Z) :=
  match want with
  | O => Some ([], pending)
  | S _ =>
      match fuel with
      | O => None
      | S fuel' =>
          let '(chunk, pending') := Sock.read want pending in
          match chunk with
          | [] => None
          | _ :: _ =>
              match read_payload fuel' (want - length chunk)%nat pending' with
              | Some (more, pending'') => Some (chunk ++ more, pending'')
              | None => None
              end
          end
      end
  end.

(** Result of [ws_read_frame]: the [int] it returns, the payload it stores
    through [*payload] (only on success) and the bytes left on the socket. *)
Record frame_result := {
  fr_rc : Z;
  fr_payload : option (list Z);
  fr_pending : list Z
}.

Definition frame_fail (pending : list Z) : frame_result :=
  {| fr_rc := -1; fr_payload := None; fr_pending := pending |}.

(** Extended length: 2 or 8 more bytes for the length fields 126 and 127. *)
Definition read_ext_len (len7 : Z) (pending : list Z) : option Z * list Z :=
  if len7 =? 126 then
    let '(ext, pending') := Sock.read 2 pending in
    if (length ext =? 2)%nat
    then (Some (Z.lor (u64 (Z.shiftl (nth 0 ext 0) 8)) (nth 1 ext 0)), pending')
    else (None, pending')
  else if len7 =? 127 then
    let '(ext, pending') := Sock.read 8 pending in
    if (length ext =? 8)%nat then (Some (be_value ext), pending') else (None, pending')
  else (Some len7, pending).

Definition ws_read_frame (pending : list Z) : frame_result :=
  let '(header, p1) := Sock.read 2 pending in
  if negb (length header =? 2)%nat then frame_fail p1 else
  let opcode := Z.land (nth 0 header 0) 0x0F in
  let masked := negb (Z.land (nth 1 header 0) 0x80 =? 0) in
  let len7 := Z.land (nth 1 header 0) 0x7F in
  if opcode =? 0x08 then frame_fail p1 else
  match read_ext_len len7 p1 with
  | (None, p2) => frame_fail p2
  | (Some len, p2) =>
      let '(mask_key, p3) :=
        if masked then Sock.read 4 p2 else ([0; 0; 0; 0], p2) in
      if masked && negb (length mask_key =? 4)%nat then frame_fail p3 else
      (* malloc(len + 1): for len = 2^64 - 1 the size wraps to 0 and the
         reads that follow are outside the C semantics; reported as failure. *)
      if u64 (len + 1) =? 0 then frame_fail p3 else
      match read_payload (Z.to_nat len) (Z.to_nat len) p3 with
      | None => frame_fail []
      | Some (data, p4) =>
          let data' := if masked then unmask data mask_key else data in
          {| fr_rc := opcode; fr_payload := Some data'; fr_pending := p4 |}
      end
  end.

End Ws.


(** ** C strings

    A buffer is a [list ascii]; the C string it holds is what precedes
    the first NUL.  A [char *] into a buffer is an index. *)

Module Cstr.

Definition NUL : ascii := "000"%char.
Definition str (s : string) : list ascii := list_ascii_of_string s.

Fixpoint cstr_view (buf : list ascii) : list ascii :=
  match buf with
  | [] => []
  | c :: rest => if Ascii.eqb c NUL then [] else c :: cstr_view rest
  end.

Fixpoint is_prefix (p s : list ascii) : bool :=
  match p, s with
  | [], _ => true
  | _ :: _, [] => false
  | a :: p', b :: s' => Ascii.eqb a b && is_prefix p' s'
  end.

Fixpoint find_sub (needle s : list ascii) : option nat :=
  if is_prefix needle s then Some O
  else match s with
       | [] => None
       | _ :: s' => option_map S (find_sub needle s')
       end.

(** [strstr(s + pos, needle)], as an index into [s]. *)
Definition strstr_at (s : list ascii) (pos : nat) (needle : list ascii) : option nat :=
  option_map (Nat.add pos) (find_sub needle (drop pos s)).

(** [strchr(s + pos, c)], as an index into [s]. *)
Definition strchr_at (s : list ascii) (pos : nat) (c : ascii) : option nat :=
  strstr_at s pos [c].

(** [s[from .. to)] *)
Definition slice (s : list ascii) (from to : nat) : list ascii :=
  take (to - from)%nat (drop from s).

Fixpoint list_eqb (a b : list ascii) : bool :=
  match a, b with
  | [], [] => true
  | x :: a', y :: b' => Ascii.eqb x y && list_eqb a' b'
  | _, _ => false
  end.

Definition tolower (c : ascii) : ascii :=
  let n := N_of_ascii c in
  if (65 <=? n)%N && (n <=? 90)%N then ascii_of_N (n + 32) else c.

(** [strcasecmp(a, b) == 0] *)
Definition strcaseeq (a b : list ascii) : bool :=
  list_eqb (map tolower a) (map tolower b).

(** The loop that advances a pointer over spaces, from index [pos]. *)
Fixpoint count_spaces (s : list ascii) : nat :=
  match s with
  | c :: rest => if Ascii.eqb c " "%char then S (count_spaces rest) else O
  | [] => O
  end.

Definition skip_spaces (s : list ascii) (pos : nat) : nat :=
  (pos + count_spaces (drop pos s))%nat.

Definition isspace (c : ascii) : bool :=
  let n := N_of_ascii c in (n =? 32)%N || ((9 <=? n)%N && (n <=? 13)%N).

Definition isdigit (c : ascii) : bool :=
  let n := N_of_ascii c in (48 <=? n)%N && (n <=? 57)%N.

Fixpoint drop_spaces (s : list ascii) : list ascii :=
  match s with
  | c :: rest => if isspace c then drop_spaces rest else s
  | [] => []
  end.

Fixpoint digits_value (acc : Z) (s : list ascii) : Z :=
  match s with
  | c :: rest =>
      if isdigit c then digits_value (acc * 10 + (Z.of_N (N_of_ascii c) - 48)) rest
      else acc
  | [] => acc
  end.

Definition LONG_MAX : Z := 2 ^ 63 - 1.
Definition LONG_MIN : Z := - 2 ^ 63.

(** [atol]: leading white space, an optional sign, decimal digits; out of
    range values saturate as [strtol] does. *)
Definition atol (s : list ascii) : Z :=
  let s1 := drop_spaces s in
  let v := match s1 with
           | c :: rest =>
               if Ascii.eqb c "-"%char then - digits_value 0 rest
               else if Ascii.eqb c "+"%char then digits_value 0 rest
               else digits_value 0 s1
           | [] => 0
           end in
  Z.max LONG_MIN (Z.min LONG_MAX v).

Definition DQUOTE : ascii := "034"%char.
Definition quoted (s : list ascii) : list ascii := DQUOTE :: s ++ [DQUOTE].

(** [%d] and [%zu] of [printf]. *)
Definition dec (z : Z) : list ascii :=
  str (NilZero.string_of_int (Z.to_int z)).

End Cstr.

(** ** HTTP: connections, request parser, response builder, router
    (gateway.h, http_parser.c and the files that follow it) *)

Module Http.
Import Mach Cstr.

Definition GW_READ_BUF_SIZE : Z := 8192.
Definition GW_MAX_HEADERS : nat := 64.
Definition GW_MAX_URL_LEN : nat := 2048.
Definition GW_MAX_BODY_LEN : Z := 1024 * 1024.
(** The array bounds of [struct { char key[256]; char value[512]; }]. *)
Definition HEADER_KEY_SIZE : nat := 256.
Definition HEADER_VALUE_SIZE : nat := 512.

Definition CR : ascii := "013"%char.
Definition LF : ascii := "010"%char.
Definition CRLF : list ascii := [CR; LF].

Inductive http_method_t :=
  | HTTP_GET | HTTP_POST | HTTP_PUT | HTTP_DELETE
  | HTTP_OPTIONS | HTTP_HEAD | HTTP_UNKNOWN.

Definition method_eqb (a b : http_method_t) : bool :=
  match a, b with
  | HTTP_GET, HTTP_GET | HTTP_POST, HTTP_POST | HTTP_PUT, HTTP_PUT
  | HTTP_DELETE, HTTP_DELETE | HTTP_OPTIONS, HTTP_OPTIONS
  | HTTP_HEAD, HTTP_HEAD | HTTP_UNKNOWN, HTTP_UNKNOWN => true
  | _, _ => false
  end.

Record header_t := { key : list ascii; value : list ascii }.

Record http_request_t := {
  method : http_method_t;
  url : list ascii;
  path : list ascii;
  query : list ascii;
  version_major : Z;
  version_minor : Z;
  headers : list header_t;          (* GW_MAX_HEADERS slots *)
  header_count : nat;
  body : option (list ascii);
  body_len : Z;
  content_length : Z
}.

(** [memset(&conn->request, 0, sizeof(conn->request))] *)
Definition request_zero : http_request_t :=
  {| method := HTTP_GET; url := []; path := []; query := [];
     version_major := 0; version_minor := 0;
     headers := replicate GW_MAX_HEADERS {| key := []; value := [] |};
     header_count := 0; body := None; body_len := 0; content_length := 0 |}.

Inductive conn_state_t :=
  | CONN_READING_HEADERS | CONN_READING_BODY | CONN_PROCESSING
  | CONN_WRITING | CONN_WEBSOCKET | CONN_CLOSED.

(** [connection_t].  [read_buf] holds the bytes of the buffer from its
    start up to the NUL that the last read stored behind them; [read_len]
    is the field of that name.  After a read the two agree
    ([read_len] is the length of [read_buf]); the reset of a keep-alive
    connection sets [read_len] to 0 and leaves the bytes where they are.
    What lies in the buffer behind the NUL is not modelled: a copy that
    runs past it stops there.  The write buffer and the timestamp are
    not used by the functions modelled here. *)
Record connection_t := {
  fd : Z;
  state : conn_state_t;
  read_buf : list ascii;
  read_len : Z;
  read_cap : Z;
  request : http_request_t;
  keep_alive : bool;
  is_websocket : bool
}.

(** [malloc] does not initialise the buffer; a new buffer is taken to
    start with a NUL. *)
Definition connection_create (fd0 : Z) : connection_t :=
  {| fd := fd0; state := CONN_READING_HEADERS; read_buf := []; read_len := 0;
     read_cap := GW_READ_BUF_SIZE; request := request_zero;
     keep_alive := true; is_websocket := false |}.

(** *** connection_read *)

Inductive sock_end := WouldBlock | EndOfStream | IoError.

Record socket := { pending : list ascii; on_empty : sock_end }.

Definition with_buffer (conn : connection_t) (buf : list ascii) (len cap : Z)
  : connection_t :=
  {| fd := fd conn; state := state conn; read_buf := buf; read_len := len;
     read_cap := cap; request := request conn; keep_alive := keep_alive conn;
     is_websocket := is_websocket conn |}.

(** A connection whose buffer holds exactly the bytes [buf]. *)
Definition with_read (conn : connection_t) (buf : list ascii) (cap : Z) : connection_t :=
  with_buffer conn buf (Z.of_nat (length buf)) cap.

(** One turn of the [while (1)] of [connection_read] per unit of fuel; a
    turn that does not return consumes at least one pending byte. *)
Fixpoint connection_read_loop (fuel : nat) (conn : connection_t) (sock : socket)
  : Z * connection_t * socket :=
  match fuel with
  | O => (-1, conn, sock)
  | S fuel' =>
      let len := read_len conn in
      let grown :=
        if read_cap conn <=? len + 1 then
          let new_cap := read_cap conn * 2 in
          if GW_MAX_BODY_LEN + GW_READ_BUF_SIZE <? new_cap then None
          else Some new_cap
        else Some (read_cap conn) in
      match grown with
      | None => (-1, conn, sock)
      | Some cap =>
          let conn1 := with_buffer conn (read_buf conn) len cap in
          let room := cap - len - 1 in
          (* room is positive whenever read_len < read_cap held on entry;
             a read of no room returns 0 *)
          if room <=? 0 then (-1, conn1, sock) else
          let '(chunk, rest) := Sock.read (Z.to_nat room) (pending sock) in
          match chunk with
          | [] =>
              match on_empty sock with
              | WouldBlock => (0, conn1, sock)
              | EndOfStream | IoError => (-1, conn1, sock)
              end
          | _ :: _ =>
              (* the bytes go to read_buf + read_len, the NUL behind them *)
              connection_read_loop fuel'
                (with_buffer conn1
                   (take (Z.to_nat len) (read_buf conn) ++ chunk)
                   (len + Z.of_nat (length chunk)) cap)
                {| pending := rest; on_empty := on_empty sock |}
          end
      end
  end.

Definition connection_read (conn : connection_t) (sock : socket)
  : Z * connection_t * socket :=
  connection_read_loop (S (length (pending sock))) conn sock.

(** The capacities [connection_create] and the doubling of
    [connection_read] can give a read buffer, and the room they keep for
    the terminating NUL. *)
Definition read_buffer_ok (conn : connection_t) : bool :=
  existsb (Z.eqb (read_cap conn))
    [8192; 16384; 32768; 65536; 131072; 262144; 524288; 1048576]
  && (read_len conn <? read_cap conn).

(** *** http_parse_request *)

Definition parse_method (tok : list ascii) : http_method_t :=
  if list_eqb tok (str "GET") then HTTP_GET
  else if list_eqb tok (str "POST") then HTTP_POST
  else if list_eqb tok (str "PUT") then HTTP_PUT
  else if list_eqb tok (str "DELETE") then HTTP_DELETE
  else if list_eqb tok (str "OPTIONS") then HTTP_OPTIONS
  else if list_eqb tok (str "HEAD") then HTTP_HEAD
  else HTTP_UNKNOWN.

Fixpoint find_header_in (hs : list header_t) (k : list ascii) : option (list ascii) :=
  match hs with
  | [] => None
  | h :: rest => if strcaseeq (key h) k then Some (value h) else find_header_in rest k
  end.

Definition find_header (req : http_request_t) (k : list ascii) : option (list ascii) :=
  find_header_in (take (header_count req) (headers req)) k.

Definition with_headers (req : http_request_t) (hs : list header_t) (n : nat)
  : http_request_t :=
  {| method := method req; url := url req; path := path req; query := query req;
     version_major := version_major req; version_minor := version_minor req;
     headers := hs; header_count := n;
     body := body req; body_len := body_len req;
     content_length := content_length req |}.

(** The body of the header loop for a line [s[hdr_line .. next_line)]
    that has its colon at [colon]. *)
Definition store_header (s : list ascii) (hdr_line colon next_line : nat)
  (req : http_request_t) : http_request_t :=
  let i := header_count req in
  let slot := nth i (headers req) {| key := []; value := [] |} in
  let key_len := (colon - hdr_line)%nat in
  let k := if (key_len <? HEADER_KEY_SIZE)%nat then slice s hdr_line colon
           else key slot in
  (* val_start stops at the CR of next_line at the latest *)
  let val_start := skip_spaces s (colon + 1) in
  let val_len := (next_line - val_start)%nat in
  let v := if (val_len <? HEADER_VALUE_SIZE)%nat then slice s val_start next_line
           else value slot in
  with_headers req (<[i := {| key := k; value := v |}]> (headers req)) (S i).

(** The header loop; [hdr_line] advances by at least two on every turn. *)
Fixpoint parse_headers (fuel : nat) (s : list ascii) (header_end hdr_line : nat)
  (req : http_request_t) : http_request_t :=
  match fuel with
  | O => req
  | S fuel' =>
      if (hdr_line <? header_end)%nat && (header_count req <? GW_MAX_HEADERS)%nat then
        match strstr_at s hdr_line CRLF with
        | None => req
        | Some next_line =>
            if (next_line =? hdr_line)%nat then req
            else
              let req' :=
                match strchr_at s hdr_line ":"%char with
                | Some colon =>
                    if (colon <? next_line)%nat
                    then store_header s hdr_line colon next_line req
                    else req
                | None => req
                end in
              parse_headers fuel' s header_end (next_line + 2)%nat req'
        end
      else req
  end.

Definition with_request (conn : connection_t) (st : conn_state_t)
  (req : http_request_t) (ka : bool) : connection_t :=
  {| fd := fd conn; state := st; read_buf := read_buf conn;
     read_len := read_len conn;
     read_cap := read_cap conn; request := req; keep_alive := ka;
     is_websocket := is_websocket conn |}.

Definition with_body (req : http_request_t) (b : list ascii) : http_request_t :=
  {| method := method req; url := url req; path := path req; query := query req;
     version_major := version_major req; version_minor := version_minor req;
     headers := headers req; header_count := header_count req;
     body := Some b; body_len := content_length req;
     content_length := content_length req |}.

(** The body check shared by both states: complete (0) when the bytes
    after the header block reach [content_length], else need more (1). *)
Definition take_body (conn : connection_t) (header_size : nat) : Z * connection_t :=
  let req := request conn in
  let body_available := u64 (read_len conn - Z.of_nat header_size) in
  if content_length req <=? body_available then
    let b := take (Z.to_nat (content_length req)) (drop header_size (read_buf conn)) in
    (0, with_request conn (state conn) (with_body req b) (keep_alive conn))
  else (1, conn).

Definition parse_request_line_and_headers (s : list ascii) (header_end space1 space2 : nat)
  (req : http_request_t) : http_request_t :=
  let url_start := S space1 in
  let u := slice s url_start space2 in
  let '(p, q) :=
    match find_sub ["?"%char] u with
    | Some qmark => (take qmark u, drop (S qmark) u)
    | None => (u, [])
    end in
  let req1 :=
    {| method := parse_method (slice s 0 space1);
       url := u; path := p; query := q;
       version_major := 1; version_minor := 1;
       headers := headers req; header_count := 0;
       body := body req; body_len := body_len req;
       content_length := content_length req |} in
  let hdr_line := option_map (fun i => (i + 2)%nat) (strstr_at s 0 CRLF) in
  let req2 :=
    match hdr_line with
    | Some h => parse_headers (length s) s header_end h req1
    | None => req1
    end in
  match find_header req2 (str "Content-Length") with
  | Some cl =>
      {| method := method req2; url := url req2; path := path req2;
         query := query req2;
         version_major := version_major req2; version_minor := version_minor req2;
         headers := headers req2; header_count := header_count req2;
         body := body req2; body_len := body_len req2;
         content_length := u64 (atol cl) |}
  | None => req2
  end.

(** Returns 0 = complete, 1 = need more data, -1 = error. *)
Definition http_parse_request (conn : connection_t) : Z * connection_t :=
  let s := cstr_view (read_buf conn) in
  match state conn with
  | CONN_READING_HEADERS =>
      match strstr_at s 0 (CRLF ++ CRLF) with
      | None => (1, conn)
      | Some header_end =>
          match strchr_at s 0 " "%char with
          | None => (-1, conn)
          | Some space1 =>
              let req0 := request conn in
              let req_m :=
                {| method := parse_method (slice s 0 space1);
                   url := url req0; path := path req0; query := query req0;
                   version_major := version_major req0;
                   version_minor := version_minor req0;
                   headers := headers req0; header_count := header_count req0;
                   body := body req0; body_len := body_len req0;
                   content_length := content_length req0 |} in
              let conn_m := with_request conn (state conn) req_m (keep_alive conn) in
              match strchr_at s (S space1) " "%char with
              | None => (-1, conn_m)
              | Some space2 =>
                  let url_len := (space2 - S space1)%nat in
                  if (GW_MAX_URL_LEN <=? url_len)%nat then (-1, conn_m) else
                  let req := parse_request_line_and_headers s header_end space1 space2 req0 in
                  let ka :=
                    match find_header req (str "Connection") with
                    | Some v => if strcaseeq v (str "close") then false
                                else keep_alive conn
                    | None => keep_alive conn
                    end in
                  let header_size := (header_end + 4)%nat in
                  if 0 <? content_length req then
                    take_body (with_request conn CONN_READING_BODY req ka) header_size
                  else (0, with_request conn (state conn) req ka)
              end
          end
      end
  | CONN_READING_BODY =>
      match strstr_at s 0 (CRLF ++ CRLF) with
      | None => (-1, conn)
      | Some header_end => take_body conn (header_end + 4)%nat
      end
  | _ => (-1, conn)
  end.

(** *** Response builder *)

(** [http_response_build_t]; [headers_len] and [body_len] are the lengths
    of the two buffers, [headers_cap] only drives [realloc]. *)
Record http_response_build_t := {
  status_code : Z;
  status_text : list ascii;
  headers_buf : list ascii;
  resp_body : option (list ascii)
}.

Definition resp_body_len (resp : http_response_build_t) : Z :=
  match resp_body resp with
  | Some b => Z.of_nat (length b)
  | None => 0
  end.

Definition http_response_init : http_response_build_t :=
  {| status_code := 200; status_text := str "OK"; headers_buf := [];
     resp_body := None |}.

Definition http_response_set_status (resp : http_response_build_t)
  (code : Z) (text : list ascii) : http_response_build_t :=
  {| status_code := code; status_text := text;
     headers_buf := headers_buf resp; resp_body := resp_body resp |}.

Definition header_line (k v : list ascii) : list ascii :=
  k ++ str ": " ++ v ++ CRLF.

Definition http_response_add_header (resp : http_response_build_t)
  (k v : list ascii) : http_response_build_t :=
  {| status_code := status_code resp; status_text := status_text resp;
     headers_buf := headers_buf resp ++ header_line k v;
     resp_body := resp_body resp |}.

Definition http_response_set_body (resp : http_response_build_t)
  (b : list ascii) (len : nat) : http_response_build_t :=
  {| status_code := status_code resp; status_text := status_text resp;
     headers_buf := headers_buf resp; resp_body := Some (take len b) |}.

Definition http_response_set_json (resp : http_response_build_t)
  (json : list ascii) : http_response_build_t :=
  http_response_set_body
    (http_response_add_header resp (str "Content-Type") (str "application/json"))
    json (length json).

(** The bytes [http_response_send] hands to [write]: status line, headers,
    Content-Length, blank line, body.  (The status texts of the sources
    are short literals, within [status_line[128]].) *)
Definition http_response_send (resp : http_response_build_t) : list ascii :=
  str "HTTP/1.1 " ++ dec (status_code resp) ++ str " " ++ status_text resp ++ CRLF
  ++ headers_buf resp
  ++ str "Content-Length: " ++ dec (resp_body_len resp) ++ CRLF
  ++ CRLF
  ++ match resp_body resp with Some b => b | None => [] end.

(** *** Routes and the gateway context *)

(** [config_t] (config.h); a [char *] that may be [NULL] is an option. *)
Record config_t := {
  default_provider : option (list ascii);
  anthropic_model : option (list ascii);
  openai_model : option (list ascii);
  max_tokens : Z;
  temperature : Q;
  anthropic_api_key : option (list ascii);
  openai_api_key : option (list ascii);
  system_prompt : option (list ascii)
}.

(** What a handler can read when it runs: the monotonic clock and the
    gateway fields behind its [void *ctx]. *)
Record gw_view := {
  now : Z;
  v_cfg : config_t;
  v_total_requests : Z;
  v_active_connections : Z;
  v_start_time : Z
}.

(** A handler receives the request and the response under construction
    and returns its [int] with the response as it left it. *)
Definition route_handler_t : Type :=
  gw_view -> http_request_t -> http_response_build_t -> Z * http_response_build_t.

Record route_t := {
  route_method : http_method_t;
  pattern : list ascii;
  handler : route_handler_t
}.

Record gateway_ctx_t := {
  cfg : config_t;
  routes : list route_t;
  connections : gmap Z connection_t;     (* indexed by fd *)
  max_fd : Z;
  total_requests : Z;
  active_connections : Z;
  start_time : Z
}.

(** [gateway_create]: [calloc] zeroes the counters and the route table;
    [start_time] is the monotonic clock at creation. *)
Definition gateway_create (c : config_t) (clock : Z) : gateway_ctx_t :=
  {| cfg := c; routes := []; connections := ∅; max_fd := 1024;
     total_requests := 0; active_connections := 0; start_time := u64 clock |}.

Definition gateway_add_route (gw : gateway_ctx_t) (m : http_method_t)
  (pat : list ascii) (h : route_handler_t) : gateway_ctx_t :=
  {| cfg := cfg gw;
     routes := routes gw ++ [{| route_method := m; pattern := pat; handler := h |}];
     connections := connections gw; max_fd := max_fd gw;
     total_requests := total_requests gw;
     active_connections := active_connections gw;
     start_time := start_time gw |}.

Definition view_of (gw : gateway_ctx_t) (clock : Z) : gw_view :=
  {| now := clock; v_cfg := cfg gw; v_total_requests := total_requests gw;
     v_active_connections := active_connections gw;
     v_start_time := start_time gw |}.

Definition route_matches (route : route_t) (m : http_method_t) (p : list ascii) : bool :=
  if negb (method_eqb (route_method route) m) then false
  else
    let pat := pattern route in
    let plen := length pat in
    if list_eqb pat p then true
    else if (1 <? plen)%nat && Ascii.eqb (nth (plen - 1) pat NUL) "*"%char
    then is_prefix (take (plen - 1) pat) p
    else false.

Fixpoint find_route (rs : list route_t) (m : http_method_t) (p : list ascii)
  : option route_t :=
  match rs with
  | [] => None
  | r :: rest => if route_matches r m p then Some r else find_route rest m p
  end.

(** The literal body of the 404 response: an object whose member error
    is the string Not Found. *)
Definition not_found_json : list ascii :=
  str "{" ++ quoted (str "error") ++ str ":" ++ quoted (str "Not Found") ++ str "}".

(** [router_dispatch]: the [int] returned and the bytes sent. *)
Definition router_dispatch (gw : gateway_ctx_t) (clock : Z) (conn : connection_t)
  : Z * list ascii :=
  let req := request conn in
  let resp := http_response_init in
  if method_eqb (method req) HTTP_OPTIONS then
    let resp := http_response_set_status resp 204 (str "No Content") in
    let resp := http_response_add_header resp
                  (str "Access-Control-Allow-Origin") (str "*") in
    let resp := http_response_add_header resp
                  (str "Access-Control-Allow-Methods") (str "GET, POST, OPTIONS") in
    let resp := http_response_add_header resp
                  (str "Access-Control-Allow-Headers")
                  (str "Content-Type, Authorization") in
    (OC_OK, http_response_send resp)
  else
    match find_route (routes gw) (method req) (path req) with
    | Some r =>
        let resp := http_response_add_header resp
                      (str "Access-Control-Allow-Origin") (str "*") in
        let '(rc, resp) := handler r (view_of gw clock) req resp in
        (rc, http_response_send resp)
    | None =>
        let resp := http_response_set_status resp 404 (str "Not Found") in
        let resp := http_response_set_json resp not_found_json in
        (OC_OK, http_response_send resp)
    end.

(** *** The event loop (epoll_server.c) *)

Definition with_table (gw : gateway_ctx_t) (tbl : gmap Z connection_t)
  (mfd total active : Z) : gateway_ctx_t :=
  {| cfg := cfg gw; routes := routes gw; connections := tbl; max_fd := mfd;
     total_requests := total; active_connections := active;
     start_time := start_time gw |}.

Definition close_connection (gw : gateway_ctx_t) (fd0 : Z) : gateway_ctx_t :=
  if (fd0 <? max_fd gw) && bool_decide (is_Some (connections gw !! fd0)) then
    with_table gw (delete fd0 (connections gw)) (max_fd gw)
      (total_requests gw) (u64 (active_connections gw - 1))
  else gw.

(** [accept_connections], for the descriptors [accept] returns before it
    reports [EAGAIN]. *)
Definition accept_one (gw : gateway_ctx_t) (client_fd : Z) : gateway_ctx_t :=
  let mfd := if max_fd gw <=? client_fd then client_fd + 256 else max_fd gw in
  with_table gw (<[client_fd := connection_create client_fd]> (connections gw)) mfd
    (total_requests gw) (u64 (active_connections gw + 1)).

Definition accept_connections (gw : gateway_ctx_t) (accepted : list Z) : gateway_ctx_t :=
  fold_left accept_one accepted gw.

(** [handle_client_data]: the new gateway state, what is left on the
    socket and the response written, if one was, paired with the request
    it answers. *)
Definition handle_client_data (gw : gateway_ctx_t) (fd0 : Z) (sock : socket) (clock : Z)
  : gateway_ctx_t * socket * list (http_request_t * list ascii) :=
  if max_fd gw <=? fd0 then (gw, sock, []) else
  match connections gw !! fd0 with
  | None => (gw, sock, [])
  | Some conn =>
      let '(rc, conn, sock) := connection_read conn sock in
      if rc <? 0 then (close_connection gw fd0, sock, []) else
      let gw := with_table gw (<[fd0 := conn]> (connections gw)) (max_fd gw)
                  (total_requests gw) (active_connections gw) in
      match state conn with
      | CONN_READING_HEADERS | CONN_READING_BODY =>
          let '(rc, conn) := http_parse_request conn in
          let gw := with_table gw (<[fd0 := conn]> (connections gw)) (max_fd gw)
                      (total_requests gw) (active_connections gw) in
          if rc =? 0 then
            let gw := with_table gw (connections gw) (max_fd gw)
                        (u64 (total_requests gw + 1)) (active_connections gw) in
            let '(_, sent) := router_dispatch gw clock conn in
            if negb (keep_alive conn)
            then (close_connection gw fd0, sock, [(request conn, sent)])
            else
              (* the reset: state, read_len and the request; the bytes
                 of the buffer stay *)
              let conn' := {| fd := fd conn; state := CONN_READING_HEADERS;
                              read_buf := read_buf conn; read_len := 0;
                              read_cap := read_cap conn;
                              request := request_zero;
                              keep_alive := keep_alive conn;
                              is_websocket := is_websocket conn |} in
              (with_table gw (<[fd0 := conn']> (connections gw)) (max_fd gw)
                 (total_requests gw) (active_connections gw),
               sock, [(request conn, sent)])
          else (gw, sock, [])
      | _ => (gw, sock, [])
      end
  end.

(** What [epoll_wait] reports, with the part of the environment the
    branch taken for it reads. *)
Inductive event :=
  | EvListen (accepted : list Z)
  | EvHangup (fd0 : Z)
  | EvReadable (fd0 : Z) (sock : socket) (clock : Z).

Definition handle_event (gw : gateway_ctx_t) (ev : event)
  : gateway_ctx_t * list (http_request_t * list ascii) :=
  match ev with
  | EvListen accepted => (accept_connections gw accepted, [])
  | EvHangup fd0 => (close_connection gw fd0, [])
  | EvReadable fd0 sock clock =>
      let '(gw', _, served) := handle_client_data gw fd0 sock clock in (gw', served)
  end.

(** The [for] over the ready events inside [epoll_server_run], with the
    requests served so far and their responses. *)
Fixpoint run_events (gw : gateway_ctx_t) (served : list (http_request_t * list ascii))
  (evs : list event) : gateway_ctx_t * list (http_request_t * list ascii) :=
  match evs with
  | [] => (gw, served)
  | ev :: rest =>
      let '(gw', out) := handle_event gw ev in
      run_events gw' (served ++ out) rest
  end.

End Http.

(** ** JSON values (the cJSON trees the handlers build and read) *)

Module Json.
Import Mach Cstr.

(** A number is the value of a finite [double]. *)
#[local] Unset Elimination Schemes.
Inductive cJSON :=
  | cJSON_Null
  | cJSON_Bool (b : bool)
  | cJSON_Number (d : Q)
  | cJSON_String (s : list ascii)
  | cJSON_Array (items : list cJSON)
  | cJSON_Object (members : list (list ascii * cJSON)).
#[local] Set Elimination Schemes.

Fixpoint lookup_member (members : list (list ascii * cJSON)) (k : list ascii)
  : option cJSON :=
  match members with
  | [] => None
  | (k', v) :: rest => if list_eqb k' k then Some v else lookup_member rest k
  end.

Definition cJSON_GetObjectItemCaseSensitive (obj : cJSON) (k : list ascii)
  : option cJSON :=
  match obj with
  | cJSON_Object members => lookup_member members k
  | _ => None
  end.

(** The conversion [(double)x] of a [uint64_t]: exact below [2^53],
    rounded to nearest, ties to even, above. *)
Definition double_of_u64 (x : Z) : Z :=
  if x <? 2 ^ 53 then x
  else
    let e := Z.log2 x - 52 in
    let m := Z.shiftr x e in
    let r := Z.land x (Z.ones e) in
    let half := Z.shiftl 1 (e - 1) in
    let m' := if (half <? r) || ((r =? half) && Z.odd m) then m + 1 else m in
    Z.shiftl m' e.

Definition number_of_u64 (x : Z) : cJSON := cJSON_Number (inject_Z (double_of_u64 x)).

(** Modelled from the spec: [json_get_str], whose body (json.c) is not
    among the sources, after its declaration in json.h: the string found
    under the key, NULL when the key is missing or holds another type. *)
Definition json_get_str_ref (obj : cJSON) (k : list ascii) : option (list ascii) :=
  match cJSON_GetObjectItemCaseSensitive obj k with
  | Some (cJSON_String s) => Some s
  | _ => None
  end.

End Json.

(** ** GET /health (handler_health.c) and the routes of main *)

Module Health.
Import Mach Cstr Http Json.

Definition OPENCLAW_VERSION : list ascii := str "0.1.0".

Section WithPrinter.

(** [cJSON_PrintUnformatted], of the cJSON library. *)
Variable cJSON_PrintUnformatted : cJSON -> list ascii.

Definition health_json (view : gw_view) : cJSON :=
  let uptime := u64 (u64 (now view) - v_start_time view) in
  cJSON_Object
    [ (str "status", cJSON_String (str "ok"));
      (str "version", cJSON_String OPENCLAW_VERSION);
      (str "uptime_seconds", number_of_u64 uptime);
      (str "total_requests", number_of_u64 (v_total_requests view));
      (str "active_connections", number_of_u64 (v_active_connections view)) ].

Definition handler_health : route_handler_t :=
  fun view _ resp =>
    (OC_OK, http_response_set_json resp (cJSON_PrintUnformatted (health_json view))).

(** The object a health probe that reports the given numbers is
    answered with. *)
Definition health_object (uptime total active : Z) : cJSON :=
  cJSON_Object
    [ (str "status", cJSON_String (str "ok"));
      (str "version", cJSON_String OPENCLAW_VERSION);
      (str "uptime_seconds", cJSON_Number (inject_Z uptime));
      (str "total_requests", cJSON_Number (inject_Z total));
      (str "active_connections", cJSON_Number (inject_Z active)) ].

(** The bytes expected on the wire for it: the status line of a 200,
    the header the router adds, the two of a JSON body, a blank line
    and the object as cJSON prints it. *)
Definition health_response (uptime total active : Z) : list ascii :=
  let printed := cJSON_PrintUnformatted (health_object uptime total active) in
  str "HTTP/1.1 200 OK" ++ CRLF
  ++ str "Access-Control-Allow-Origin: *" ++ CRLF
  ++ str "Content-Type: application/json" ++ CRLF
  ++ str "Content-Length: " ++ dec (Z.of_nat (length printed)) ++ CRLF
  ++ CRLF
  ++ printed.

(** The three [gateway_add_route] calls of [main]. *)
Definition register_routes (gw : gateway_ctx_t)
  (handler_webhook handler_chat : route_handler_t) : gateway_ctx_t :=
  gateway_add_route
    (gateway_add_route
       (gateway_add_route gw HTTP_GET (str "/health") handler_health)
       HTTP_POST (str "/hooks/webchat") handler_webhook)
    HTTP_POST (str "/v1/chat/completions") handler_chat.

(** Every health probe among the requests served was answered with its
    own rank as [total_requests]. *)
Definition health_answers (served : list (http_request_t * list ascii)) : Prop :=
  forall (k : nat) (req : http_request_t) (out : list ascii),
    served !! k = Some (req, out) ->
    method req = HTTP_GET ->
    path req = str "/health" ->
    Z.of_nat k + 1 < 2 ^ 53 ->
    exists uptime active,
      0 <= uptime /\ out = health_response uptime (Z.of_nat k + 1) active.

(** The route table those calls leave. *)
Definition main_routes (handler_webhook handler_chat : route_handler_t) : list route_t :=
  [ {| route_method := HTTP_GET; pattern := str "/health";
       handler := handler_health |};
    {| route_method := HTTP_POST; pattern := str "/hooks/webchat";
       handler := handler_webhook |};
    {| route_method := HTTP_POST; pattern := str "/v1/chat/completions";
       handler := handler_chat |} ].

End WithPrinter.

End Health.

(** ** POST /v1/chat/completions (handler_chat.c) *)

Module Chat.
Import Mach Cstr Http Json.

Inductive provider_t := PROVIDER_ANTHROPIC | PROVIDER_OPENAI.

(** The callbacks a streaming POST makes on the collector. *)
Inductive stream_event :=
  | OnText (text : list ascii)
  | OnDone (input_tokens output_tokens : Z).

Record chat_collect_t := {
  buf : option (list ascii);
  c_input_tokens : Z;
  c_output_tokens : Z
}.

Definition collect_zero : chat_collect_t :=
  {| buf := None; c_input_tokens := 0; c_output_tokens := 0 |}.

(** [chat_collect_text] and [chat_collect_done]. *)
Definition chat_collect (c : chat_collect_t) (ev : stream_event) : chat_collect_t :=
  match ev with
  | OnText text =>
      {| buf := Some (match buf c with Some b => b | None => [] end ++ text);
         c_input_tokens := c_input_tokens c; c_output_tokens := c_output_tokens c |}
  | OnDone i o => {| buf := buf c; c_input_tokens := i; c_output_tokens := o |}
  end.

(** The arguments of the upstream POST a request leads to. *)
Record upstream_call := {
  up_url : list ascii;
  up_api_key : list ascii;
  up_provider : provider_t;
  up_model : option (list ascii);
  up_system : option (list ascii);
  up_user : list ascii;
  up_max_tokens : Z;
  up_temperature : Q
}.

Definition error_envelope (message type : list ascii) : list ascii :=
  str "{" ++ quoted (str "error") ++ str ":{"
  ++ quoted (str "message") ++ str ":" ++ quoted message ++ str ","
  ++ quoted (str "type") ++ str ":" ++ quoted type ++ str "}}".

Definition bad_request (resp : http_response_build_t) (message : list ascii)
  : http_response_build_t :=
  http_response_set_json
    (http_response_set_status resp 400 (str "Bad Request"))
    (error_envelope message (str "invalid_request_error")).

Section WithLibraries.

(** cJSON, the helpers of json.h, auth.h and http.h: declared, not
    defined, in the sources. *)
Variable cJSON_Parse : list ascii -> option cJSON.
Variable cJSON_PrintUnformatted : cJSON -> list ascii.
Variable json_get_str : cJSON -> list ascii -> option (list ascii).
Variable json_get_int : cJSON -> list ascii -> Z -> Z.
Variable json_get_double : cJSON -> list ascii -> Q -> Q.
Variable auth_parse_provider : option (list ascii) -> provider_t.
Variable auth_resolve : config_t -> provider_t -> option (list ascii).
Variable json_build_anthropic_request json_build_openai_request :
  option (list ascii) -> option (list ascii) -> list ascii -> Z -> Q -> cJSON.
(** [http_stream_post]: its return value and the callbacks it made. *)
Variable http_stream_post :
  list ascii -> list ascii -> cJSON -> provider_t -> Z * list stream_event.

(** One turn of [cJSON_ArrayForEach(msg_item, messages)]; the state is
    ([user_msg], [system_msg]). *)
Definition pick_step (acc : option (list ascii) * option (list ascii)) (msg_item : cJSON)
  : option (list ascii) * option (list ascii) :=
  match json_get_str msg_item (str "role"), json_get_str msg_item (str "content") with
  | Some role, Some content =>
      if list_eqb role (str "user") then (Some content, snd acc)
      else if list_eqb role (str "system") then (fst acc, Some content)
      else acc
  | _, _ => acc
  end.

Definition pick_messages (messages : list cJSON)
  : option (list ascii) * option (list ascii) :=
  fold_left pick_step messages (None, None).

(** The contents of the messages of an array that have the given role,
    in array order; a message counts when both its role and its content
    are strings. *)
Definition contents_with_role (role : list ascii) (messages : list cJSON)
  : list (list ascii) :=
  flat_map
    (fun m =>
       match json_get_str m (str "role"), json_get_str m (str "content") with
       | Some r, Some c => if list_eqb r role then [c] else []
       | _, _ => []
       end)
    messages.

Definition last_with_role (role : list ascii) (messages : list cJSON)
  : option (list ascii) :=
  last (contents_with_role role messages).

Definition first_with_role (role : list ascii) (messages : list cJSON)
  : option (list ascii) :=
  head (contents_with_role role messages).

(** [a + b] on two C [int]s as the machines the gateway runs on compute
    it, with wrap-around (the overflow itself is undefined in C). *)
Definition int_add (a b : Z) : Z := (a + b + 2 ^ 31) mod 2 ^ 32 - 2 ^ 31.

Definition completion_json (model : option (list ascii)) (c : chat_collect_t)
  (text : list ascii) : cJSON :=
  cJSON_Object
    ([ (str "id", cJSON_String (str "chatcmpl-openclaw"));
       (str "object", cJSON_String (str "chat.completion")) ]
     ++ match model with
        | Some m => [ (str "model", cJSON_String m) ]
        | None => []
        end
     ++ [ (str "choices",
           cJSON_Array
             [ cJSON_Object
                 [ (str "index", cJSON_Number 0);
                   (str "message",
                    cJSON_Object [ (str "role", cJSON_String (str "assistant"));
                                   (str "content", cJSON_String text) ]);
                   (str "finish_reason", cJSON_String (str "stop")) ] ]);
          (str "usage",
           cJSON_Object
             [ (str "prompt_tokens", cJSON_Number (inject_Z (c_input_tokens c)));
               (str "completion_tokens", cJSON_Number (inject_Z (c_output_tokens c)));
               (str "total_tokens",
                cJSON_Number
                  (inject_Z (int_add (c_input_tokens c) (c_output_tokens c)))) ]) ]).

Definition failure_json : cJSON :=
  cJSON_Object
    [ (str "error",
       cJSON_Object [ (str "message", cJSON_String (str "AI API request failed"));
                      (str "type", cJSON_String (str "server_error")) ]) ].

(** [handler_chat], with the upstream POST it made, if it made one. *)
Definition handler_chat_run (view : gw_view) (req : http_request_t)
  (resp : http_response_build_t)
  : Z * http_response_build_t * option upstream_call :=
  match body req with
  | None => (OC_OK, bad_request resp (str "Empty body"), None)
  | Some req_body =>
  if body_len req =? 0 then (OC_OK, bad_request resp (str "Empty body"), None) else
  match cJSON_Parse (cstr_view req_body) with
  | None => (OC_OK, bad_request resp (str "Invalid JSON"), None)
  | Some json =>
  match cJSON_GetObjectItemCaseSensitive json (str "messages") with
  | Some (cJSON_Array (m :: ms)) =>
      let messages := m :: ms in
      match pick_messages messages with
      | (None, _) => (OC_OK, bad_request resp (str "No user message found"), None)
      | (Some user_msg, system_sel) =>
          let system_msg :=
            match system_sel with
            | Some sm => Some sm
            | None => system_prompt (v_cfg view)
            end in
          let req_model := json_get_str json (str "model") in
          let provider0 := auth_parse_provider (default_provider (v_cfg view)) in
          let '(provider, model) :=
            match req_model with
            | Some rm =>
                if is_prefix (str "claude") rm then (PROVIDER_ANTHROPIC, Some rm)
                else if is_prefix (str "gpt") rm then (PROVIDER_OPENAI, Some rm)
                else (provider0, Some rm)
            | None =>
                (provider0,
                 match provider0 with
                 | PROVIDER_ANTHROPIC => anthropic_model (v_cfg view)
                 | PROVIDER_OPENAI => openai_model (v_cfg view)
                 end)
            end in
          match auth_resolve (v_cfg view) provider with
          | None =>
              (OC_OK,
               http_response_set_json
                 (http_response_set_status resp 500 (str "Internal Server Error"))
                 (error_envelope (str "No API key configured") (str "server_error")),
               None)
          | Some api_key =>
              let max_tok := json_get_int json (str "max_tokens") (max_tokens (v_cfg view)) in
              let temp := json_get_double json (str "temperature")
                            (temperature (v_cfg view)) in
              let '(target, ai_body) :=
                match provider with
                | PROVIDER_ANTHROPIC =>
                    (str "https://api.anthropic.com/v1/messages",
                     json_build_anthropic_request model system_msg user_msg max_tok temp)
                | PROVIDER_OPENAI =>
                    (str "https://api.openai.com/v1/chat/completions",
                     json_build_openai_request model system_msg user_msg max_tok temp)
                end in
              let '(rc, events) := http_stream_post target api_key ai_body provider in
              let collect := fold_left chat_collect events collect_zero in
              let call :=
                {| up_url := target; up_api_key := api_key; up_provider := provider;
                   up_model := model; up_system := system_msg; up_user := user_msg;
                   up_max_tokens := max_tok; up_temperature := temp |} in
              let resp' :=
                match (rc =? OC_OK), buf collect with
                | true, Some text =>
                    (* collect.buf is read as a C string *)
                    http_response_set_json resp
                      (cJSON_PrintUnformatted
                         (completion_json model collect (cstr_view text)))
                | _, _ =>
                    http_response_set_json
                      (http_response_set_status resp 502 (str "Bad Gateway"))
                      (cJSON_PrintUnformatted failure_json)
                end in
              (OC_OK, resp', Some call)
          end
      end
  | _ => (OC_OK, bad_request resp (str "Missing messages array"), None)
  end
  end
  end.

Definition handler_chat : route_handler_t :=
  fun view req resp => fst (handler_chat_run view req resp).

End WithLibraries.

End Chat.

(** ** Session store (session_store.c)

    The two tables of the schema, and the statements the functions run.
    A bound or unbound statement parameter is an SQL value; a comparison
    with NULL is unknown, and a WHERE clause keeps a row only when its
    condition is true. *)

Module SessionStore.
Import Mach Cstr.

Inductive sqlval :=
  | SqlNull
  | SqlInt (z : Z)
  | SqlText (s : list ascii).

(** [sqlite3_bind_text] of a [char *]: a null pointer binds NULL. *)
Definition bind_text (p : option (list ascii)) : sqlval :=
  match p with
  | Some s => SqlText s
  | None => SqlNull
  end.

(** The value of [a = b]: [None] is unknown. *)
Definition sql_eq (a b : sqlval) : option bool :=
  match a, b with
  | SqlNull, _ | _, SqlNull => None
  | SqlInt x, SqlInt y => Some (x =? y)
  | SqlText x, SqlText y => Some (list_eqb x y)
  | _, _ => Some false
  end.

Definition where_holds (c : option bool) : bool :=
  match c with
  | Some true => true
  | _ => false
  end.

Record session_row := {
  s_id : list ascii;
  s_channel_id : list ascii;
  s_created_at : Z;
  s_updated_at : Z
}.

Record message_row := {
  m_id : Z;
  m_session_id : list ascii;
  m_role : list ascii;
  m_content : list ascii;
  m_created_at : Z
}.

(** An open store: the rows of both tables and the AUTOINCREMENT
    sequence of [messages] (the largest id ever given out). *)
Record session_store_t := {
  sessions : list session_row;
  messages : list message_row;
  messages_seq : Z
}.

(** INSERT INTO messages (session_id, role, content, created_at)
    VALUES (?, ?, ?, ?): every column is NOT NULL; the foreign key is
    declared but SQLite does not enforce it unless asked to. *)
Definition insert_message (store : session_store_t)
  (session_id role content created_at : sqlval) : option session_store_t :=
  match session_id, role, content, created_at with
  | SqlText sid, SqlText r, SqlText c, SqlInt t =>
      let id := messages_seq store + 1 in
      Some {| sessions := sessions store;
              messages := messages store ++
                [{| m_id := id; m_session_id := sid; m_role := r;
                    m_content := c; m_created_at := t |}];
              messages_seq := id |}
  | _, _, _, _ => None
  end.

(** UPDATE sessions SET updated_at = strftime('%s','now') WHERE id = ?
    with [id_param] the value of the parameter and [t] the time. *)
Definition update_session_timestamp (store : session_store_t)
  (id_param : sqlval) (t : Z) : session_store_t :=
  {| sessions :=
       map (fun row =>
              if where_holds (sql_eq (SqlText (s_id row)) id_param)
              then {| s_id := s_id row; s_channel_id := s_channel_id row;
                      s_created_at := s_created_at row; s_updated_at := t |}
              else row)
           (sessions store);
     messages := messages store;
     messages_seq := messages_seq store |}.

(** [session_store_add_message]; [now] is what [time(NULL)] returns and
    [now'] the clock when the UPDATE runs.  The UPDATE goes through
    [sqlite3_exec], which binds nothing: its parameter is NULL. *)
Definition session_store_add_message (store : session_store_t)
  (session_id role content : option (list ascii)) (now now' : Z)
  : Z * session_store_t :=
  let inserted :=
    insert_message store (bind_text session_id) (bind_text role)
      (bind_text content) (SqlInt now) in
  let store1 := match inserted with Some s => s | None => store end in
  let store2 := update_session_timestamp store1 SqlNull now' in
  (match inserted with Some _ => OC_OK | None => OC_ERR end, store2).

(** SELECT role, content FROM messages WHERE session_id = ?
    ORDER BY created_at DESC LIMIT ?: the rows of the WHERE clause. *)
Definition select_where (store : session_store_t) (session_id : sqlval)
  : list message_row :=
  List.filter (fun row => where_holds (sql_eq (SqlText (m_session_id row)) session_id))
    (messages store).

Fixpoint sorted_desc (rows : list message_row) : bool :=
  match rows with
  | [] => true
  | r :: rest =>
      forallb (fun r' => m_created_at r' <=? m_created_at r) rest && sorted_desc rest
  end.

(** The row sequences the query may produce: the selected rows in an
    order that is descending in [created_at], cut at the limit.  The
    ORDER BY names no other column, so rows with equal [created_at] may
    come in either order. *)
Definition query_result (store : session_store_t) (session_id : sqlval) (lim : Z)
  (rows : list message_row) : Prop :=
  exists ordered,
    ordered ≡ₚ select_where store session_id /\
    sorted_desc ordered = true /\
    rows = take (Z.to_nat lim) ordered.

(** One admissible order: insertion of every row before the first row
    that is not newer than it. *)
Fixpoint insert_desc (r : message_row) (rows : list message_row) : list message_row :=
  match rows with
  | [] => [r]
  | r' :: rest =>
      if m_created_at r' <=? m_created_at r then r :: rows
      else r' :: insert_desc r rest
  end.

Definition order_desc (rows : list message_row) : list message_row :=
  fold_right insert_desc [] rows.

(** One element of the array: an object with the members role and
    content, both copied in without escaping. *)
Definition render_row (first : bool) (row : message_row) : list ascii :=
  (if first then [] else str ",")
  ++ str "{" ++ quoted (str "role") ++ str ":" ++ quoted (m_role row)
  ++ str "," ++ quoted (str "content") ++ str ":" ++ quoted (m_content row) ++ str "}".

Fixpoint render_rows (first : bool) (rows : list message_row) : list ascii :=
  match rows with
  | [] => []
  | r :: rest => render_row first r ++ render_rows false rest
  end.

Definition effective_limit (limit : Z) : Z := if 0 <? limit then limit else 50.

(** The text [session_store_get_history] builds from the rows that
    [sqlite3_step] yields. *)
Definition history_json (rows : list message_row) : list ascii :=
  str "[" ++ render_rows true rows ++ str "]".

(** [session_store_get_history] returns [out] for some admissible result
    of its query. *)
Definition session_store_get_history (store : session_store_t)
  (session_id : option (list ascii)) (limit : Z) (out : list ascii) : Prop :=
  exists rows,
    query_result store (bind_text session_id) (effective_limit limit) rows /\
    out = history_json rows.

End SessionStore.

(** ** Tool registry (tool.c of libkelp-agents) *)

Module Tool.
Import Cstr.

Record kelp_tool_result_t := {
  output : option string;
  is_error : bool;
  exit_code : Z
}.

(** [memset(result, 0, sizeof( *result))] *)
Definition result_zero : kelp_tool_result_t :=
  {| output := None; is_error := false; exit_code := 0 |}.

Section WithExecutors.

(** An executor is a function pointer: [exec_fn] is the type of the
    addresses, and calling one is the machine's business. *)
Variable exec_fn : Type.

Record tool_entry_t := {
  name : string;
  description : string;
  params_json : string;
  exec : exec_fn;
  requires_sandbox : bool;
  requires_confirmation : bool
}.

(** [struct kelp_tool_ctx]; [tools] is the [kelp_map_t] from names to
    entries. *)
Record kelp_tool_ctx_t := {
  workspace_dir : option string;
  tools : gmap string tool_entry_t;
  tool_count : Z
}.

(** [kelp_tool_def_t], as [kelp_tool_register] reads it. *)
Record kelp_tool_def_t := {
  def_name : option string;
  def_description : option string;
  def_params_json : option string;
  def_exec : option exec_fn;
  def_requires_sandbox : bool;
  def_requires_confirmation : bool
}.

Definition kelp_tool_ctx_new (dir : option string) : kelp_tool_ctx_t :=
  {| workspace_dir := dir; tools := ∅; tool_count := 0 |}.

Definition kelp_tool_register (ctx : option kelp_tool_ctx_t) (def : option kelp_tool_def_t)
  : Z * option kelp_tool_ctx_t :=
  match ctx, def with
  | Some c, Some d =>
      match def_name d, def_exec d with
      | Some n, Some e =>
          let '(tbl, count) :=
            match tools c !! n with
            | Some _ => (delete n (tools c), tool_count c - 1)
            | None => (tools c, tool_count c)
            end in
          let entry :=
            {| name := n;
               description := default ""%string (def_description d);
               params_json := default "{}"%string (def_params_json d);
               exec := e;
               requires_sandbox := def_requires_sandbox d;
               requires_confirmation := def_requires_confirmation d |} in
          (0, Some {| workspace_dir := workspace_dir c;
                      tools := <[n := entry]> tbl;
                      tool_count := count + 1 |})
      | _, _ => (-1, ctx)
      end
  | _, _ => (-1, ctx)
  end.

(** Calling through an executor pointer: the [int] it returns and the
    result it leaves. *)
Variable call_exec :
  exec_fn -> kelp_tool_ctx_t -> string -> kelp_tool_result_t -> Z * kelp_tool_result_t.

(** What [kelp_tool_execute] does: its return value, the result it
    leaves in [*result] ([None]: not written) and the executors it
    called, with their arguments. *)
Record execute_outcome := {
  ex_rc : Z;
  ex_result : option kelp_tool_result_t;
  ex_called : list (exec_fn * string)
}.

Definition kelp_tool_execute (ctx : option kelp_tool_ctx_t) (nm : option string)
  (args_json : option string) (has_result : bool) : execute_outcome :=
  match ctx, nm, has_result with
  | Some c, Some n, true =>
      match tools c !! n with
      | None =>
          (* the text is formatted by kelp_str_printf; the fallback for
             a failed allocation (the message without the name) is left out *)
          {| ex_rc := -1;
             ex_result :=
               Some {| output := Some ("error: unknown tool '" ++ n ++ "'")%string;
                       is_error := true; exit_code := -1 |};
             ex_called := [] |}
      | Some entry =>
          let args := default "{}"%string args_json in
          let '(rc, res) := call_exec (exec entry) c args result_zero in
          {| ex_rc := rc; ex_result := Some res; ex_called := [(exec entry, args)] |}
      end
  | _, _, _ => {| ex_rc := -1; ex_result := None; ex_called := [] |}
  end.

End WithExecutors.

End Tool.

(** ** SHA-1 and Base64

    [SHA1] and the Base64 [BIO] come from OpenSSL; they are written here
    after FIPS 180-4 and RFC 4648 so that the handshake can be computed. *)

Module Crypto.
Import Mach.

Definition be_bytes (n : nat) (v : Z) : list Z :=
  map (fun i => Z.land (Z.shiftr v (8 * Z.of_nat i)) 0xFF) (rev (seq 0 n)).

Definition rotl (n x : Z) : Z :=
  u32 (Z.lor (Z.shiftl x n) (Z.shiftr x (32 - n))).

Definition sha1_pad (msg : list Z) : list Z :=
  let l := Z.of_nat (length msg) in
  msg ++ [0x80] ++ repeat 0 (Z.to_nat ((55 - l) mod 64)) ++ be_bytes 8 (l * 8).

Fixpoint words_of (fuel : nat) (bs : list Z) : list Z :=
  match fuel, bs with
  | S fuel', b0 :: b1 :: b2 :: b3 :: rest =>
      Z.lor (Z.shiftl b0 24) (Z.lor (Z.shiftl b1 16) (Z.lor (Z.shiftl b2 8) b3))
      :: words_of fuel' rest
  | _, _ => []
  end.

(** The message schedule, most recent word first. *)
Fixpoint extend_schedule (n : nat) (w : list Z) : list Z :=
  match n with
  | O => w
  | S n' =>
      let x := Z.lxor (Z.lxor (nth 2 w 0) (nth 7 w 0))
                      (Z.lxor (nth 13 w 0) (nth 15 w 0)) in
      extend_schedule n' (rotl 1 x :: w)
  end.

Definition schedule (block : list Z) : list Z :=
  rev (extend_schedule 64 (rev (words_of 16 block))).

Definition sha1_f (t : nat) (b c d : Z) : Z :=
  if (t <? 20)%nat then Z.lor (Z.land b c) (Z.land (Z.lxor b 0xFFFFFFFF) d)
  else if (t <? 40)%nat then Z.lxor (Z.lxor b c) d
  else if (t <? 60)%nat then Z.lor (Z.lor (Z.land b c) (Z.land b d)) (Z.land c d)
  else Z.lxor (Z.lxor b c) d.

Definition sha1_k (t : nat) : Z :=
  if (t <? 20)%nat then 0x5A827999
  else if (t <? 40)%nat then 0x6ED9EBA1
  else if (t <? 60)%nat then 0x8F1BBCDC
  else 0xCA62C1D6.

Definition sha1_state : Type := Z * Z * Z * Z * Z.

Definition sha1_round (st : sha1_state) (tw : nat * Z) : sha1_state :=
  let '(a, b, c, d, e) := st in
  let '(t, w) := tw in
  let temp := u32 (rotl 5 a + sha1_f t b c d + e + sha1_k t + w) in
  (temp, a, rotl 30 b, c, d).

Definition sha1_block (h : sha1_state) (block : list Z) : sha1_state :=
  let '(h0, h1, h2, h3, h4) := h in
  let w := schedule block in
  let '(a, b, c, d, e) := fold_left sha1_round (combine (seq 0 80) w) h in
  (u32 (h0 + a), u32 (h1 + b), u32 (h2 + c), u32 (h3 + d), u32 (h4 + e)).

Fixpoint sha1_blocks (fuel : nat) (h : sha1_state) (bs : list Z) : sha1_state :=
  match fuel, bs with
  | S fuel', _ :: _ => sha1_blocks fuel' (sha1_block h (take 64 bs)) (drop 64 bs)
  | _, _ => h
  end.

Definition SHA1 (msg : list Z) : list Z :=
  let padded := sha1_pad msg in
  let '(h0, h1, h2, h3, h4) :=
    sha1_blocks (length padded)
      (0x67452301, 0xEFCDAB89, 0x98BADCFE, 0x10325476, 0xC3D2E1F0) padded in
  be_bytes 4 h0 ++ be_bytes 4 h1 ++ be_bytes 4 h2 ++ be_bytes 4 h3 ++ be_bytes 4 h4.

Definition b64_alphabet : list ascii :=
  list_ascii_of_string
    "ABCDEFGHIJKLMNOPQRSTUVWXYZabcdefghijklmnopqrstuvwxyz0123456789+/".

Definition b64_char (i : Z) : ascii := nth (Z.to_nat i) b64_alphabet "="%char.

(** Base64 without line breaks (BIO_FLAGS_BASE64_NO_NL). *)
Fixpoint base64_encode_go (fuel : nat) (bs : list Z) : list ascii :=
  match fuel with
  | O => []
  | S fuel' =>
      match bs with
      | [] => []
      | [b0] =>
          [ b64_char (Z.shiftr b0 2);
            b64_char (Z.shiftl (Z.land b0 3) 4);
            "="%char; "="%char ]
      | [b0; b1] =>
          [ b64_char (Z.shiftr b0 2);
            b64_char (Z.lor (Z.shiftl (Z.land b0 3) 4) (Z.shiftr b1 4));
            b64_char (Z.shiftl (Z.land b1 15) 2);
            "="%char ]
      | b0 :: b1 :: b2 :: rest =>
          [ b64_char (Z.shiftr b0 2);
            b64_char (Z.lor (Z.shiftl (Z.land b0 3) 4) (Z.shiftr b1 4));
            b64_char (Z.lor (Z.shiftl (Z.land b1 15) 2) (Z.shiftr b2 6));
            b64_char (Z.land b2 63) ]
          ++ base64_encode_go fuel' rest
      end
  end.

Definition base64_encode (bs : list Z) : list ascii := base64_encode_go (length bs) bs.

End Crypto.

(** ** WebSocket upgrade (ws_handle_upgrade) *)

Module WsUpgrade.
Import Mach Cstr Http Crypto.

Definition WS_MAGIC : list ascii := str "258EAFA5-E914-47DA-95CA-5AB5DC085B11".

(** [snprintf(combined, sizeof(combined), ...)] into [char combined[256]]
    keeps at most 255 characters. *)
Definition combined_key (ws_key : list ascii) : list ascii :=
  take 255 (ws_key ++ WS_MAGIC).

Definition accept_key (ws_key : list ascii) : list ascii :=
  base64_encode (SHA1 (map byte_of_ascii (combined_key ws_key))).

Definition upgrade_response (accept : list ascii) : list ascii :=
  str "HTTP/1.1 101 Switching Protocols" ++ CRLF
  ++ str "Upgrade: websocket" ++ CRLF
  ++ str "Connection: Upgrade" ++ CRLF
  ++ str "Sec-WebSocket-Accept: " ++ accept ++ CRLF
  ++ CRLF.

(** [ws_handle_upgrade]; [accepts] is the number of bytes the socket
    takes from the one [write].  Returns the [int], the connection and
    the bytes written. *)
Definition ws_handle_upgrade (conn : connection_t) (req : http_request_t) (accepts : nat)
  : Z * connection_t * list ascii :=
  match find_header req (str "Sec-WebSocket-Key") with
  | None => (-1, conn, [])
  | Some ws_key =>
      let response := take 511 (upgrade_response (accept_key ws_key)) in
      let written := take accepts response in
      if negb (length written =? length response)%nat then (-1, conn, written)
      else
        (0,
         {| fd := fd conn; state := CONN_WEBSOCKET; read_buf := read_buf conn;
            read_len := read_len conn;
            read_cap := read_cap conn; request := request conn;
            keep_alive := keep_alive conn; is_websocket := true |},
         written)
  end.

End WsUpgrade.

(** ** Sample data for the examples *)

Module Sample.
Import Cstr Http.

Definition cfg : config_t :=
  {| default_provider := None; anthropic_model := None; openai_model := None;
     max_tokens := 1024; temperature := 0%Q; anthropic_api_key := None;
     openai_api_key := None; system_prompt := Some (str "You are helpful.") |}.

(** A connection in its initial state whose read buffer holds [bytes]. *)
Definition conn_with (bytes : list ascii) : connection_t :=
  with_read (connection_create 5) bytes GW_READ_BUF_SIZE.

(** A handler that leaves the response as it is. *)
Definition idle_handler : route_handler_t := fun _ _ resp => (0, resp).

(** A WebSocket handshake, as the parser leaves it on the connection. *)
Definition ws_conn : connection_t :=
  snd (http_parse_request
         (conn_with
            (str "GET /ws HTTP/1.1" ++ CRLF
             ++ str "Upgrade: websocket" ++ CRLF
             ++ str "Connection: Upgrade" ++ CRLF
             ++ str "Sec-WebSocket-Key: dGhlIHNhbXBsZSBub25jZQ==" ++ CRLF
             ++ CRLF))).

(** A chat request with two system messages and one user message, as
    text and as the tree a JSON parser makes of it. *)
Definition chat_message_text (role content : string) : list ascii :=
  str "{" ++ quoted (str "role") ++ str ":" ++ quoted (str role) ++ str ","
  ++ quoted (str "content") ++ str ":" ++ quoted (str content) ++ str "}".

Definition chat_body : list ascii :=
  str "{" ++ quoted (str "messages") ++ str ":["
  ++ chat_message_text "system" "A" ++ str ","
  ++ chat_message_text "system" "B" ++ str ","
  ++ chat_message_text "user" "hi" ++ str "]}".

Definition chat_message (role content : string) : Json.cJSON :=
  Json.cJSON_Object [ (str "role", Json.cJSON_String (str role));
                      (str "content", Json.cJSON_String (str content)) ].

Definition chat_messages : list Json.cJSON :=
  [ chat_message "system" "A"; chat_message "system" "B"; chat_message "user" "hi" ].

Definition chat_tree : Json.cJSON :=
  Json.cJSON_Object [ (str "messages", Json.cJSON_Array chat_messages) ].

Definition parse_chat_body (text : list ascii) : option Json.cJSON :=
  if list_eqb text chat_body then Some chat_tree else None.

Definition chat_request : http_request_t :=
  {| method := HTTP_POST; url := str "/v1/chat/completions";
     path := str "/v1/chat/completions"; query := [];
     version_major := 1; version_minor := 1;
     headers := headers request_zero; header_count := 0;
     body := Some chat_body; body_len := Z.of_nat (length chat_body);
     content_length := Z.of_nat (length chat_body) |}.

Definition chat_view : gw_view :=
  {| now := 12; v_cfg := cfg; v_total_requests := 1;
     v_active_connections := 1; v_start_time := 10 |}.

(** Libraries for the examples.  A printer for the trees the examples
    build: members and items in order, no white space, quotes and
    backslashes of strings escaped, numbers as integers or fractions. *)
Definition escape (s : list ascii) : list ascii :=
  flat_map (fun c => if Ascii.eqb c DQUOTE || Ascii.eqb c "\"%char
                     then ["\"%char; c] else [c]) s.

Definition print_number (d : Q) : list ascii :=
  if (Qden d =? 1)%positive then dec (Qnum d)
  else dec (Qnum d) ++ str "/" ++ dec (Zpos (Qden d)).

Fixpoint print_json (j : Json.cJSON) : list ascii :=
  match j with
  | Json.cJSON_Null => str "null"
  | Json.cJSON_Bool b => if b then str "true" else str "false"
  | Json.cJSON_Number d => print_number d
  | Json.cJSON_String s => quoted (escape s)
  | Json.cJSON_Array items =>
      str "["
      ++ (fix go (l : list Json.cJSON) : list ascii :=
            match l with
            | [] => []
            | [x] => print_json x
            | x :: rest => print_json x ++ str "," ++ go rest
            end) items
      ++ str "]"
  | Json.cJSON_Object members =>
      str "{"
      ++ (fix go (l : list (list ascii * Json.cJSON)) : list ascii :=
            match l with
            | [] => []
            | [(k, v)] => quoted (escape k) ++ str ":" ++ print_json v
            | (k, v) :: rest =>
                quoted (escape k) ++ str ":" ++ print_json v ++ str "," ++ go rest
            end) members
      ++ str "}"
  end.

Definition opt_json (o : option (list ascii)) : Json.cJSON :=
  match o with
  | Some s => Json.cJSON_String s
  | None => Json.cJSON_Null
  end.

(** A request builder that keeps every argument it is given. *)
Definition build_echo (api : string)
  (model system : option (list ascii)) (user : list ascii) (max_tok : Z) (temp : Q)
  : Json.cJSON :=
  Json.cJSON_Object
    [ (str "api", Json.cJSON_String (str api));
      (str "model", opt_json model);
      (str "system", opt_json system);
      (str "user", Json.cJSON_String user);
      (str "max_tokens", Json.cJSON_Number (inject_Z max_tok));
      (str "temperature", Json.cJSON_Number temp) ].

(** An upstream that streams back, as one text chunk, the URL, the key
    and the body it was called with. *)
Definition post_echo (target api_key : list ascii) (ai_body : Json.cJSON)
  (provider : Chat.provider_t) : Z * list Chat.stream_event :=
  (0, [ Chat.OnText (target ++ str " " ++ api_key ++ str " " ++ print_json ai_body);
        Chat.OnDone 3 1 ]).

(** One key per provider. *)
Definition keys (_ : config_t) (p : Chat.provider_t) : option (list ascii) :=
  match p with
  | Chat.PROVIDER_ANTHROPIC => Some (str "sk-ant")
  | Chat.PROVIDER_OPENAI => Some (str "sk-oai")
  end.

Definition run_chat (view : gw_view) (req : http_request_t) (resp : http_response_build_t)
  : Z * http_response_build_t * option Chat.upstream_call :=
  Chat.handler_chat_run parse_chat_body print_json Json.json_get_str_ref
    (fun _ _ d => d) (fun _ _ d => d)
    (fun _ => Chat.PROVIDER_ANTHROPIC) keys
    (build_echo "anthropic") (build_echo "openai") post_echo
    view req resp.






End Sample.

(** ** WebSocket frame writer (ws_send_text) *)

Module WsWrite.
Import Mach Http.

(** The outbound side of a socket takes [room] more bytes before it
    would block: [write(fd, buf, n)] takes [min n room] of them and
    returns that count, or no more than zero when it can take none. *)
Definition sock_write (bytes : list Z) (room : nat) : list Z * nat :=
  (take room bytes, (room - length bytes)%nat).

(** The header [ws_send_text] builds for a payload of [len] bytes:
    FIN and the text opcode, then the length inline, in 2 or in 8 bytes. *)
Definition frame_header (len : Z) : list Z :=
  if len <? 126 then [0x81; len]
  else if len <? 65536 then
    [0x81; 126; Z.land (Z.shiftr len 8) 0xFF; Z.land len 0xFF]
  else
    0x81 :: 127 ::
      map (fun i => Z.land (Z.shiftr len (8 * i)) 0xFF) [7; 6; 5; 4; 3; 2; 1; 0].

(** The payload loop: write what is left until nothing is, fail when a
    write takes nothing.  Returns the [int] and the bytes written. *)
Fixpoint write_all (fuel : nat) (bytes : list Z) (room : nat) : Z * list Z :=
  match bytes with
  | [] => (0, [])
  | _ :: _ =>
      match fuel with
      | O => (-1, [])
      | S fuel' =>
          let '(taken, room') := sock_write bytes room in
          match taken with
          | [] => (-1, [])
          | _ :: _ =>
              let '(rc, more) := write_all fuel' (drop (length taken) bytes) room' in
              (rc, taken ++ more)
          end
      end
  end.

(** [ws_send_text]: the [int] returned and the bytes that reached the
    socket. *)
Definition ws_send_text (conn : connection_t) (text : list Z) (room : nat)
  : Z * list Z :=
  if negb (is_websocket conn) then (-1, []) else
  let header := frame_header (Z.of_nat (length text)) in
  let '(taken, room') := sock_write header room in
  if negb (length taken =? length header)%nat then (-1, taken) else
  let '(rc, sent) := write_all (length text) text room' in
  (rc, taken ++ sent).

End WsWrite.

(** ** Session store: creation and counters (session_store.c) *)

Module SessionOps.
Import Mach Cstr SessionStore.

(** [sprintf(id + i * 2, "%02x", buf[i])] for one byte. *)
Definition hex_digit (n : Z) : ascii :=
  nth (Z.to_nat n) (str "0123456789abcdef") "0"%char.

Definition hex2 (b : Z) : list ascii := [hex_digit (b / 16); hex_digit (b mod 16)].

(** [generate_session_id]; [urandom] is what /dev/urandom gives:
    [None] when it cannot be opened, else the bytes it can supply. *)
Definition generate_session_id (urandom : option (list Z)) : option (list ascii) :=
  match urandom with
  | None => None
  | Some bytes =>
      let buf := take 16 bytes in
      if (length buf <? 16)%nat then None else Some (flat_map hex2 buf)
  end.

(** INSERT INTO sessions (id, channel_id, created_at, updated_at)
    VALUES (?, ?, ?, ?): [id] is the primary key, [channel_id] is
    NOT NULL. *)
Definition insert_session (store : session_store_t)
  (id channel_id created_at updated_at : sqlval) : option session_store_t :=
  match id, channel_id, created_at, updated_at with
  | SqlText i, SqlText c, SqlInt t, SqlInt t' =>
      if existsb (fun row => list_eqb (s_id row) i) (sessions store) then None
      else
        Some {| sessions := sessions store ++
                  [{| s_id := i; s_channel_id := c;
                      s_created_at := t; s_updated_at := t' |}];
                messages := messages store;
                messages_seq := messages_seq store |}
  | _, _, _, _ => None
  end.

(** [session_store_create]: the id returned ([None] for NULL) and the
    store afterwards. *)
Definition session_store_create (store : session_store_t)
  (channel_id : option (list ascii)) (urandom : option (list Z)) (now : Z)
  : option (list ascii) * session_store_t :=
  match generate_session_id urandom with
  | None => (None, store)
  | Some id =>
      match insert_session store (SqlText id) (bind_text channel_id)
              (SqlInt now) (SqlInt now) with
      | Some store' => (Some id, store')
      | None => (None, store)
      end
  end.

(** [sqlite3_column_int]: the low 32 bits of the value, as an [int]. *)
Definition to_int32 (z : Z) : Z := (z + 2 ^ 31) mod 2 ^ 32 - 2 ^ 31.

(** SELECT COUNT( * ) FROM messages WHERE session_id = ? *)
Definition session_store_get_message_count (store : session_store_t)
  (session_id : option (list ascii)) : Z :=
  to_int32 (Z.of_nat (length (select_where store (bind_text session_id)))).

Definition session_store_count_sessions (store : session_store_t) : Z :=
  to_int32 (Z.of_nat (length (sessions store))).

Definition session_store_count_messages (store : session_store_t) : Z :=
  to_int32 (Z.of_nat (length (messages store))).

(** [session_store_open] on a database file that does not exist yet:
    both tables are created empty. *)
Definition session_store_open_new : session_store_t :=
  {| sessions := []; messages := []; messages_seq := 0 |}.

(** Message ids grow along the table and stay within the AUTOINCREMENT
    sequence. *)
Fixpoint ids_increasing (bound : Z) (rows : list message_row) : bool :=
  match rows with
  | [] => true
  | r :: rest => (bound <? m_id r) && ids_increasing (m_id r) rest
  end.

(** The same message appended once per element of [times], each time
    at that clock value. *)
Definition add_repeatedly (sid role content : list ascii) (times : list Z)
  (store : session_store_t) : session_store_t :=
  fold_left
    (fun st t => snd (session_store_add_message st (Some sid) (Some role) (Some content) t t))
    times store.

(** Sample random bytes: sixteen consecutive values from [start]. *)
Definition seq_bytes (start : Z) : list Z :=
  map (fun i => (start + Z.of_nat i) mod 256) (seq 0 16).

Definition messages_ok (store : session_store_t) : bool :=
  ids_increasing 0 (messages store)
  && forallb (fun r => m_id r <=? messages_seq store) (messages store).

End SessionOps.

(** ** Default tools (kelp_tool_register_defaults, the desktop shims) *)

Module ToolDefaults.
Import Tool.
Local Open Scope string_scope.

Definition dq : string := String "034"%char EmptyString.
Definition q (s : string) : string := dq ++ s ++ dq.

(** The schema shared by desktop_move_cursor and desktop_click: an
    object with the numbers x and y, both required. *)
Definition xy_params : string :=
  "{" ++ q "type" ++ ":" ++ q "object" ++ "," ++ q "properties" ++ ":{"
  ++ q "x" ++ ":{" ++ q "type" ++ ":" ++ q "number" ++ ","
  ++ q "description" ++ ":" ++ q "X coordinate" ++ "},"
  ++ q "y" ++ ":{" ++ q "type" ++ ":" ++ q "number" ++ ","
  ++ q "description" ++ ":" ++ q "Y coordinate" ++ "}"
  ++ "}," ++ q "required" ++ ":[" ++ q "x" ++ "," ++ q "y" ++ "]}".

Definition text_params : string :=
  "{" ++ q "type" ++ ":" ++ q "object" ++ "," ++ q "properties" ++ ":{"
  ++ q "text" ++ ":{" ++ q "type" ++ ":" ++ q "string" ++ ","
  ++ q "description" ++ ":" ++ q "Text to type" ++ "}"
  ++ "}," ++ q "required" ++ ":[" ++ q "text" ++ "]}".

Definition panel_params : string :=
  "{" ++ q "type" ++ ":" ++ q "object" ++ "," ++ q "properties" ++ ":{"
  ++ q "name" ++ ":{" ++ q "type" ++ ":" ++ q "string" ++ ","
  ++ q "enum" ++ ":[" ++ q "chat" ++ "," ++ q "terminal" ++ "," ++ q "monitor"
  ++ "," ++ q "files" ++ "],"
  ++ q "description" ++ ":" ++ q "Panel name to open" ++ "}"
  ++ "}," ++ q "required" ++ ":[" ++ q "name" ++ "]}".

Definition state_params : string :=
  "{" ++ q "type" ++ ":" ++ q "object" ++ "," ++ q "properties" ++ ":{}}".

(** [desktop_tool_noop]: it ignores the context and the arguments. *)
Definition desktop_tool_noop (result : kelp_tool_result_t) : Z * kelp_tool_result_t :=
  (0%Z, {| output := Some "[forwarded to desktop]"; is_error := false;
           exit_code := exit_code result |}).

Section WithExecutors.

Variable exec_fn : Type.
(** The address of [desktop_tool_noop]. *)
Variable desktop_tool_noop_fn : exec_fn.
(** The definitions of tools/*.c, which the sources only declare. *)
Variable kelp_bash_tool_def kelp_file_read_tool_def : kelp_tool_def_t exec_fn.
Variable kelp_file_write_tool_def kelp_web_fetch_tool_def : kelp_tool_def_t exec_fn.

Definition desktop_def (nm descr params : string) : kelp_tool_def_t exec_fn :=
  {| def_name := Some nm; def_description := Some descr;
     def_params_json := Some params; def_exec := Some desktop_tool_noop_fn;
     def_requires_sandbox := false; def_requires_confirmation := false |}.

Definition kelp_desktop_tools : list (kelp_tool_def_t exec_fn) :=
  [ desktop_def "desktop_move_cursor"
      ("Move the AI cursor to a position on screen. "
       ++ "The cursor animates smoothly to the target.")
      xy_params;
    desktop_def "desktop_click"
      ("Click at a position on the desktop. This moves the AI "
       ++ "cursor and performs a click, which can open dock items "
       ++ "or interact with panels.")
      xy_params;
    desktop_def "desktop_type"
      ("Type text into the currently focused panel. If the chat "
       ++ "panel is focused, types into the chat input. If the "
       ++ "terminal is focused, types into the shell. Use \n for Enter.")
      text_params;
    desktop_def "desktop_open_panel"
      ("Open a desktop panel. Available panels: chat, terminal, "
       ++ "monitor, files. The panel slides in with animation.")
      panel_params;
    desktop_def "desktop_get_state"
      ("Get the current desktop state as JSON, including screen "
       ++ "dimensions, panel positions, cursor location, and which "
       ++ "panels are open.")
      state_params ].

(** One [rc |= kelp_tool_register(ctx, def)]. *)
Definition register_step (acc : Z * option (kelp_tool_ctx_t exec_fn))
  (def : kelp_tool_def_t exec_fn) : Z * option (kelp_tool_ctx_t exec_fn) :=
  let '(rc, ctx) := kelp_tool_register exec_fn (snd acc) (Some def) in
  (Z.lor (fst acc) rc, ctx).

Definition kelp_tool_register_defaults (ctx : option (kelp_tool_ctx_t exec_fn))
  : Z * option (kelp_tool_ctx_t exec_fn) :=
  match ctx with
  | None => (-1, None)%Z
  | Some _ =>
      fold_left register_step
        ([ kelp_bash_tool_def; kelp_file_read_tool_def;
           kelp_file_write_tool_def; kelp_web_fetch_tool_def ]
         ++ kelp_desktop_tools)
        (0%Z, ctx)
  end.

End WithExecutors.

(** The names of the five desktop tools. *)
Definition desktop_names : list string :=
  [ "desktop_move_cursor"; "desktop_click"; "desktop_type";
    "desktop_open_panel"; "desktop_get_state" ].

End ToolDefaults.

(** ** Bounds of the arrays inside http_request_t *)

Module RequestBounds.
Import Cstr Http.

(** Every string of the request fits its array with its terminator:
    [url], [path] and [query] in [GW_MAX_URL_LEN] bytes, each header key
    in 256 and each value in 512; there are [GW_MAX_HEADERS] header slots
    and [header_count] does not exceed them. *)
Definition request_fits (req : http_request_t) : bool :=
  (length (url req) <? GW_MAX_URL_LEN)%nat
  && (length (path req) <? GW_MAX_URL_LEN)%nat
  && (length (query req) <? GW_MAX_URL_LEN)%nat
  && (header_count req <=? GW_MAX_HEADERS)%nat
  && (length (headers req) =? GW_MAX_HEADERS)%nat
  && forallb (fun h => (length (key h) <? HEADER_KEY_SIZE)%nat
                       && (length (value h) <? HEADER_VALUE_SIZE)%nat)
       (headers req).

End RequestBounds.

(** ** Bearer token check (auth_gateway.c) *)

Module AuthGateway.
Import Mach Cstr Http.

Definition OC_ERR_AUTH : Z := -3.

(** One turn of the loop over the headers: the key is Authorization in
    any case, the value starts with the seven characters of the Bearer
    prefix and what follows equals the token. *)
Definition header_authorizes (h : header_t) (token : list ascii) : bool :=
  strcaseeq (key h) (str "Authorization")
  && is_prefix (str "Bearer ") (value h)
  && list_eqb (drop 7 (value h)) token.

Definition auth_gateway_check (req : http_request_t)
  (expected_token : option (list ascii)) : Z :=
  match expected_token with
  | None | Some [] => OC_OK
  | Some token =>
      if existsb (fun h => header_authorizes h token)
           (take (header_count req) (headers req))
      then OC_OK else OC_ERR_AUTH
  end.

End AuthGateway.

(** ** POST /hooks/webchat (handler_webhook.c) *)

Module Webhook.
Import Mach Cstr Http Json Chat.

Definition error_body (message : list ascii) : list ascii :=
  str "{" ++ quoted (str "error") ++ str ":" ++ quoted message ++ str "}".

(** [collect_text]; the webhook installs no [on_done] callback. *)
Definition collect_text (acc : option (list ascii)) (ev : stream_event)
  : option (list ascii) :=
  match ev with
  | OnText text => Some (match acc with Some b => b | None => [] end ++ text)
  | OnDone _ _ => acc
  end.

Section WithLibraries.

Variable cJSON_Parse : list ascii -> option cJSON.
Variable cJSON_PrintUnformatted : cJSON -> list ascii.
Variable json_get_str : cJSON -> list ascii -> option (list ascii).
Variable auth_parse_provider : option (list ascii) -> provider_t.
Variable auth_resolve : config_t -> provider_t -> option (list ascii).
Variable json_build_anthropic_request json_build_openai_request :
  option (list ascii) -> option (list ascii) -> list ascii -> Z -> Q -> cJSON.
Variable http_stream_post :
  list ascii -> list ascii -> cJSON -> provider_t -> Z * list stream_event.

Definition webhook_error (resp : http_response_build_t) (code : Z)
  (reason message : list ascii) : http_response_build_t :=
  http_response_set_json (http_response_set_status resp code reason)
    (error_body message).

Definition webhook_success_json (text : list ascii)
  (session_id model : option (list ascii)) : cJSON :=
  cJSON_Object
    ([ (str "response", cJSON_String text) ]
     ++ match session_id with
        | Some sid => [ (str "session_id", cJSON_String sid) ]
        | None => []
        end
     ++ match model with
        | Some m => [ (str "model", cJSON_String m) ]
        | None => []
        end).

Definition webhook_failure_json : cJSON :=
  cJSON_Object [ (str "error", cJSON_String (str "AI API request failed")) ].

(** [handler_webhook], with the upstream POST it made, if it made one. *)
Definition handler_webhook_run (view : gw_view) (req : http_request_t)
  (resp : http_response_build_t)
  : Z * http_response_build_t * option upstream_call :=
  match body req with
  | None => (OC_OK, webhook_error resp 400 (str "Bad Request") (str "Empty body"), None)
  | Some req_body =>
  if body_len req =? 0
  then (OC_OK, webhook_error resp 400 (str "Bad Request") (str "Empty body"), None)
  else
  match cJSON_Parse (cstr_view req_body) with
  | None => (OC_OK, webhook_error resp 400 (str "Bad Request") (str "Invalid JSON"), None)
  | Some json =>
  match json_get_str json (str "message") with
  | None | Some [] =>
      (OC_OK,
       webhook_error resp 400 (str "Bad Request") (str "Missing 'message' field"),
       None)
  | Some message =>
      let session_id := json_get_str json (str "session_id") in
      let provider := auth_parse_provider (default_provider (v_cfg view)) in
      match auth_resolve (v_cfg view) provider with
      | None =>
          (OC_OK,
           webhook_error resp 500 (str "Internal Server Error")
             (str "No API key configured"),
           None)
      | Some api_key =>
          let model :=
            match provider with
            | PROVIDER_ANTHROPIC => anthropic_model (v_cfg view)
            | PROVIDER_OPENAI => openai_model (v_cfg view)
            end in
          let '(target, ai_body) :=
            match provider with
            | PROVIDER_ANTHROPIC =>
                (str "https://api.anthropic.com/v1/messages",
                 json_build_anthropic_request model (system_prompt (v_cfg view))
                   message (max_tokens (v_cfg view)) (temperature (v_cfg view)))
            | PROVIDER_OPENAI =>
                (str "https://api.openai.com/v1/chat/completions",
                 json_build_openai_request model (system_prompt (v_cfg view))
                   message (max_tokens (v_cfg view)) (temperature (v_cfg view)))
            end in
          let '(rc, events) := http_stream_post target api_key ai_body provider in
          let collected := fold_left collect_text events None in
          let call :=
            {| up_url := target; up_api_key := api_key; up_provider := provider;
               up_model := model; up_system := system_prompt (v_cfg view);
               up_user := message; up_max_tokens := max_tokens (v_cfg view);
               up_temperature := temperature (v_cfg view) |} in
          let resp' :=
            match (rc =? OC_OK), collected with
            | true, Some text =>
                (* collect.buf is read as a C string *)
                http_response_set_json resp
                  (cJSON_PrintUnformatted
                     (webhook_success_json (cstr_view text) session_id model))
            | _, _ =>
                http_response_set_json
                  (http_response_set_status resp 502 (str "Bad Gateway"))
                  (cJSON_PrintUnformatted webhook_failure_json)
            end in
          (OC_OK, resp', Some call)
      end
  end
  end
  end.

Definition handler_webhook : route_handler_t :=
  fun view req resp => fst (handler_webhook_run view req resp).

End WithLibraries.

End Webhook.

(** ** Invariants of the connection table (gateway.h, epoll_server.c) *)

Module GatewayInv.
Import Mach Http.

(** Every connection of the table sits at the index of its own
    descriptor, inside the [max_fd] slots of the array. *)
Definition table_ok (gw : gateway_ctx_t) : bool :=
  forallb (fun kc : Z * connection_t =>
             (0 <=? fst kc) && (fst kc <? max_fd gw) && (fd (snd kc) =? fst kc))
    (map_to_list (connections gw)).

(** [accept] returns descriptors that are not negative. *)
Definition accepts_ok (ev : event) : bool :=
  match ev with
  | EvListen accepted => forallb (Z.leb 0) accepted
  | _ => true
  end.

(** [accept] returns descriptors that were not open: different from
    each other and from those of the table. *)
Definition accepts_fresh (gw : gateway_ctx_t) (ev : event) : bool :=
  match ev with
  | EvListen accepted =>
      bool_decide (NoDup accepted)
      && forallb (fun k => bool_decide (connections gw !! k = None)) accepted
  | _ => true
  end.

(** [active_connections] is the number of connections of the table. *)
Definition counter_ok (gw : gateway_ctx_t) : bool :=
  active_connections gw =? u64 (Z.of_nat (size (connections gw))).

(** The connection as [handle_client_data] leaves it after the answer
    to a keep-alive request: state, [read_len] and request are reset,
    the buffer and the rest are as they were. *)
Definition reset_for_next_request (conn : connection_t) : connection_t :=
  {| fd := fd conn; state := CONN_READING_HEADERS;
     read_buf := read_buf conn; read_len := 0; read_cap := read_cap conn;
     request := request_zero; keep_alive := keep_alive conn;
     is_websocket := is_websocket conn |}.

(** A socket on which nothing has arrived. *)
Definition idle_socket : socket := {| pending := []; on_empty := WouldBlock |}.

End GatewayInv.

(** ** Header lines as text *)

Module HeaderText.
Import Mach Cstr Http.

(** A header line as it arrives: the key, a colon, [n] spaces, the
    value and the end of line. *)
Definition header_text (h : list ascii * nat * list ascii) : list ascii :=
  let '(k, n, v) := h in k ++ ":"%char :: replicate n " "%char ++ v ++ CRLF.

Definition header_block (hs : list (list ascii * nat * list ascii)) : list ascii :=
  flat_map header_text hs.

Definition header_of (h : list ascii * nat * list ascii) : header_t :=
  let '(k, _, v) := h in {| key := k; value := v |}.

Definition no_char (c : ascii) (s : list ascii) : bool :=
  forallb (fun x => negb (Ascii.eqb x c)) s.

(** A line the parser stores as it is: no colon and no carriage return
    in the key, no carriage return in the value, which does not start
    with a space, and both within the arrays of [header_t]. *)
Definition header_text_ok (h : list ascii * nat * list ascii) : bool :=
  let '(k, _, v) := h in
  no_char ":"%char k && no_char CR k && no_char CR v
  && match v with c :: _ => negb (Ascii.eqb c " "%char) | [] => true end
  && (length k <? HEADER_KEY_SIZE)%nat && (length v <? HEADER_VALUE_SIZE)%nat.

(** A request line the parser splits at its two spaces: method and
    URL without space, nothing with a carriage return, and the URL
    within [GW_MAX_URL_LEN]. *)
Definition request_line_ok (m u ver : list ascii) : bool :=
  no_char " "%char m && no_char CR m && no_char " "%char u && no_char CR u
  && no_char CR ver && (length u <? GW_MAX_URL_LEN)%nat.

End HeaderText.

(** ** The upstream endpoints *)

Module Upstream.
Import Cstr Chat.

(** The URL each provider is called at, in both handlers. *)
Definition endpoint_of (p : provider_t) : list ascii :=
  match p with
  | PROVIDER_ANTHROPIC => str "https://api.anthropic.com/v1/messages"
  | PROVIDER_OPENAI => str "https://api.openai.com/v1/chat/completions"
  end.

(** The model the configuration names for a provider. *)
Definition configured_model (c : Http.config_t) (p : provider_t) : option (list ascii) :=
  match p with
  | PROVIDER_ANTHROPIC => Http.anthropic_model c
  | PROVIDER_OPENAI => Http.openai_model c
  end.

(** The provider a chat request selects: the one its model name starts
    with, else the configured default. *)
Definition selected_provider (default : provider_t) (req_model : option (list ascii))
  : provider_t :=
  match req_model with
  | Some rm =>
      if is_prefix (str "claude") rm then PROVIDER_ANTHROPIC
      else if is_prefix (str "gpt") rm then PROVIDER_OPENAI
      else default
  | None => default
  end.

(** The model a chat request is sent with: the one it names, else the
    configured model of the default provider. *)
Definition selected_model (c : Http.config_t) (default : provider_t)
  (req_model : option (list ascii)) : option (list ascii) :=
  match req_model with
  | Some rm => Some rm
  | None => configured_model c default
  end.

(** The request builder of a provider. *)
Definition build_request {A : Type} (anthropic openai : A) (p : provider_t) : A :=
  match p with
  | PROVIDER_ANTHROPIC => anthropic
  | PROVIDER_OPENAI => openai
  end.

(** The response [handler_chat] makes of what [http_stream_post]
    returned and streamed. *)
Definition chat_reply (print : Json.cJSON -> list ascii) (resp : Http.http_response_build_t)
  (model : option (list ascii)) (result : Z * list stream_event)
  : Http.http_response_build_t :=
  let collect := fold_left chat_collect (snd result) collect_zero in
  match (fst result =? Mach.OC_OK)%Z, buf collect with
  | true, Some text =>
      Http.http_response_set_json resp
        (print (completion_json model collect (cstr_view text)))
  | _, _ =>
      Http.http_response_set_json
        (Http.http_response_set_status resp 502 (str "Bad Gateway"))
        (print failure_json)
  end.

(** The response [handler_webhook] makes of it. *)
Definition hook_reply (print : Json.cJSON -> list ascii) (resp : Http.http_response_build_t)
  (session_id model : option (list ascii)) (result : Z * list stream_event)
  : Http.http_response_build_t :=
  match (fst result =? Mach.OC_OK)%Z, fold_left Webhook.collect_text (snd result) None with
  | true, Some text =>
      Http.http_response_set_json resp
        (print (Webhook.webhook_success_json (cstr_view text) session_id model))
  | _, _ =>
      Http.http_response_set_json
        (Http.http_response_set_status resp 502 (str "Bad Gateway"))
        (print Webhook.webhook_failure_json)
  end.

End Upstream.

(** ** A webhook example *)

Module SampleHook.
Import Cstr Http.

Definition hook_body : list ascii :=
  str "{" ++ quoted (str "message") ++ str ":" ++ quoted (str "ping") ++ str ","
  ++ quoted (str "model") ++ str ":" ++ quoted (str "gpt-4") ++ str ","
  ++ quoted (str "session_id") ++ str ":" ++ quoted (str "s1") ++ str "}".

Definition hook_tree : Json.cJSON :=
  Json.cJSON_Object [ (str "message", Json.cJSON_String (str "ping"));
                      (str "model", Json.cJSON_String (str "gpt-4"));
                      (str "session_id", Json.cJSON_String (str "s1")) ].

Definition parse_hook_body (text : list ascii) : option Json.cJSON :=
  if list_eqb text hook_body then Some hook_tree else None.

Definition hook_request : http_request_t :=
  {| method := HTTP_POST; url := str "/hooks/webchat"; path := str "/hooks/webchat";
     query := []; version_major := 1; version_minor := 1;
     headers := headers request_zero; header_count := 0;
     body := Some hook_body; body_len := Z.of_nat (length hook_body);
     content_length := Z.of_nat (length hook_body) |}.

(** A configuration that names a model for each provider. *)
Definition hook_cfg : config_t :=
  {| default_provider := None; anthropic_model := Some (str "claude-x");
     openai_model := Some (str "gpt-y"); max_tokens := 256; temperature := 0%Q;
     anthropic_api_key := None; openai_api_key := None;
     system_prompt := Some (str "Be brief.") |}.

Definition hook_view : gw_view :=
  {| now := 12; v_cfg := hook_cfg; v_total_requests := 1;
     v_active_connections := 1; v_start_time := 10 |}.

(** Libraries for the example: those of the chat example, with
    Anthropic as the default provider. *)
Definition run_hook (view : gw_view) (req : http_request_t) (resp : http_response_build_t)
  : Z * http_response_build_t * option Chat.upstream_call :=
  Webhook.handler_webhook_run parse_hook_body Sample.print_json Json.json_get_str_ref
    (fun _ => Chat.PROVIDER_ANTHROPIC) Sample.keys
    (Sample.build_echo "anthropic") (Sample.build_echo "openai") Sample.post_echo
    view req resp.

End SampleHook.

(** * Properties *)

(** ** WebSocket frames *)

Module WsFacts.
Import Mach Ws.

Lemma lor_shift_byte (acc b : Z) :
  0 <= acc -> 0 <= b < 256 -> Z.lor (Z.shiftl acc 8) b = acc * 256 + b.
Proof.
  intros Hacc Hb.
  assert (Hland : Z.land (Z.shiftl acc 8) b = 0).
  { apply Z.bits_inj'. intros n Hn.
    rewrite Z.land_spec, Z.bits_0.
    destruct (Z.lt_ge_cases n 8) as [Hlt | Hge].
    - rewrite Z.shiftl_spec_low by lia. reflexivity.
    - destruct (Z.eq_dec b 0) as [-> | Hnz].
      + rewrite Z.bits_0. apply andb_false_r.
      + rewrite (Z.bits_above_log2 b n); [apply andb_false_r | lia |].
        assert (Z.log2 b < 8) by (apply Z.log2_lt_pow2; lia). lia. }
  rewrite <- Z.lxor_lor by exact Hland.
  rewrite <- Z.add_nocarry_lxor by exact Hland.
  rewrite Z.shiftl_mul_pow2 by lia. reflexivity.
Qed.

(** The shift-and-or loop computes the big-endian number as long as the
    bytes fit a [size_t]. *)
Lemma be_fold_bound (bs : list Z) (acc : Z) (n : nat) :
  Forall is_byte bs -> 0 <= acc < 256 ^ Z.of_nat n ->
  (n + length bs <= 8)%nat ->
  fold_left (fun a b => u64 (Z.lor (Z.shiftl a 8) b)) bs acc
  = fold_left (fun a b => a * 256 + b) bs acc
  /\ 0 <= fold_left (fun a b => a * 256 + b) bs acc < 256 ^ Z.of_nat (n + length bs).
Proof.
  intros Hbs. revert acc n.
  induction Hbs as [| b bs Hb Hbs IH]; intros acc n Hacc Hlen; simpl in *.
  - rewrite Nat.add_0_r. split; [reflexivity | exact Hacc].
  - assert (Hstep : 0 <= acc * 256 + b < 256 ^ Z.of_nat (S n)).
    { unfold is_byte in Hb. rewrite Nat2Z.inj_succ, Z.pow_succ_r by lia. nia. }
    assert (Hsmall : acc * 256 + b < two64).
    { assert (256 ^ Z.of_nat (S n) <= 256 ^ 8) by (apply Z.pow_le_mono_r; lia).
      unfold two64. change (2 ^ 64) with (256 ^ 8). lia. }
    rewrite lor_shift_byte by (unfold is_byte in Hb; lia).
    replace (u64 (acc * 256 + b)) with (acc * 256 + b)
      by (unfold u64; rewrite Z.mod_small; lia).
    replace (n + S (length bs))%nat with (S n + length bs)%nat by lia.
    apply IH; [exact Hstep | lia].
Qed.

Lemma be_value_number (bs : list Z) :
  Forall is_byte bs -> (length bs <= 8)%nat ->
  be_value bs = be_number bs /\ 0 <= be_number bs < two64.
Proof.
  intros Hbs Hlen.
  destruct (be_fold_bound bs 0 0 Hbs) as [Heq Hrange]; [simpl; lia | simpl; lia |].
  split; [exact Heq |].
  unfold be_number. simpl in Hrange.
  assert (256 ^ Z.of_nat (length bs) <= 256 ^ 8) by (apply Z.pow_le_mono_r; lia).
  unfold two64. change (2 ^ 64) with (256 ^ 8). lia.
Qed.

Lemma read_payload_exact (p rest : list Z) :
  read_payload (length p) (length p) (p ++ rest) = Some (p, rest).
Proof.
  destruct p as [| x p]; [reflexivity |].
  cbn [length read_payload]. unfold Sock.read.
  change (S (length p)) with (length (x :: p)).
  rewrite take_app_length, drop_app_length.
  cbn [length]. rewrite Nat.sub_diag.
  destruct p; cbn; rewrite ?app_nil_r; reflexivity.
Qed.

(** What the header reads of [ws_read_frame] find for a well-formed
    length encoding. *)
Lemma read_ext_len_field (len7 n : Z) (ext tail : list Z) :
  length_field len7 ext n ->
  read_ext_len len7 (ext ++ tail) = (Some n, tail) /\ 0 <= n < two64.
Proof.
  intros H. destruct H as [n Hn | e0 e1 H0 H1 | ext Hlen Hbytes].
  - unfold read_ext_len.
    destruct (n =? 126) eqn:E1; [lia |].
    destruct (n =? 127) eqn:E2; [lia |].
    split; [reflexivity | unfold two64; lia].
  - unfold read_ext_len. cbn [Z.eqb Pos.eqb]. unfold Sock.read. cbn.
    unfold is_byte in *.
    assert (Hs : Z.shiftl e0 8 = e0 * 256) by (rewrite Z.shiftl_mul_pow2 by lia; reflexivity).
    unfold u64. rewrite Z.mod_small by (rewrite Hs; unfold two64; lia).
    rewrite lor_shift_byte by lia.
    unfold be_number. cbn. split; [reflexivity | unfold two64; lia].
  - unfold read_ext_len. cbn [Z.eqb Pos.eqb]. unfold Sock.read.
    replace 8%nat with (length ext) by exact Hlen.
    rewrite take_app_length, drop_app_length, Nat.eqb_refl.
    destruct (be_value_number ext Hbytes) as [Heq Hr]; [lia |].
    rewrite Heq. split; [reflexivity | exact Hr].
Qed.

Lemma xor_mask_from_involutive (k data : list Z) (i : nat) :
  xor_mask_from i k (xor_mask_from i k data) = data.
Proof.
  revert i. induction data as [| d data IH]; intros i; cbn; [reflexivity |].
  rewrite IH. f_equal.
  rewrite Z.lxor_assoc, Z.lxor_nilpotent, Z.lxor_0_r. reflexivity.
Qed.

Lemma xor_mask_from_length (k data : list Z) (i : nat) :
  length (xor_mask_from i k data) = length data.
Proof. revert i. induction data; intros; cbn; [|rewrite IHdata]; reflexivity. Qed.


Lemma ws_read_frame_header (b0 b1 : Z) (tail : list Z) :
  ws_read_frame (b0 :: b1 :: tail) =
  if Z.land b0 0x0F =? 0x08 then frame_fail tail else
  match read_ext_len (Z.land b1 0x7F) tail with
  | (None, p2) => frame_fail p2
  | (Some len, p2) =>
      let '(mask_key, p3) :=
        if negb (Z.land b1 0x80 =? 0) then Sock.read 4 p2 else ([0; 0; 0; 0], p2) in
      if negb (Z.land b1 0x80 =? 0) && negb (length mask_key =? 4)%nat
      then frame_fail p3 else
      if u64 (len + 1) =? 0 then frame_fail p3 else
      match read_payload (Z.to_nat len) (Z.to_nat len) p3 with
      | None => frame_fail []
      | Some (data, p4) =>
          {| fr_rc := Z.land b0 0x0F;
             fr_payload := Some (if negb (Z.land b1 0x80 =? 0)
                                 then unmask data mask_key else data);
             fr_pending := p4 |}
      end
  end.
Proof. reflexivity. Qed.

Lemma u64_succ_nonzero (n : Z) : 0 <= n < two64 - 1 -> (u64 (n + 1) =? 0) = false.
Proof.
  intros H. unfold u64. rewrite Z.mod_small by lia. apply Z.eqb_neq. lia.
Qed.

Lemma read_payload_spec (fuel want : nat) (pending : list Z) :
  (want <= fuel)%nat ->
  read_payload fuel want pending
  = if (want <=? length pending)%nat
    then Some (take want pending, drop want pending) else None.
Proof.
  revert want pending. induction fuel as [| fuel IH]; intros want pending Hfuel.
  - assert (want = O) by lia. subst want. cbn. rewrite drop_0. reflexivity.
  - destruct want as [| want]; [cbn; rewrite drop_0; reflexivity |].
    cbn [read_payload]. unfold Sock.read.
    destruct pending as [| x pending]; [reflexivity |].
    cbn [take drop].
    set (chunk := x :: take want pending).
    assert (Hchunk : length chunk = S (want `min` length pending))
      by (unfold chunk; cbn [length]; rewrite length_take; reflexivity).
    rewrite IH by lia. rewrite Hchunk, length_drop. cbn [length].
    destruct (Nat.leb_spec (S want) (S (length pending))) as [Hle | Hgt].
    + replace (S want - S (want `min` length pending))%nat with O by lia.
      cbn [Nat.leb take]. rewrite drop_0. unfold chunk. rewrite app_nil_r. reflexivity.
    + match goal with
      | |- context [if ?c then _ else _] => destruct c eqn:E
      end; [apply Nat.leb_le in E; lia | reflexivity].
Qed.

Lemma xor_mask_from_nth (k data : list Z) (j i : nat) :
  (i < length data)%nat ->
  nth i (xor_mask_from j k data) 0
  = Z.lxor (nth i data 0) (nth ((j + i) mod 4)%nat k 0).
Proof.
  revert j i. induction data as [| d data IH]; intros j i Hi; cbn in Hi; [lia |].
  destruct i as [| i]; cbn [xor_mask_from nth].
  - rewrite Nat.add_0_r. reflexivity.
  - rewrite IH by lia. replace (S j + i)%nat with (j + S i)%nat by lia. reflexivity.
Qed.

(** The loop of the code and the transformation of the RFC are the same
    function. *)
Lemma unmask_is_rfc_mask (k data : list Z) (j : nat) :
  xor_mask_from j k data
  = imap (fun i b => Z.lxor b (nth ((j + i) mod 4)%nat k 0)) data.
Proof.
  revert j. induction data as [| d data IH]; intros j; [reflexivity |].
  cbn [xor_mask_from]. rewrite imap_cons, Nat.add_0_r. f_equal.
  rewrite IH. apply imap_ext. intros i x _. cbn [compose].
  replace (S j + i)%nat with (j + S i)%nat by lia. reflexivity.
Qed.

(** C10, as the code has it: a frame whose mask bit is clear is read
    without a mask key and without any XOR.  Once the header and the
    extended length are there, the result is -1 for the close opcode;
    for any other opcode it is the opcode with the announced number of
    payload bytes, verbatim, what follows them being left on the
    socket, when that many bytes have arrived, and -1 when fewer have:
    a close opcode is not the only cause of -1. *)
Theorem ws_read_frame_unmasked (b0 b1 : Z) (ext avail : list Z) (n : Z) :
  Z.land b1 0x80 = 0 ->
  length_field (Z.land b1 0x7F) ext n ->
  n < two64 - 1 ->
  ws_read_frame (b0 :: b1 :: ext ++ avail) =
    (if Z.land b0 0x0F =? 0x08 then frame_fail (ext ++ avail)
     else if (Z.to_nat n <=? length avail)%nat
          then {| fr_rc := Z.land b0 0x0F;
                  fr_payload := Some (take (Z.to_nat n) avail);
                  fr_pending := drop (Z.to_nat n) avail |}
          else frame_fail [])
  /\ (fr_rc (ws_read_frame (b0 :: b1 :: ext ++ avail)) = -1
      <-> Z.land b0 0x0F = 0x08 \/ (length avail < Z.to_nat n)%nat).
Proof.
  intros Hbit Hfield Hlen.
  assert (Heq : ws_read_frame (b0 :: b1 :: ext ++ avail) =
    (if Z.land b0 0x0F =? 0x08 then frame_fail (ext ++ avail)
     else if (Z.to_nat n <=? length avail)%nat
          then {| fr_rc := Z.land b0 0x0F;
                  fr_payload := Some (take (Z.to_nat n) avail);
                  fr_pending := drop (Z.to_nat n) avail |}
          else frame_fail [])).
  { rewrite ws_read_frame_header.
    destruct (Z.land b0 15 =? 8) eqn:Hop; [reflexivity |].
    destruct (read_ext_len_field _ _ ext avail Hfield) as [-> Hn].
    rewrite Hbit. cbn [Z.eqb negb andb].
    rewrite u64_succ_nonzero by lia.
    rewrite read_payload_spec by lia.
    destruct (Z.to_nat n <=? length avail)%nat; reflexivity. }
  split; [exact Heq |].
  rewrite Heq. destruct (Z.land b0 15 =? 8) eqn:Hop.
  - apply Z.eqb_eq in Hop. cbn. tauto.
  - apply Z.eqb_neq in Hop.
    assert (0 <= Z.land b0 15) by (apply Z.land_nonneg; lia).
    destruct (Nat.leb_spec (Z.to_nat n) (length avail)) as [Hle | Hgt]; cbn.
    + split; [lia | intros [? | ?]; [contradiction | lia]].
    + split; [auto | reflexivity].
Qed.

Lemma ws_read_frame_unmasked_witness :
  ws_read_frame (0x82 :: 3 :: [] ++ [104; 0; 105; 7; 8]) =
    (if Z.land 0x82 0x0F =? 0x08 then frame_fail ([] ++ [104; 0; 105; 7; 8])
     else if (Z.to_nat 3 <=? length [104; 0; 105; 7; 8])%nat
          then {| fr_rc := Z.land 0x82 0x0F;
                  fr_payload := Some (take (Z.to_nat 3) [104; 0; 105; 7; 8]);
                  fr_pending := drop (Z.to_nat 3) [104; 0; 105; 7; 8] |}
          else frame_fail [])
  /\ (fr_rc (ws_read_frame (0x82 :: 3 :: [] ++ [104; 0; 105; 7; 8])) = -1
      <-> Z.land 0x82 0x0F = 0x08 \/ (length [104; 0; 105; 7; 8] < Z.to_nat 3)%nat).
Proof.
  apply (ws_read_frame_unmasked 0x82 3 [] [104; 0; 105; 7; 8] 3).
  - reflexivity.
  - apply (length_7 3). lia.
  - vm_compute. reflexivity.
Defined.

(** C10 as stated fails: a text frame that announces five payload bytes
    of which two arrive before the socket runs dry has opcode 1, not
    the close opcode, and [ws_read_frame] returns -1 for it. *)
Lemma ws_read_frame_short_frame_fails :
  Z.land 129 0x0F = 1
  /\ Z.land 5 0x80 = 0
  /\ ws_read_frame [129; 5; 104; 105] = frame_fail [].
Proof. repeat split; reflexivity. Qed.

(** C8: the unmasking loop of [ws_read_frame] replaces byte [i] by its
    XOR with key byte [i mod 4]; applied to a payload masked as the RFC
    prescribes, with the same key, it gives the payload back.  So a
    masked text frame is read as the original payload, and a frame whose
    data on the wire is [p] is read as [p] XOR the key. *)
Theorem ws_unmask_mask_roundtrip (p k : list Z) (b0 b1 : Z) (ext rest : list Z) :
  length k = 4%nat ->
  Z.land b0 0x0F = 1 ->
  Z.land b1 0x80 <> 0 ->
  length_field (Z.land b1 0x7F) ext (Z.of_nat (length p)) ->
  Z.of_nat (length p) < two64 - 1 ->
  (forall i, (i < length p)%nat ->
     nth i (unmask p k) 0 = Z.lxor (nth i p 0) (nth (i mod 4)%nat k 0))
  /\ length (unmask p k) = length p
  /\ unmask (mask p k) k = p
  /\ ws_read_frame (b0 :: b1 :: ext ++ k ++ mask p k ++ rest)
     = {| fr_rc := 1; fr_payload := Some p; fr_pending := rest |}
  /\ ws_read_frame (b0 :: b1 :: ext ++ k ++ p ++ rest)
     = {| fr_rc := 1; fr_payload := Some (mask p k); fr_pending := rest |}.
Proof.
  intros Hk Hop Hbit Hfield Hlen.
  assert (Hsame : forall d, unmask d k = mask d k).
  { intros d. unfold unmask, mask. apply unmask_is_rfc_mask. }
  assert (Hinv : unmask (mask p k) k = p).
  { rewrite <- Hsame. apply xor_mask_from_involutive. }
  assert (Hread : forall d, length d = length p ->
            ws_read_frame (b0 :: b1 :: ext ++ k ++ d ++ rest)
            = {| fr_rc := 1; fr_payload := Some (unmask d k); fr_pending := rest |}).
  { intros d Hd.
    rewrite ws_read_frame_header, Hop. cbn [Z.eqb Pos.eqb].
    destruct (read_ext_len_field _ _ ext (k ++ d ++ rest) Hfield) as [-> _].
    apply Z.eqb_neq in Hbit. rewrite Hbit. cbn [negb andb].
    unfold Sock.read. replace 4%nat with (length k) by exact Hk.
    rewrite take_app_length, drop_app_length, Nat.eqb_refl. cbn [negb].
    rewrite u64_succ_nonzero by lia.
    rewrite Nat2Z.id, <- Hd, read_payload_exact. reflexivity. }
  split; [intros i Hi; apply (xor_mask_from_nth k p 0 i Hi) |].
  split; [apply xor_mask_from_length |].
  split; [exact Hinv |].
  split.
  - rewrite Hread, Hinv; [reflexivity |].
    rewrite <- Hsame. apply xor_mask_from_length.
  - rewrite Hread, Hsame; reflexivity.
Qed.

Lemma ws_unmask_mask_roundtrip_witness :
  (forall i, (i < length [104; 105])%nat ->
     nth i (unmask [104; 105] [1; 2; 3; 4]) 0
     = Z.lxor (nth i [104; 105] 0) (nth (i mod 4)%nat [1; 2; 3; 4] 0))
  /\ length (unmask [104; 105] [1; 2; 3; 4]) = length [104; 105]
  /\ unmask [105; 107] [1; 2; 3; 4] = [104; 105]
  /\ ws_read_frame (0x81 :: 0x82 :: [] ++ [1; 2; 3; 4] ++ [105; 107] ++ [9])
     = {| fr_rc := 1; fr_payload := Some [104; 105]; fr_pending := [9] |}
  /\ ws_read_frame (0x81 :: 0x82 :: [] ++ [1; 2; 3; 4] ++ [104; 105] ++ [9])
     = {| fr_rc := 1; fr_payload := Some [105; 107]; fr_pending := [9] |}.
Proof.
  apply (ws_unmask_mask_roundtrip [104; 105] [1; 2; 3; 4] 0x81 0x82 [] [9]).
  - reflexivity.
  - reflexivity.
  - vm_compute. discriminate.
  - apply (length_7 2). lia.
  - vm_compute. reflexivity.
Defined.

End WsFacts.

(** ** Session store *)

Module SessionStoreFacts.
Import Mach Cstr SessionStore.

(** The UPDATE of [session_store_add_message] has a NULL parameter: it
    changes no row of [sessions], whatever the arguments. *)
Lemma update_with_null_is_identity (store : session_store_t) (t : Z) :
  update_session_timestamp store SqlNull t = store.
Proof.
  destruct store as [ss ms seq]. unfold update_session_timestamp. cbn.
  f_equal. induction ss as [| r ss IH]; cbn; [reflexivity |].
  rewrite IH. reflexivity.
Qed.

Lemma add_message_sessions_unchanged (store : session_store_t)
  (sid role content : option (list ascii)) (now now' : Z) :
  sessions (snd (session_store_add_message store sid role content now now'))
  = sessions store.
Proof.
  unfold session_store_add_message. cbn [snd].
  rewrite update_with_null_is_identity.
  unfold insert_message.
  destruct (bind_text sid), (bind_text role), (bind_text content); reflexivity.
Qed.

(** C1, at a concrete store: a session created at time 100 receives a
    message at time 200; the call succeeds and the row is inserted, but
    [updated_at] of the session is still 100. *)
Theorem add_message_does_not_touch_updated_at :
  let s1 := {| s_id := str "s1"; s_channel_id := str "webchat";
               s_created_at := 100; s_updated_at := 100 |} in
  let store := {| sessions := [s1]; messages := []; messages_seq := 0 |} in
  session_store_add_message store
    (Some (str "s1")) (Some (str "user")) (Some (str "hi")) 200 200
  = (OC_OK,
     {| sessions := [s1];
        messages := [{| m_id := 1; m_session_id := str "s1"; m_role := str "user";
                        m_content := str "hi"; m_created_at := 200 |}];
        messages_seq := 1 |}).
Proof. vm_compute. reflexivity. Qed.

(** *** History *)

Lemma insert_desc_perm (r : message_row) (rows : list message_row) :
  insert_desc r rows ≡ₚ r :: rows.
Proof.
  induction rows as [| r' rows IH]; cbn; [reflexivity |].
  destruct (m_created_at r' <=? m_created_at r); [reflexivity |].
  rewrite IH. apply Permutation_swap.
Qed.

Lemma order_desc_perm (rows : list message_row) : order_desc rows ≡ₚ rows.
Proof.
  induction rows as [| r rows IH]; cbn; [reflexivity |].
  rewrite insert_desc_perm, IH. reflexivity.
Qed.

Lemma sorted_desc_cons (r : message_row) (rows : list message_row) :
  sorted_desc (r :: rows) = true <->
  Forall (fun r' => m_created_at r' <= m_created_at r) rows /\ sorted_desc rows = true.
Proof.
  cbn. rewrite andb_true_iff, forallb_forall, Forall_forall.
  split; intros [H1 H2]; (split; [| exact H2]); intros x Hx.
  - apply Z.leb_le, H1. apply list_elem_of_In, Hx.
  - apply Z.leb_le, H1. apply list_elem_of_In, Hx.
Qed.

Lemma insert_desc_sorted (r : message_row) (rows : list message_row) :
  sorted_desc rows = true -> sorted_desc (insert_desc r rows) = true.
Proof.
  induction rows as [| r' rows IH]; intros Hs; [reflexivity |].
  cbn [insert_desc].
  apply sorted_desc_cons in Hs as [Hall Hs].
  destruct (m_created_at r' <=? m_created_at r) eqn:E.
  - apply Z.leb_le in E. apply sorted_desc_cons. split.
    + constructor; [exact E |].
      eapply Forall_impl; [exact Hall |]. cbn. intros; lia.
    + apply sorted_desc_cons. split; assumption.
  - apply Z.leb_gt in E. apply sorted_desc_cons. split; [| apply IH, Hs].
    rewrite insert_desc_perm. constructor; [lia | exact Hall].
Qed.

Lemma order_desc_sorted (rows : list message_row) : sorted_desc (order_desc rows) = true.
Proof.
  induction rows as [| r rows IH]; [reflexivity |].
  cbn. apply insert_desc_sorted, IH.
Qed.


Lemma effective_limit_pos (limit : Z) : 0 < effective_limit limit.
Proof. unfold effective_limit. destruct (0 <? limit) eqn:E; [apply Z.ltb_lt in E |]; lia. Qed.

Lemma list_eqb_eq (a b : list ascii) : list_eqb a b = true <-> a = b.
Proof.
  revert b. induction a as [| x a IH]; intros [| y b]; cbn; try (split; congruence).
  rewrite andb_true_iff, Ascii.eqb_eq, IH. split; [intros [-> ->] | intros [= -> ->]]; auto.
Qed.

Lemma select_where_spec (store : session_store_t) (sid : list ascii) (r : message_row) :
  In r (select_where store (SqlText sid)) <-> In r (messages store) /\ m_session_id r = sid.
Proof.
  unfold select_where. rewrite filter_In. cbn.
  destruct (list_eqb (m_session_id r) sid) eqn:E.
  - apply list_eqb_eq in E. tauto.
  - assert (m_session_id r <> sid) by (intros Heq; apply list_eqb_eq in Heq; congruence).
    split; [intros [_ ?]; discriminate | tauto].
Qed.

Lemma select_where_text (store : session_store_t) (sid : list ascii) :
  select_where store (SqlText sid)
  = List.filter (fun m => list_eqb (m_session_id m) sid) (messages store).
Proof.
  unfold select_where. induction (messages store) as [| m ms IH]; [reflexivity |].
  cbn [List.filter]. rewrite IH. cbn.
  destruct (list_eqb (m_session_id m) sid); reflexivity.
Qed.



End SessionStoreFacts.

(** ** Tool registry *)

Module ToolFacts.
Import Tool.

(** C9: executing a name that is not registered calls no executor and
    leaves the error result that names the tool. *)
Theorem kelp_tool_execute_unknown (exec_fn : Type)
  (call_exec : exec_fn -> kelp_tool_ctx_t exec_fn -> string ->
               kelp_tool_result_t -> Z * kelp_tool_result_t)
  (ctx : kelp_tool_ctx_t exec_fn) (nm : string) (args_json : option string) :
  tools exec_fn ctx !! nm = None ->
  kelp_tool_execute exec_fn call_exec (Some ctx) (Some nm) args_json true
  = {| ex_rc := -1;
       ex_result :=
         Some {| output := Some ("error: unknown tool '" ++ nm ++ "'")%string;
                 is_error := true; exit_code := -1 |};
       ex_called := [] |}.
Proof.
  intros Hnone. unfold kelp_tool_execute. rewrite Hnone. reflexivity.
Qed.

Lemma kelp_tool_execute_unknown_witness :
  let noop := {| name := "desktop_click"; description := "Click";
                 params_json := "{}"; exec := 0%nat;
                 requires_sandbox := false; requires_confirmation := false |} in
  let ctx := {| workspace_dir := None; tools := {[ "desktop_click"%string := noop ]};
                tool_count := 1 |} in
  kelp_tool_execute nat (fun _ _ _ r => (0, r)) (Some ctx) (Some "nope"%string) None true
  = {| ex_rc := -1;
       ex_result :=
         Some {| output := Some "error: unknown tool 'nope'"%string;
                 is_error := true; exit_code := -1 |};
       ex_called := [] |}.
Proof.
  intros noop ctx.
  apply (kelp_tool_execute_unknown nat (fun _ _ _ r => (0, r)) ctx "nope" None).
  vm_compute. reflexivity.
Defined.

End ToolFacts.

(** ** HTTP parser and connection buffer *)

Module ParserFacts.
Import Mach Cstr Http.

Lemma find_sub_char_app (c : ascii) (a b : list ascii) :
  Forall (fun x => x <> c) a -> find_sub [c] (a ++ c :: b) = Some (length a).
Proof.
  induction 1 as [| x a Hx Ha IH]; cbn.
  - rewrite Ascii.eqb_refl. reflexivity.
  - destruct (Ascii.eqb_spec c x) as [-> | Hne]; [contradiction |].
    cbn. rewrite IH. reflexivity.
Qed.

Lemma strchr_at_app (c : ascii) (pre a b : list ascii) :
  Forall (fun x => x <> c) a ->
  strchr_at (pre ++ a ++ c :: b) (length pre) c = Some (length pre + length a)%nat.
Proof.
  intros Ha. unfold strchr_at, strstr_at.
  rewrite drop_app_length, find_sub_char_app by exact Ha. reflexivity.
Qed.

Lemma take_body_rc (conn : connection_t) (n : nat) :
  fst (take_body conn n) = 0 \/ fst (take_body conn n) = 1.
Proof.
  unfold take_body.
  destruct (content_length (request conn) <=? u64 (read_len conn - Z.of_nat n));
    cbn; auto.
Qed.

(** For a request line [m u version] whose header block has arrived,
    the parser reports an error exactly when the URL reaches
    [GW_MAX_URL_LEN]; nothing about the headers makes it fail. *)
Lemma parse_error_iff_url_too_long (conn : connection_t) (m u rest : list ascii) :
  state conn = CONN_READING_HEADERS ->
  cstr_view (read_buf conn) = m ++ " "%char :: u ++ " "%char :: rest ->
  Forall (fun x => x <> " "%char) m ->
  Forall (fun x => x <> " "%char) u ->
  find_sub (CRLF ++ CRLF) (cstr_view (read_buf conn)) <> None ->
  (fst (http_parse_request conn) = -1 <-> (GW_MAX_URL_LEN <= length u)%nat)
  /\ (fst (http_parse_request conn) = -1 \/ fst (http_parse_request conn) = 0
      \/ fst (http_parse_request conn) = 1).
Proof.
  intros Hst Hview Hm Hu Hend.
  unfold http_parse_request. rewrite Hst, Hview.
  rewrite Hview in Hend.
  destruct (find_sub (CRLF ++ CRLF) (m ++ " "%char :: u ++ " "%char :: rest))
    as [header_end |] eqn:Hfind; [| contradiction].
  assert (Hse : strstr_at (m ++ " "%char :: u ++ " "%char :: rest) 0 (CRLF ++ CRLF)
                = Some header_end).
  { unfold strstr_at. rewrite drop_0, Hfind. reflexivity. }
  rewrite Hse.
  pose proof (strchr_at_app " "%char [] m (u ++ " "%char :: rest) Hm) as H1.
  cbn [app length Nat.add] in H1. rewrite H1.
  pose proof (strchr_at_app " "%char (m ++ [" "%char]) u rest Hu) as H2.
  rewrite <- !app_assoc in H2. cbn [app] in H2.
  rewrite length_app in H2. cbn [length] in H2.
  replace (length m + 1)%nat with (S (length m)) in H2 by lia.
  rewrite H2.
  replace (S (length m) + length u - S (length m))%nat with (length u) by lia.
  destruct (GW_MAX_URL_LEN <=? length u)%nat eqn:Hurl.
  - apply Nat.leb_le in Hurl. cbn [fst].
    split; [split; [intros _; exact Hurl | reflexivity] | left; reflexivity].
  - apply Nat.leb_gt in Hurl.
    match goal with
    | |- context [if ?c then take_body ?x ?n else (0, ?y)] =>
        destruct c; [pose proof (take_body_rc x n) as Hrc | cbn [fst]]
    end.
    + split; [split; [lia | lia] | lia].
    + split; [split; [lia | lia] | lia].
Qed.

Lemma read_buffer_ok_inv (conn : connection_t) :
  read_buffer_ok conn = true ->
  (exists k, 0 <= k <= 7 /\ read_cap conn = 8192 * 2 ^ k)
  /\ read_len conn < read_cap conn.
Proof.
  unfold read_buffer_ok. rewrite andb_true_iff, Z.ltb_lt. intros [Hcap Hlen].
  split; [| exact Hlen].
  cbn in Hcap. rewrite !orb_true_iff, !Z.eqb_eq in Hcap.
  destruct Hcap as [H|[H|[H|[H|[H|[H|[H|[H|H]]]]]]]]; [..| discriminate];
    [exists 0|exists 1|exists 2|exists 3|exists 4|exists 5|exists 6|exists 7];
    (split; [lia | rewrite H; reflexivity]).
Qed.

Lemma read_buffer_ok_intro (conn : connection_t) (k : Z) :
  0 <= k <= 7 -> read_cap conn = 8192 * 2 ^ k -> read_len conn < read_cap conn ->
  read_buffer_ok conn = true.
Proof.
  intros Hk Hcap Hlen. unfold read_buffer_ok.
  rewrite andb_true_iff, Z.ltb_lt. split; [| exact Hlen].
  rewrite Hcap.
  assert (k = 0 \/ k = 1 \/ k = 2 \/ k = 3 \/ k = 4 \/ k = 5 \/ k = 6 \/ k = 7) by lia.
  repeat match goal with H : _ \/ _ |- _ => destruct H end; subst k; reflexivity.
Qed.

(** Once the bytes buffered and pending reach [GW_MAX_BODY_LEN - 1], the
    doubling of the read buffer hits its bound and [connection_read]
    fails. *)
Lemma connection_read_loop_overflow (fuel : nat) (conn : connection_t) (sock : socket) :
  (length (pending sock) < fuel)%nat ->
  read_buffer_ok conn = true ->
  GW_MAX_BODY_LEN - 1 <= read_len conn + Z.of_nat (length (pending sock)) ->
  fst (fst (connection_read_loop fuel conn sock)) = -1.
Proof.
  revert conn sock. induction fuel as [| fuel IH]; intros conn sock Hfuel Hok Hbig;
    [lia |].
  destruct (read_buffer_ok_inv conn Hok) as [(k & Hk & Hcap) Hlen].
  assert (Hpow : 1 <= 2 ^ k <= 128).
  { split; [apply (Z.pow_le_mono_r 2 0 k); lia |].
    change 128 with (2 ^ 7). apply Z.pow_le_mono_r; lia. }
  unfold GW_MAX_BODY_LEN in Hbig.
  cbn [connection_read_loop].
  set (len := read_len conn) in *.
  destruct (read_cap conn <=? len + 1) eqn:Hgrow.
  - apply Z.leb_le in Hgrow.
    destruct (GW_MAX_BODY_LEN + GW_READ_BUF_SIZE <? read_cap conn * 2) eqn:Hmax;
      [reflexivity |].
    apply Z.ltb_ge in Hmax. unfold GW_MAX_BODY_LEN, GW_READ_BUF_SIZE in Hmax.
    assert (Hk6 : k <= 6).
    { destruct (Z.eq_dec k 7) as [-> | ?]; [| lia].
      rewrite Hcap in Hmax. vm_compute in Hmax. contradiction Hmax. reflexivity. }
    assert (Hroom : (read_cap conn * 2 - len - 1 <=? 0) = false) by (apply Z.leb_gt; lia).
    rewrite Hroom. unfold Sock.read.
    destruct (take (Z.to_nat (read_cap conn * 2 - len - 1)) (pending sock))
      as [| c chunk] eqn:Hchunk.
    + exfalso.
      assert (Hl := f_equal length Hchunk). rewrite length_take in Hl. cbn in Hl.
      assert (2 ^ k <= 64).
      { change 64 with (2 ^ 6). apply Z.pow_le_mono_r; lia. }
      lia.
    + rewrite <- Hchunk.
      assert (Hl : (0 < length (take (Z.to_nat (read_cap conn * 2 - len - 1))
                                   (pending sock)))%nat)
        by (rewrite Hchunk; cbn; lia).
      pose proof (length_take (pending sock) (Z.to_nat (read_cap conn * 2 - len - 1)))
        as Htl.
      apply IH.
      * cbn [pending]. rewrite length_drop. lia.
      * apply (read_buffer_ok_intro _ (k + 1)); [lia | |].
        -- cbn [read_cap with_buffer]. rewrite Hcap, Z.pow_add_r by lia.
           change (2 ^ 1) with 2. lia.
        -- cbn [read_len read_cap with_buffer]. lia.
      * cbn [read_len pending with_buffer]. rewrite length_drop.
        unfold GW_MAX_BODY_LEN. lia.
  - apply Z.leb_gt in Hgrow.
    assert (Hroom : (read_cap conn - len - 1 <=? 0) = false) by (apply Z.leb_gt; lia).
    rewrite Hroom. unfold Sock.read.
    destruct (take (Z.to_nat (read_cap conn - len - 1)) (pending sock))
      as [| c chunk] eqn:Hchunk.
    + exfalso.
      assert (Hl := f_equal length Hchunk). rewrite length_take in Hl. cbn in Hl.
      lia.
    + rewrite <- Hchunk.
      assert (Hl : (0 < length (take (Z.to_nat (read_cap conn - len - 1))
                                   (pending sock)))%nat)
        by (rewrite Hchunk; cbn; lia).
      pose proof (length_take (pending sock) (Z.to_nat (read_cap conn - len - 1)))
        as Htl.
      apply IH.
      * cbn [pending]. rewrite length_drop. lia.
      * apply (read_buffer_ok_intro _ k); [lia | exact Hcap |].
        cbn [read_len read_cap with_buffer]. lia.
      * cbn [read_len pending with_buffer]. rewrite length_drop.
        unfold GW_MAX_BODY_LEN. lia.
Qed.

Lemma handle_client_data_read_error (gw : gateway_ctx_t) (fd0 : Z) (conn : connection_t)
  (sock : socket) (clock : Z) :
  fd0 < max_fd gw ->
  connections gw !! fd0 = Some conn ->
  fst (fst (connection_read conn sock)) = -1 ->
  connections (fst (fst (handle_client_data gw fd0 sock clock))) !! fd0 = None
  /\ snd (handle_client_data gw fd0 sock clock) = [].
Proof.
  intros Hfd Hconn Hrc. unfold handle_client_data.
  destruct (max_fd gw <=? fd0) eqn:E; [apply Z.leb_le in E; lia |].
  rewrite Hconn.
  destruct (connection_read conn sock) as [[rc conn'] sock'].
  cbn [fst] in Hrc. subst rc. cbn [Z.ltb Z.compare fst snd].
  split; [| reflexivity].
  unfold close_connection.
  assert (Hcond : (fd0 <? max_fd gw) && bool_decide (is_Some (connections gw !! fd0))
                  = true).
  { rewrite andb_true_iff. split; [apply Z.ltb_lt, Hfd |].
    apply bool_decide_eq_true. rewrite Hconn. eauto. }
  rewrite Hcond. cbn [connections with_table]. apply lookup_delete_eq.
Qed.

(** C5, as the code has it.  A request line whose URL reaches
    [GW_MAX_URL_LEN] is the one parser error among the declared bounds:
    with the header block complete, [http_parse_request] returns -1
    exactly then, and 0 or 1 otherwise, whatever the headers are.  A
    request that grows the read buffer to [GW_MAX_BODY_LEN - 1] bytes,
    so every body above the maximum, makes [connection_read] return -1,
    and the gateway closes that connection without a response. *)
Theorem request_bounds (conn : connection_t) (m u rest : list ascii)
  (gw : gateway_ctx_t) (fd0 : Z) (conn2 : connection_t) (sock : socket) (clock : Z) :
  state conn = CONN_READING_HEADERS ->
  cstr_view (read_buf conn) = m ++ " "%char :: u ++ " "%char :: rest ->
  Forall (fun x => x <> " "%char) m ->
  Forall (fun x => x <> " "%char) u ->
  find_sub (CRLF ++ CRLF) (cstr_view (read_buf conn)) <> None ->
  fd0 < max_fd gw ->
  connections gw !! fd0 = Some conn2 ->
  read_buffer_ok conn2 = true ->
  GW_MAX_BODY_LEN - 1 <= read_len conn2 + Z.of_nat (length (pending sock)) ->
  (fst (http_parse_request conn) = -1 <-> (GW_MAX_URL_LEN <= length u)%nat)
  /\ (fst (http_parse_request conn) = -1 \/ fst (http_parse_request conn) = 0
      \/ fst (http_parse_request conn) = 1)
  /\ fst (fst (connection_read conn2 sock)) = -1
  /\ connections (fst (fst (handle_client_data gw fd0 sock clock))) !! fd0 = None
  /\ snd (handle_client_data gw fd0 sock clock) = [].
Proof.
  intros Hst Hview Hm Hu Hend Hfd Hconn Hok Hbig.
  destruct (parse_error_iff_url_too_long conn m u rest Hst Hview Hm Hu Hend) as [H1 H2].
  assert (Hrc : fst (fst (connection_read conn2 sock)) = -1).
  { unfold connection_read. apply connection_read_loop_overflow; [lia | exact Hok | exact Hbig]. }
  destruct (handle_client_data_read_error gw fd0 conn2 sock clock Hfd Hconn Hrc) as [H3 H4].
  repeat split; try tauto; assumption.
Qed.

Lemma request_bounds_witness :
  let conn := Sample.conn_with (str "GET / HTTP/1.1" ++ CRLF ++ CRLF) in
  let gw := accept_connections (gateway_create Sample.cfg 0) [5] in
  let sock := {| pending := repeat "a"%char (Z.to_nat 1048575); on_empty := WouldBlock |} in
  (fst (http_parse_request conn) = -1 <-> (GW_MAX_URL_LEN <= length (str "/"))%nat)
  /\ (fst (http_parse_request conn) = -1 \/ fst (http_parse_request conn) = 0
      \/ fst (http_parse_request conn) = 1)
  /\ fst (fst (connection_read (connection_create 5) sock)) = -1
  /\ connections (fst (fst (handle_client_data gw 5 sock 0))) !! 5 = None
  /\ snd (handle_client_data gw 5 sock 0) = [].
Proof.
  intros conn gw sock.
  apply (request_bounds conn (str "GET") (str "/") (str "HTTP/1.1" ++ CRLF ++ CRLF)
           gw 5 (connection_create 5) sock 0).
  - reflexivity.
  - reflexivity.
  - repeat constructor; discriminate.
  - repeat constructor; discriminate.
  - vm_compute. discriminate.
  - reflexivity.
  - vm_compute. reflexivity.
  - reflexivity.
  - vm_compute. discriminate.
Defined.

(** C5 as stated fails: a header key of 256 bytes, a header value of 512
    bytes and a 65th header are each accepted.  The parser returns 0;
    the oversize key or value is left out of its slot and the header
    past [GW_MAX_HEADERS] is not parsed. *)
Lemma oversize_headers_are_not_errors :
  let parse := fun bytes => http_parse_request (Sample.conn_with bytes) in
  let request_line := str "GET / HTTP/1.1" ++ CRLF in
  let long_key :=
    request_line ++ repeat "k"%char 256 ++ str ": v" ++ CRLF ++ CRLF in
  let long_value :=
    request_line ++ str "K: " ++ repeat "v"%char 512 ++ CRLF ++ CRLF in
  let many :=
    request_line ++ concat (repeat (str "A: b" ++ CRLF) 65) ++ CRLF in
  (fst (parse long_key) = 0
   /\ take 1 (headers (request (snd (parse long_key)))) = [{| key := []; value := str "v" |}])
  /\ (fst (parse long_value) = 0
      /\ take 1 (headers (request (snd (parse long_value))))
         = [{| key := str "K"; value := [] |}])
  /\ (fst (parse many) = 0
      /\ header_count (request (snd (parse many))) = 64%nat).
Proof. vm_compute. repeat split; reflexivity. Qed.

End ParserFacts.

(** ** Router, event loop and health probe *)

Module GatewayFacts.
Import Mach Cstr Http Json Health.

Lemma router_dispatch_no_match (gw : gateway_ctx_t) (clock : Z) (conn : connection_t) :
  method_eqb (method (request conn)) HTTP_OPTIONS = false ->
  find_route (routes gw) (method (request conn)) (path (request conn)) = None ->
  router_dispatch gw clock conn
  = (OC_OK,
     http_response_send
       (http_response_set_json
          (http_response_set_status http_response_init 404 (str "Not Found"))
          not_found_json)).
Proof.
  intros Hm Hr. unfold router_dispatch. rewrite Hm, Hr. reflexivity.
Qed.

Lemma router_dispatch_match (gw : gateway_ctx_t) (clock : Z) (conn : connection_t)
  (r : route_t) :
  method_eqb (method (request conn)) HTTP_OPTIONS = false ->
  find_route (routes gw) (method (request conn)) (path (request conn)) = Some r ->
  snd (router_dispatch gw clock conn)
  = http_response_send
      (snd (handler r (view_of gw clock) (request conn)
              (http_response_add_header http_response_init
                 (str "Access-Control-Allow-Origin") (str "*")))).
Proof.
  intros Hm Hr. unfold router_dispatch. rewrite Hm, Hr.
  destruct (handler r _ _ _) as [rc resp]. reflexivity.
Qed.

(** C3, at a request no route matches: the 404 response carries
    Content-Type and Content-Length only; the header
    Access-Control-Allow-Origin that the two other paths of
    [router_dispatch] add is not in it. *)
Theorem not_found_response_lacks_cors_header
  (print : cJSON -> list ascii) (handler_webhook handler_chat : route_handler_t)
  (c : config_t) (t0 clock : Z) :
  let gw := register_routes print (gateway_create c t0) handler_webhook handler_chat in
  let conn := snd (http_parse_request
                     (Sample.conn_with (str "GET /nope HTTP/1.1" ++ CRLF ++ CRLF))) in
  method (request conn) = HTTP_GET
  /\ router_dispatch gw clock conn
     = (OC_OK,
        str "HTTP/1.1 404 Not Found" ++ CRLF
        ++ str "Content-Type: application/json" ++ CRLF
        ++ str "Content-Length: 21" ++ CRLF
        ++ CRLF
        ++ not_found_json)
  /\ find_sub (str "Access-Control-Allow-Origin") (snd (router_dispatch gw clock conn))
     = None.
Proof.
  intros gw conn.
  assert (Hd : router_dispatch gw clock conn
     = (OC_OK,
        str "HTTP/1.1 404 Not Found" ++ CRLF
        ++ str "Content-Type: application/json" ++ CRLF
        ++ str "Content-Length: 21" ++ CRLF
        ++ CRLF
        ++ not_found_json)).
  { rewrite router_dispatch_no_match by (vm_compute; reflexivity).
    vm_compute. reflexivity. }
  split; [vm_compute; reflexivity |]. split; [exact Hd |].
  rewrite Hd. vm_compute. reflexivity.
Qed.

(** *** Counting requests *)

Lemma double_of_u64_small (x : Z) : x < 2 ^ 53 -> double_of_u64 x = x.
Proof.
  intros H. unfold double_of_u64.
  destruct (x <? 2 ^ 53) eqn:E; [reflexivity | apply Z.ltb_ge in E; lia].
Qed.

Lemma double_of_u64_nonneg (x : Z) : 0 <= x -> 0 <= double_of_u64 x.
Proof.
  intros H. unfold double_of_u64.
  destruct (x <? 2 ^ 53); [exact H |].
  apply Z.shiftl_nonneg.
  assert (0 <= Z.shiftr x (Z.log2 x - 52)) by (apply Z.shiftr_nonneg; exact H).
  destruct (_ || _); lia.
Qed.

Lemma u64_range (x : Z) : 0 <= u64 x < two64.
Proof. unfold u64, two64. apply Z.mod_pos_bound. reflexivity. Qed.

Lemma close_connection_keeps (gw : gateway_ctx_t) (fd0 : Z) :
  routes (close_connection gw fd0) = routes gw
  /\ total_requests (close_connection gw fd0) = total_requests gw.
Proof.
  unfold close_connection. destruct (_ && _); split; reflexivity.
Qed.

Lemma accept_connections_keeps (fds : list Z) (gw : gateway_ctx_t) :
  routes (accept_connections gw fds) = routes gw
  /\ total_requests (accept_connections gw fds) = total_requests gw.
Proof.
  unfold accept_connections. revert gw.
  induction fds as [| f fds IH]; intros gw; cbn; [split; reflexivity |].
  destruct (IH (accept_one gw f)) as [-> ->]. split; reflexivity.
Qed.

(** A step of [handle_client_data] either serves nothing and leaves the
    counter, or serves one request, dispatched with the counter already
    incremented. *)
Lemma handle_client_data_served (gw : gateway_ctx_t) (fd0 : Z) (sock : socket) (clock : Z) :
  routes (fst (fst (handle_client_data gw fd0 sock clock))) = routes gw
  /\ ((snd (handle_client_data gw fd0 sock clock) = []
       /\ total_requests (fst (fst (handle_client_data gw fd0 sock clock)))
          = total_requests gw)
      \/ exists conn gwd,
           snd (handle_client_data gw fd0 sock clock)
           = [(request conn, snd (router_dispatch gwd clock conn))]
           /\ routes gwd = routes gw
           /\ total_requests gwd = u64 (total_requests gw + 1)
           /\ total_requests (fst (fst (handle_client_data gw fd0 sock clock)))
              = u64 (total_requests gw + 1)).
Proof.
  unfold handle_client_data.
  destruct (max_fd gw <=? fd0); [cbn; auto |].
  destruct (connections gw !! fd0) as [conn |]; [| cbn; auto].
  destruct (connection_read conn sock) as [[rc conn1] sock1].
  destruct (rc <? 0).
  { cbn [fst snd]. destruct (close_connection_keeps gw fd0) as [-> ->]. auto. }
  destruct (state conn1); try (cbn; auto; fail).
  all: destruct (http_parse_request conn1) as [rc2 conn2].
  all: destruct (rc2 =? 0); [| cbn; auto].
  all: match goal with
       | |- context [router_dispatch ?g ?c ?k] =>
           set (gwd := g);
           assert (Hsent : forall rcd sent,
                     router_dispatch gwd c k = (rcd, sent) ->
                     sent = snd (router_dispatch gwd c k))
             by (intros ? ? ->; reflexivity);
           destruct (router_dispatch gwd c k) as [rcd sent] eqn:Hd;
           specialize (Hsent rcd sent eq_refl)
       end.
  all: destruct (negb (keep_alive conn2)); cbn [fst snd].
  all: try (destruct (close_connection_keeps gwd fd0) as [-> ->]).
  all: (split; [reflexivity |]); right; exists conn2, gwd; rewrite Hsent, Hd; auto.
Qed.

Lemma router_dispatch_health (print : cJSON -> list ascii)
  (hw hc : route_handler_t) (gw : gateway_ctx_t) (clock : Z) (conn : connection_t) :
  routes gw = main_routes print hw hc ->
  method (request conn) = HTTP_GET ->
  path (request conn) = str "/health" ->
  snd (router_dispatch gw clock conn)
  = health_response print
      (double_of_u64 (u64 (u64 clock - start_time gw)))
      (double_of_u64 (total_requests gw))
      (double_of_u64 (active_connections gw)).
Proof.
  intros Hr Hm Hp. unfold router_dispatch. rewrite Hr, Hm, Hp.
  cbn [method_eqb main_routes find_route].
  replace (route_matches _ HTTP_GET (str "/health")) with true by (vm_compute; reflexivity).
  cbn [handler handler_health].
  unfold health_response, health_object, health_json, number_of_u64, view_of.
  cbn [now v_start_time v_total_requests v_active_connections].
  set (printed := print _).
  unfold http_response_send, http_response_set_json, http_response_set_body,
    http_response_add_header, http_response_init, header_line, resp_body_len.
  cbn [status_code status_text headers_buf resp_body snd].
  rewrite firstn_all. rewrite <- !app_assoc. reflexivity.
Qed.

Lemma handle_event_invariant (print : cJSON -> list ascii) (hw hc : route_handler_t)
  (gw : gateway_ctx_t) (served : list (http_request_t * list ascii)) (ev : event) :
  routes gw = main_routes print hw hc ->
  total_requests gw = u64 (Z.of_nat (length served)) ->
  health_answers print served ->
  routes (fst (handle_event gw ev)) = main_routes print hw hc
  /\ total_requests (fst (handle_event gw ev))
     = u64 (Z.of_nat (length (served ++ snd (handle_event gw ev))))
  /\ health_answers print (served ++ snd (handle_event gw ev)).
Proof.
  intros Hr Ht Hh. destruct ev as [fds | fd0 | fd0 sock clock]; cbn [handle_event].
  - cbn [fst snd]. rewrite app_nil_r.
    destruct (accept_connections_keeps fds gw) as [-> ->]. auto.
  - cbn [fst snd]. rewrite app_nil_r.
    destruct (close_connection_keeps gw fd0) as [-> ->]. auto.
  - pose proof (handle_client_data_served gw fd0 sock clock) as Hs.
    destruct (handle_client_data gw fd0 sock clock) as [[gw' sock'] out].
    cbn [fst snd] in *. destruct Hs as [Hr' [[-> Ht'] | (conn & gwd & -> & Hrd & Htd & Ht')]].
    + rewrite app_nil_r, Hr', Ht'. auto.
    + rewrite Hr'. split; [exact Hr |]. split.
      * rewrite Ht', Ht, length_app. cbn [length].
        unfold u64. rewrite Nat2Z.inj_add, Zplus_mod_idemp_l. reflexivity.
      * intros k req out Hk Hm Hp Hsmall.
        destruct (decide (k < length served)%nat) as [Hlt | Hge].
        { rewrite lookup_app_l in Hk by exact Hlt. eapply Hh; eassumption. }
        rewrite lookup_app_r in Hk by lia.
        destruct (k - length served)%nat as [| n] eqn:Hidx; [| destruct n; discriminate].
        cbn in Hk. injection Hk as <- <-.
        assert (Hklen : k = length served) by lia. subst k.
        rewrite (router_dispatch_health print hw hc gwd clock conn)
          by (assumption || (rewrite Hrd; exact Hr)).
        exists (double_of_u64 (u64 (u64 clock - start_time gwd))),
               (double_of_u64 (active_connections gwd)).
        split; [apply double_of_u64_nonneg, u64_range |].
        rewrite Htd, Ht.
        assert (Hsm : 0 <= Z.of_nat (length served) + 1 < two64).
        { unfold two64. assert (2 ^ 53 < 2 ^ 64) by reflexivity. lia. }
        replace (u64 (u64 (Z.of_nat (length served)) + 1))
          with (Z.of_nat (length served) + 1).
        2:{ unfold u64. rewrite Zplus_mod_idemp_l, Z.mod_small by exact Hsm. reflexivity. }
        rewrite (double_of_u64_small (Z.of_nat (length served) + 1)) by exact Hsmall.
        reflexivity.
Qed.

Lemma run_events_invariant (print : cJSON -> list ascii) (hw hc : route_handler_t)
  (evs : list event) (gw : gateway_ctx_t) (served : list (http_request_t * list ascii)) :
  routes gw = main_routes print hw hc ->
  total_requests gw = u64 (Z.of_nat (length served)) ->
  health_answers print served ->
  health_answers print (snd (run_events gw served evs)).
Proof.
  revert gw served. induction evs as [| ev evs IH]; intros gw served Hr Ht Hh;
    cbn [run_events]; [exact Hh |].
  pose proof (handle_event_invariant print hw hc gw served ev Hr Ht Hh) as (Hr' & Ht' & Hh').
  destruct (handle_event gw ev) as [gw' out]. cbn [fst snd] in *.
  apply IH; assumption.
Qed.

(** C6: in any run of the event loop from the gateway [main] sets up,
    the [k+1]-th request served, when it is GET /health, is answered
    with these bytes: the status line of a 200, the three headers, and
    as body the object cJSON prints with status ok, the version, an
    uptime that is not negative, and [total_requests = k + 1]: the
    requests completed so far, this one included. *)
Theorem health_reports_requests_including_itself
  (print : cJSON -> list ascii) (handler_webhook handler_chat : route_handler_t)
  (c : config_t) (t0 : Z) (evs : list event)
  (k : nat) (req : http_request_t) (out : list ascii) :
  snd (run_events
         (register_routes print (gateway_create c t0) handler_webhook handler_chat)
         [] evs) !! k = Some (req, out) ->
  method req = HTTP_GET ->
  path req = str "/health" ->
  Z.of_nat k + 1 < 2 ^ 53 ->
  exists uptime active,
    0 <= uptime
    /\ let printed :=
         print (cJSON_Object
                  [ (str "status", cJSON_String (str "ok"));
                    (str "version", cJSON_String (str "0.1.0"));
                    (str "uptime_seconds", cJSON_Number (inject_Z uptime));
                    (str "total_requests", cJSON_Number (inject_Z (Z.of_nat k + 1)));
                    (str "active_connections", cJSON_Number (inject_Z active)) ]) in
       out = str "HTTP/1.1 200 OK" ++ CRLF
             ++ str "Access-Control-Allow-Origin: *" ++ CRLF
             ++ str "Content-Type: application/json" ++ CRLF
             ++ str "Content-Length: " ++ dec (Z.of_nat (length printed)) ++ CRLF
             ++ CRLF
             ++ printed.
Proof.
  intros Hk Hm Hp Hsmall.
  destruct (run_events_invariant print handler_webhook handler_chat evs
              (register_routes print (gateway_create c t0) handler_webhook handler_chat)
              [] eq_refl eq_refl ltac:(intros k' req' out' Hk'; discriminate)
              k req out Hk Hm Hp Hsmall)
    as (uptime & active & Hup & ->).
  exists uptime, active. split; [exact Hup | reflexivity].
Qed.

Lemma health_reports_requests_including_itself_witness :
  let sock bytes := {| pending := bytes; on_empty := WouldBlock |} in
  let evs :=
    [ EvListen [5];
      EvReadable 5 (sock (str "GET /nope HTTP/1.1" ++ CRLF ++ CRLF)) 11;
      EvReadable 5 (sock (str "GET /health HTTP/1.1" ++ CRLF ++ str "Host: kelp" ++ CRLF ++ CRLF)) 12 ] in
  exists req out,
    snd (run_events
           (register_routes Sample.print_json (gateway_create Sample.cfg 10)
              Sample.idle_handler Sample.idle_handler) [] evs) !! 1%nat
    = Some (req, out)
    /\ (exists uptime active,
          0 <= uptime
          /\ let printed :=
               Sample.print_json
                 (cJSON_Object
                    [ (str "status", cJSON_String (str "ok"));
                      (str "version", cJSON_String (str "0.1.0"));
                      (str "uptime_seconds", cJSON_Number (inject_Z uptime));
                      (str "total_requests", cJSON_Number (inject_Z (Z.of_nat 1 + 1)));
                      (str "active_connections", cJSON_Number (inject_Z active)) ]) in
             out = str "HTTP/1.1 200 OK" ++ CRLF
                   ++ str "Access-Control-Allow-Origin: *" ++ CRLF
                   ++ str "Content-Type: application/json" ++ CRLF
                   ++ str "Content-Length: " ++ dec (Z.of_nat (length printed)) ++ CRLF
                   ++ CRLF
                   ++ printed)
    /\ out = str "HTTP/1.1 200 OK" ++ CRLF
             ++ str "Access-Control-Allow-Origin: *" ++ CRLF
             ++ str "Content-Type: application/json" ++ CRLF
             ++ str "Content-Length: 94" ++ CRLF
             ++ CRLF
             ++ str "{" ++ quoted (str "status") ++ str ":" ++ quoted (str "ok")
             ++ str "," ++ quoted (str "version") ++ str ":" ++ quoted (str "0.1.0")
             ++ str "," ++ quoted (str "uptime_seconds") ++ str ":2"
             ++ str "," ++ quoted (str "total_requests") ++ str ":2"
             ++ str "," ++ quoted (str "active_connections") ++ str ":1}".
Proof.
  intros sock evs.
  eexists. eexists. split; [vm_compute; reflexivity |].
  split; [| vm_compute; reflexivity].
  refine (health_reports_requests_including_itself Sample.print_json
            Sample.idle_handler Sample.idle_handler Sample.cfg 10 evs 1 _ _ _ _ _ _).
  - vm_compute. reflexivity.
  - reflexivity.
  - reflexivity.
  - reflexivity.
Defined.

End GatewayFacts.

(** ** Chat completions *)

Module ChatFacts.
Import Mach Cstr Http Json Chat Upstream.

(** [total_tokens] is a sum of two [int]s: exact while it fits, wrapped
    beyond. *)
Lemma int_add_exact (a b : Z) : - 2 ^ 31 <= a + b < 2 ^ 31 -> int_add a b = a + b.
Proof. intros H. unfold int_add. rewrite Z.mod_small; lia. Qed.

Lemma int_add_wraps : int_add 2000000000 2000000000 = -294967296.
Proof. reflexivity. Qed.

Lemma list_eqb_true (a b : list ascii) : list_eqb a b = true -> a = b.
Proof.
  revert b. induction a as [| x a IH]; intros [| y b]; cbn; try congruence.
  rewrite andb_true_iff, Ascii.eqb_eq. intros [-> H]. f_equal. apply IH, H.
Qed.

Section WithLibraries.

Variable cJSON_Parse : list ascii -> option cJSON.
Variable cJSON_PrintUnformatted : cJSON -> list ascii.
Variable json_get_str : cJSON -> list ascii -> option (list ascii).
Variable json_get_int : cJSON -> list ascii -> Z -> Z.
Variable json_get_double : cJSON -> list ascii -> Q -> Q.
Variable auth_parse_provider : option (list ascii) -> provider_t.
Variable auth_resolve : config_t -> provider_t -> option (list ascii).
Variable json_build_anthropic_request json_build_openai_request :
  option (list ascii) -> option (list ascii) -> list ascii -> Z -> Q -> cJSON.
Variable http_stream_post :
  list ascii -> list ascii -> cJSON -> provider_t -> Z * list stream_event.

Let keep_last (o : option (list ascii)) (l : list (list ascii)) : option (list ascii) :=
  match last l with
  | Some x => Some x
  | None => o
  end.

(** The loop over the array keeps, for each of the two roles, the
    content of the last message that has it. *)
Lemma pick_fold (messages : list cJSON) (u s : option (list ascii)) :
  fold_left (pick_step json_get_str) messages (u, s)
  = (keep_last u (contents_with_role json_get_str (str "user") messages),
     keep_last s (contents_with_role json_get_str (str "system") messages)).
Proof.
  revert u s. induction messages as [| m ms IH]; intros u s; [reflexivity |].
  cbn [fold_left]. unfold contents_with_role. cbn [flat_map].
  fold (contents_with_role json_get_str (str "user") ms).
  fold (contents_with_role json_get_str (str "system") ms).
  unfold pick_step at 2.
  destruct (json_get_str m (str "role")) as [role |];
    [destruct (json_get_str m (str "content")) as [content |] |];
    cbn [app]; try apply IH.
  destruct (list_eqb role (str "user")) eqn:Eu.
  - apply list_eqb_true in Eu. subst role.
    change (list_eqb (str "user") (str "system")) with false.
    cbn [app fst snd]. rewrite IH. unfold keep_last. rewrite last_cons.
    destruct (last (contents_with_role json_get_str (str "user") ms)); reflexivity.
  - destruct (list_eqb role (str "system")) eqn:Es; cbn [app fst snd]; rewrite IH.
    + unfold keep_last. rewrite last_cons.
      destruct (last (contents_with_role json_get_str (str "system") ms)); reflexivity.
    + reflexivity.
Qed.

Lemma pick_messages_last (messages : list cJSON) :
  pick_messages json_get_str messages
  = (last_with_role json_get_str (str "user") messages,
     last_with_role json_get_str (str "system") messages).
Proof.
  unfold pick_messages. rewrite pick_fold. unfold keep_last, last_with_role.
  destruct (last _), (last _); reflexivity.
Qed.

(** C2, as the loop has it: when the body holds a messages array with a
    user message and a key is configured for the provider the request
    selects, the handler calls [http_stream_post] once, at the endpoint
    of that provider and with that key, on the request the builder of
    that provider makes of the content of the last user message and, as
    system prompt, the content of the last system message of the array,
    or the configured prompt when the array has none; its response is
    made of what that call returned. *)
Theorem handler_chat_forwards_last_messages
  (view : gw_view) (req : http_request_t) (resp : http_response_build_t)
  (req_body : list ascii) (json : cJSON) (messages : list cJSON)
  (user_msg api_key : list ascii) :
  body req = Some req_body ->
  body_len req <> 0 ->
  cJSON_Parse (cstr_view req_body) = Some json ->
  cJSON_GetObjectItemCaseSensitive json (str "messages") = Some (cJSON_Array messages) ->
  last_with_role json_get_str (str "user") messages = Some user_msg ->
  auth_resolve (v_cfg view)
    (selected_provider (auth_parse_provider (default_provider (v_cfg view)))
       (json_get_str json (str "model"))) = Some api_key ->
  let default := auth_parse_provider (default_provider (v_cfg view)) in
  let provider := selected_provider default (json_get_str json (str "model")) in
  let model := selected_model (v_cfg view) default (json_get_str json (str "model")) in
  let system_msg :=
    match last_with_role json_get_str (str "system") messages with
    | Some s => Some s
    | None => system_prompt (v_cfg view)
    end in
  fst (handler_chat_run cJSON_Parse cJSON_PrintUnformatted json_get_str json_get_int
         json_get_double auth_parse_provider auth_resolve
         json_build_anthropic_request json_build_openai_request http_stream_post
         view req resp)
  = (OC_OK,
     chat_reply cJSON_PrintUnformatted resp model
       (http_stream_post (endpoint_of provider) api_key
          (build_request json_build_anthropic_request json_build_openai_request provider
             model system_msg user_msg
             (json_get_int json (str "max_tokens") (max_tokens (v_cfg view)))
             (json_get_double json (str "temperature") (temperature (v_cfg view))))
          provider)).
Proof.
  intros Hbody Hlen Hparse Hmsgs Huser Hkey default provider model system_msg.
  unfold handler_chat_run. rewrite Hbody.
  destruct (body_len req =? 0) eqn:E; [apply Z.eqb_eq in E; contradiction |].
  rewrite Hparse, Hmsgs.
  destruct messages as [| m ms]; [discriminate Huser |].
  rewrite pick_messages_last, Huser.
  fold system_msg. fold default.
  assert (Hsel :
    match json_get_str json (str "model") with
    | Some rm =>
        if is_prefix (str "claude") rm then (PROVIDER_ANTHROPIC, Some rm)
        else if is_prefix (str "gpt") rm then (PROVIDER_OPENAI, Some rm)
        else (default, Some rm)
    | None =>
        (default,
         match default with
         | PROVIDER_ANTHROPIC => anthropic_model (v_cfg view)
         | PROVIDER_OPENAI => openai_model (v_cfg view)
         end)
    end = (provider, model)).
  { unfold provider, model, selected_provider, selected_model, configured_model.
    destruct (json_get_str json (str "model")) as [rm |]; [| reflexivity].
    destruct (is_prefix (str "claude") rm); [reflexivity |].
    destruct (is_prefix (str "gpt") rm); reflexivity. }
  rewrite Hsel. change (auth_resolve (v_cfg view) provider = Some api_key) in Hkey.
  rewrite Hkey.
  unfold chat_reply, build_request, endpoint_of.
  destruct provider;
    match goal with
    | |- context [http_stream_post ?a ?b ?c ?d] =>
        destruct (http_stream_post a b c d) as [rc events]
    end; reflexivity.
Qed.

End WithLibraries.

Lemma handler_chat_forwards_last_messages_witness :
  fst (Sample.run_chat Sample.chat_view Sample.chat_request http_response_init)
  = (OC_OK,
     chat_reply Sample.print_json http_response_init None
       (Sample.post_echo (str "https://api.anthropic.com/v1/messages") (str "sk-ant")
          (Sample.build_echo "anthropic" None (Some (str "B")) (str "hi") 1024 0)
          PROVIDER_ANTHROPIC)).
Proof.
  exact (handler_chat_forwards_last_messages
           Sample.parse_chat_body Sample.print_json json_get_str_ref
           (fun _ _ d => d) (fun _ _ d => d)
           (fun _ => PROVIDER_ANTHROPIC) Sample.keys
           (Sample.build_echo "anthropic") (Sample.build_echo "openai") Sample.post_echo
           Sample.chat_view Sample.chat_request http_response_init
           Sample.chat_body Sample.chat_tree Sample.chat_messages (str "hi") (str "sk-ant")
           eq_refl ltac:(vm_compute; discriminate) ltac:(vm_compute; reflexivity)
           eq_refl ltac:(vm_compute; reflexivity) eq_refl).
Defined.

(** C2 as stated fails: with the system messages A and B in the array,
    in this order, the request that goes upstream carries B, the last
    one, as its system prompt, and the response differs from the one a
    request carrying A, the first one, would have got. *)
Lemma handler_chat_takes_last_system_message :
  first_with_role json_get_str_ref (str "system") Sample.chat_messages = Some (str "A")
  /\ fst (Sample.run_chat Sample.chat_view Sample.chat_request http_response_init)
     = (OC_OK,
        chat_reply Sample.print_json http_response_init None
          (Sample.post_echo (str "https://api.anthropic.com/v1/messages") (str "sk-ant")
             (Sample.build_echo "anthropic" None (Some (str "B")) (str "hi") 1024 0)
             PROVIDER_ANTHROPIC))
  /\ fst (Sample.run_chat Sample.chat_view Sample.chat_request http_response_init)
     <> (OC_OK,
         chat_reply Sample.print_json http_response_init None
           (Sample.post_echo (str "https://api.anthropic.com/v1/messages") (str "sk-ant")
              (Sample.build_echo "anthropic" None (Some (str "A")) (str "hi") 1024 0)
              PROVIDER_ANTHROPIC)).
Proof.
  split; [vm_compute; reflexivity |].
  split; [vm_compute; reflexivity |].
  intros H. vm_compute in H. discriminate H.
Qed.

End ChatFacts.

(** ** WebSocket upgrade *)

Module WsUpgradeFacts.
Import Mach Cstr Http Crypto WsUpgrade.

Lemma be_bytes_length (n : nat) (v : Z) : length (be_bytes n v) = n.
Proof. unfold be_bytes. rewrite length_map, length_rev, length_seq. reflexivity. Qed.

Lemma SHA1_length (msg : list Z) : length (SHA1 msg) = 20%nat.
Proof.
  unfold SHA1. destruct (sha1_blocks _ _ _) as [[[[h0 h1] h2] h3] h4].
  rewrite !length_app, !be_bytes_length. reflexivity.
Qed.

Lemma base64_length_20 (bs : list Z) :
  length bs = 20%nat -> length (base64_encode bs) = 28%nat.
Proof.
  intros H. do 21 (destruct bs as [| ? bs]; try discriminate H). reflexivity.
Qed.

Lemma accept_key_length (ws_key : list ascii) : length (accept_key ws_key) = 28%nat.
Proof. unfold accept_key. apply base64_length_20, SHA1_length. Qed.

(** What [ws_handle_upgrade] replies when the whole response is
    written: status 101, the Upgrade and Connection headers, the accept
    value computed from the key and [WS_MAGIC]; the connection is in
    WebSocket state afterwards.  Keys up to 219 bytes are hashed whole. *)
Lemma ws_handle_upgrade_reply (conn : connection_t) (req : http_request_t)
  (ws_key : list ascii) (accepts : nat) :
  find_header req (str "Sec-WebSocket-Key") = Some ws_key ->
  (length (upgrade_response (accept_key ws_key)) <= accepts)%nat ->
  let '(rc, conn', sent) := ws_handle_upgrade conn req accepts in
  rc = 0 /\ state conn' = CONN_WEBSOCKET /\ is_websocket conn' = true
  /\ sent = upgrade_response (accept_key ws_key)
  /\ ((length ws_key <= 219)%nat ->
      accept_key ws_key
      = base64_encode (SHA1 (map byte_of_ascii (ws_key ++ WS_MAGIC)))).
Proof.
  intros Hkey Hacc. unfold ws_handle_upgrade. rewrite Hkey.
  assert (Hlen : length (upgrade_response (accept_key ws_key)) = 129%nat).
  { unfold upgrade_response. rewrite !length_app, accept_key_length. reflexivity. }
  rewrite Hlen in Hacc.
  rewrite (take_ge (upgrade_response (accept_key ws_key)) 511) by lia.
  rewrite (take_ge (upgrade_response (accept_key ws_key)) accepts) by lia.
  rewrite Nat.eqb_refl. cbn [negb state is_websocket].
  repeat split.
  intros Hshort. unfold accept_key, combined_key.
  rewrite take_ge; [reflexivity |].
  rewrite length_app. change (length WS_MAGIC) with 36%nat. lia.
Qed.

(** C7, at the key of the RFC 6455 example: the accept value sent is not
    the one the RFC (and the claim) give for that key, because
    [WS_MAGIC] is not the GUID of the RFC; with that GUID the same
    computation gives the expected value. *)
Theorem ws_accept_for_sample_key :
  let key := str "dGhlIHNhbXBsZSBub25jZQ==" in
  let conn :=
    snd (http_parse_request
           (Sample.conn_with
              (str "GET /ws HTTP/1.1" ++ CRLF
               ++ str "Upgrade: websocket" ++ CRLF
               ++ str "Connection: Upgrade" ++ CRLF
               ++ str "Sec-WebSocket-Key: dGhlIHNhbXBsZSBub25jZQ==" ++ CRLF
               ++ CRLF))) in
  find_header (request conn) (str "Sec-WebSocket-Key") = Some key
  /\ snd (ws_handle_upgrade conn (request conn) 512)
     = upgrade_response (str "oaMi3hzjas62i/BuwYpSNXwtj5s=")
  /\ accept_key key <> str "s3pPLMBiTxaQ9kYGzzhZRbK+xOo="
  /\ base64_encode
       (SHA1 (map byte_of_ascii (key ++ str "258EAFA5-E914-47DA-95CA-C5AB0DC85B11")))
     = str "s3pPLMBiTxaQ9kYGzzhZRbK+xOo=".
Proof.
  intros key conn. split; [| split; [| split]].
  - vm_compute. reflexivity.
  - vm_compute. reflexivity.
  - vm_compute. discriminate.
  - vm_compute. reflexivity.
Qed.

End WsUpgradeFacts.

(** ** WebSocket frame writer *)

Module WsWriteFacts.
Import Mach Http Ws WsWrite WsFacts.

Lemma write_all_take (fuel : nat) (bytes : list Z) (room : nat) :
  (length bytes <= fuel)%nat ->
  write_all fuel bytes room
  = (if (length bytes <=? room)%nat then 0 else -1, take room bytes).
Proof.
  revert bytes room. induction fuel as [| fuel IH]; intros bytes room Hfuel.
  - destruct bytes; [| cbn in Hfuel; lia]. cbn. rewrite take_nil. reflexivity.
  - destruct bytes as [| b bytes]; [cbn; rewrite take_nil; reflexivity |].
    cbn [write_all]. unfold sock_write.
    destruct room as [| room]; [reflexivity |].
    cbn [take length drop].
    rewrite IH by (rewrite length_drop; cbn in Hfuel; lia).
    rewrite length_take, length_drop.
    destruct (Nat.leb_spec (S (length bytes)) (S room)) as [Hle | Hgt].
    + rewrite (take_ge bytes room) by lia.
      rewrite Nat.min_r, drop_all by lia.
      destruct (Nat.leb_spec (length bytes - length bytes)
                  (S room - S (length bytes))); [| lia].
      rewrite take_nil, app_nil_r. reflexivity.
    + rewrite Nat.min_l by lia.
      replace (S room - S (length bytes))%nat with 0%nat by lia.
      destruct (Nat.leb_spec (length bytes - room) 0); [lia |].
      rewrite take_0, app_nil_r. reflexivity.
Qed.

Lemma frame_header_length (len : Z) :
  (2 <= length (frame_header len) <= 10)%nat.
Proof.
  unfold frame_header. destruct (len <? 126); [cbn; lia |].
  destruct (len <? 65536); cbn; lia.
Qed.

Lemma land_255 (x : Z) : Z.land x 0xFF = x mod 256.
Proof. change 0xFF with (Z.ones 8). rewrite Z.land_ones by lia. reflexivity. Qed.

Lemma land_127_128 (n : Z) :
  0 <= n < 128 -> Z.land n 0x7F = n /\ Z.land n 0x80 = 0.
Proof.
  intros Hn. split.
  - change 0x7F with (Z.ones 7). rewrite Z.land_ones by lia.
    apply Z.mod_small. change (2 ^ 7) with 128. lia.
  - apply Z.bits_inj'. intros i Hi. rewrite Z.land_spec, Z.bits_0.
    change 0x80 with (2 ^ 7). rewrite Z.pow2_bits_eqb by lia.
    destruct (Z.eqb_spec 7 i) as [<- | Hne]; [| apply andb_false_r].
    destruct (Z.eq_dec n 0) as [-> | Hnz]; [reflexivity |].
    rewrite Z.bits_above_log2; [reflexivity | lia |].
    assert (Z.log2 n < 7) by (apply Z.log2_lt_pow2; lia). lia.
Qed.

(** The header written for [len] bytes is a well-formed, unmasked
    encoding of [len]. *)
Lemma frame_header_field (len : Z) :
  0 <= len < two64 ->
  exists b1 ext,
    frame_header len = 0x81 :: b1 :: ext
    /\ Z.land b1 0x80 = 0
    /\ length_field (Z.land b1 0x7F) ext len.
Proof.
  intros Hlen. unfold frame_header.
  destruct (Z.ltb_spec len 126) as [H126 | H126].
  { exists len, []. destruct (land_127_128 len) as [-> ->]; [lia |].
    split; [reflexivity |]. split; [reflexivity |]. constructor. lia. }
  destruct (Z.ltb_spec len 65536) as [H16 | H16].
  { exists 126, [Z.land (Z.shiftr len 8) 0xFF; Z.land len 0xFF].
    split; [reflexivity |]. split; [reflexivity |].
    rewrite !land_255, Z.shiftr_div_pow2 by lia. change (2 ^ 8) with 256.
    change (Z.land 126 127) with 126.
    replace len with (be_number [(len / 256) mod 256; len mod 256]) at 3.
    - constructor; unfold is_byte; apply Z.mod_pos_bound; lia.
    - unfold be_number. cbn [fold_left].
      rewrite (Z.mod_small (len / 256)) by (split; [apply Z.div_pos; lia | apply Z.div_lt_upper_bound; lia]).
      pose proof (Z.div_mod len 256). lia. }
  exists 127, (map (fun i => Z.land (Z.shiftr len (8 * i)) 0xFF) [7; 6; 5; 4; 3; 2; 1; 0]).
  split; [reflexivity |]. split; [reflexivity |].
  change (Z.land 127 127) with 127.
  set (ext := map _ _).
  assert (Hval : be_number ext = len).
  { subst ext. unfold be_number. cbn [map fold_left].
    rewrite !land_255, !Z.shiftr_div_pow2 by lia.
    change (8 * 7) with 56. change (8 * 6) with 48. change (8 * 5) with 40.
    change (8 * 4) with 32. change (8 * 3) with 24. change (8 * 2) with 16.
    change (8 * 1) with 8. change (8 * 0) with 0.
    change (2 ^ 0) with 1. rewrite Z.div_1_r.
    set (q1 := len / 2 ^ 8). set (q2 := len / 2 ^ 16). set (q3 := len / 2 ^ 24).
    set (q4 := len / 2 ^ 32). set (q5 := len / 2 ^ 40). set (q6 := len / 2 ^ 48).
    set (q7 := len / 2 ^ 56).
    assert (E1 : q1 = len / 256) by reflexivity.
    assert (E2 : q2 = q1 / 256) by (subst q1 q2; rewrite Z.div_div by lia; reflexivity).
    assert (E3 : q3 = q2 / 256) by (subst q2 q3; rewrite Z.div_div by lia; reflexivity).
    assert (E4 : q4 = q3 / 256) by (subst q3 q4; rewrite Z.div_div by lia; reflexivity).
    assert (E5 : q5 = q4 / 256) by (subst q4 q5; rewrite Z.div_div by lia; reflexivity).
    assert (E6 : q6 = q5 / 256) by (subst q5 q6; rewrite Z.div_div by lia; reflexivity).
    assert (E7 : q7 = q6 / 256) by (subst q6 q7; rewrite Z.div_div by lia; reflexivity).
    assert (H7 : 0 <= q7 < 256).
    { subst q7. split; [apply Z.div_pos; lia |].
      apply Z.div_lt_upper_bound; [lia |]. unfold two64 in Hlen.
      change (2 ^ 56 * 256) with (2 ^ 64). lia. }
    rewrite (Z.mod_small q7) by exact H7.
    pose proof (Z.div_mod len 256). pose proof (Z.div_mod q1 256).
    pose proof (Z.div_mod q2 256). pose proof (Z.div_mod q3 256).
    pose proof (Z.div_mod q4 256). pose proof (Z.div_mod q5 256).
    pose proof (Z.div_mod q6 256). lia. }
  rewrite <- Hval. constructor; [reflexivity |].
  subst ext. repeat constructor; rewrite land_255; apply Z.mod_pos_bound; lia.
Qed.

(** X1: a text frame written by [ws_send_text] on a socket with room
    for it is read back by [ws_read_frame] as opcode 1 with the same
    payload, and nothing of what follows the frame is consumed. *)
Theorem ws_send_text_read_back (conn : connection_t) (text rest : list Z) (room : nat) :
  is_websocket conn = true ->
  Z.of_nat (length text) < two64 - 1 ->
  (length (frame_header (Z.of_nat (length text))) + length text <= room)%nat ->
  fst (ws_send_text conn text room) = 0
  /\ ws_read_frame (snd (ws_send_text conn text room) ++ rest)
     = {| fr_rc := 1; fr_payload := Some text; fr_pending := rest |}.
Proof.
  intros Hws Hlen Hroom.
  assert (Hsent : ws_send_text conn text room
                  = (0, frame_header (Z.of_nat (length text)) ++ text)).
  { unfold ws_send_text. rewrite Hws. cbn [negb]. unfold sock_write at 1.
    rewrite take_ge by lia. rewrite Nat.eqb_refl. cbn [negb].
    rewrite write_all_take by lia.
    destruct (Nat.leb_spec (length text)
                (room - length (frame_header (Z.of_nat (length text)))))
      as [_ | ?]; [| lia].
    rewrite take_ge by lia. reflexivity. }
  rewrite Hsent. cbn [fst snd]. split; [reflexivity |].
  destruct (frame_header_field (Z.of_nat (length text))) as (b1 & ext & -> & Hbit & Hfield);
    [lia |].
  cbn [app]. rewrite <- ?app_assoc.
  rewrite ws_read_frame_header. change (Z.land 129 15 =? 8) with false. cbv iota.
  destruct (read_ext_len_field _ _ ext (text ++ rest) Hfield) as [-> _].
  rewrite Hbit. cbn [Z.eqb negb andb].
  rewrite u64_succ_nonzero by lia.
  rewrite Nat2Z.id, read_payload_exact. reflexivity.
Qed.

Lemma ws_send_text_read_back_witness :
  let conn := snd (fst (WsUpgrade.ws_handle_upgrade
                          (Sample.conn_with [])
                          (with_headers request_zero
                             [{| key := Cstr.str "Sec-WebSocket-Key";
                                 value := Cstr.str "abc" |}] 1) 200)) in
  fst (ws_send_text conn [104; 105] 4) = 0
  /\ ws_read_frame (snd (ws_send_text conn [104; 105] 4) ++ [7])
     = {| fr_rc := 1; fr_payload := Some [104; 105]; fr_pending := [7] |}.
Proof.
  intros conn.
  apply (ws_send_text_read_back conn [104; 105] [7] 4).
  - vm_compute. reflexivity.
  - vm_compute. reflexivity.
  - vm_compute. lia.
Defined.

(** X2: [ws_send_text] sends nothing on a connection that is not a
    WebSocket; on one that is, what reaches the socket is the prefix of
    the frame that fits in the room the socket has, and the call
    succeeds exactly when the whole frame fits. *)
Theorem ws_send_text_sends_prefix (conn : connection_t) (text : list Z) (room : nat) :
  ws_send_text conn text room
  = if is_websocket conn
    then (if (length (frame_header (Z.of_nat (length text)) ++ text) <=? room)%nat
          then 0 else -1,
          take room (frame_header (Z.of_nat (length text)) ++ text))
    else (-1, []).
Proof.
  unfold ws_send_text. destruct (is_websocket conn); [| reflexivity].
  cbn [negb]. set (header := frame_header (Z.of_nat (length text))).
  unfold sock_write at 1. rewrite length_take, take_app, length_app.
  destruct (Nat.eqb_spec (room `min` length header) (length header)) as [Hfit | Hshort];
    cbn [negb].
  - rewrite write_all_take by lia.
    destruct (Nat.leb_spec (length text) (room - length header)),
             (Nat.leb_spec (length header + length text) room);
      try lia; reflexivity.
  - replace (room - length header)%nat with 0%nat by lia.
    rewrite take_0, app_nil_r.
    destruct (Nat.leb_spec (length header + length text) room); [lia | reflexivity].
Qed.

Lemma read_payload_split (fuel want : nat) (pending data rest : list Z) :
  read_payload fuel want pending = Some (data, rest) ->
  pending = data ++ rest /\ length data = want.
Proof.
  revert want pending data rest.
  induction fuel as [| fuel IH]; intros want pending data rest;
    destruct want as [| want]; cbn [read_payload]; try discriminate;
    try (intros [= <- <-]; split; reflexivity).
  unfold Sock.read.
  destruct (take (S want) pending) as [| c chunk] eqn:Hchunk; [discriminate |].
  destruct (read_payload fuel _ _) as [[more rest'] |] eqn:Hrec; [| discriminate].
  intros [= <- <-]. apply IH in Hrec as [Hd Hl].
  assert (Hlen := f_equal length Hchunk). rewrite length_take in Hlen.
  split.
  - rewrite <- (take_drop (S want) pending) at 1. rewrite Hchunk, Hd.
    cbn [app]. rewrite <- ?app_assoc. reflexivity.
  - cbn [app length] in *. rewrite length_app, Hl. lia.
Qed.

(** X3: [ws_read_frame] either fails with -1 and no payload, or returns
    an opcode between 0 and 15 other than close together with a payload;
    then the bytes it took from the socket are a header of 2 to 14 bytes
    followed by as many bytes as the payload has, and the rest of the
    socket is untouched. *)
Theorem ws_read_frame_outcome (pending : list Z) :
  (fr_rc (ws_read_frame pending) = -1 /\ fr_payload (ws_read_frame pending) = None)
  \/ (0 <= fr_rc (ws_read_frame pending) <= 15
      /\ fr_rc (ws_read_frame pending) <> 8
      /\ exists payload header data,
           fr_payload (ws_read_frame pending) = Some payload
           /\ pending = header ++ data ++ fr_pending (ws_read_frame pending)
           /\ (2 <= length header <= 14)%nat
           /\ length data = length payload).
Proof.
  destruct pending as [| b0 [| b1 tail]]; [left; split; reflexivity .. |].
  rewrite ws_read_frame_header.
  destruct (Z.eqb_spec (Z.land b0 15) 8) as [Hclose | Hop]; [left; split; reflexivity |].
  assert (Hrange : 0 <= Z.land b0 15 <= 15).
  { assert (Hmod : Z.land b0 15 = b0 mod 16).
    { change 15 with (Z.ones 4). rewrite Z.land_ones by lia. reflexivity. }
    pose proof (Z.mod_pos_bound b0 16). lia. }
  assert (Hext : exists ext p2, tail = ext ++ p2 /\ (length ext <= 8)%nat
                 /\ snd (read_ext_len (Z.land b1 127) tail) = p2).
  { unfold read_ext_len, Sock.read.
    destruct (Z.land b1 127 =? 126).
    - exists (take 2 tail), (drop 2 tail). rewrite take_drop, length_take.
      split; [reflexivity |]. split; [lia |]. destruct (_ =? _)%nat; reflexivity.
    - destruct (Z.land b1 127 =? 127).
      + exists (take 8 tail), (drop 8 tail). rewrite take_drop, length_take.
        split; [reflexivity |]. split; [lia |]. destruct (_ =? _)%nat; reflexivity.
      + exists [], tail. split; [reflexivity |]. split; [cbn; lia | reflexivity]. }
  destruct Hext as (ext & p2 & -> & Hextlen & Hp2).
  destruct (read_ext_len (Z.land b1 127) (ext ++ p2)) as [[len |] p2'];
    [| left; split; reflexivity].
  cbn [snd] in Hp2. subst p2'.
  destruct (negb (Z.land b1 128 =? 0)) eqn:Hmasked; cbn [andb].
  - unfold Sock.read.
    destruct (negb (length (take 4 p2) =? 4)%nat) eqn:Hk; [left; split; reflexivity |].
    destruct (u64 (len + 1) =? 0); [left; split; reflexivity |].
    destruct (read_payload _ _ _) as [[data p4] |] eqn:Hread; [| left; split; reflexivity].
    right. cbn [fr_rc fr_payload fr_pending]. split; [exact Hrange |]. split; [exact Hop |].
    apply read_payload_split in Hread as [Hd Hl].
    exists (unmask data (take 4 p2)), (b0 :: b1 :: ext ++ take 4 p2), data.
    split; [reflexivity |]. split.
    + cbn [app]. rewrite <- !app_assoc, <- Hd, take_drop. reflexivity.
    + split; [cbn [length]; rewrite length_app, length_take; lia |].
      unfold unmask. rewrite xor_mask_from_length. reflexivity.
  - destruct (u64 (len + 1) =? 0); [left; split; reflexivity |].
    destruct (read_payload _ _ _) as [[data p4] |] eqn:Hread; [| left; split; reflexivity].
    right. cbn [fr_rc fr_payload fr_pending]. split; [exact Hrange |]. split; [exact Hop |].
    apply read_payload_split in Hread as [Hd Hl].
    exists data, (b0 :: b1 :: ext), data.
    split; [reflexivity |]. split.
    + cbn [app]. rewrite <- Hd. reflexivity.
    + split; [cbn [length]; lia | reflexivity].
Qed.

End WsWriteFacts.

(** ** Session store: creation, counters and history after an append *)

Module SessionOpsFacts.
Import Mach Cstr SessionStore SessionOps SessionStoreFacts.

Lemma nibble_cases (n : Z) : 0 <= n < 16 -> In n (map Z.of_nat (seq 0 16)).
Proof.
  intros H. rewrite <- (Z2Nat.id n) by lia. apply in_map, in_seq. lia.
Qed.

Lemma hex_digit_code (n : Z) :
  0 <= n < 16 ->
  Z.of_nat (nat_of_ascii (hex_digit n)) = if n <? 10 then 48 + n else 87 + n.
Proof.
  intros H. pose proof (nibble_cases n H) as Hc. vm_compute in Hc.
  repeat (destruct Hc as [Hc | Hc]; [subst n; reflexivity |]). contradiction.
Qed.

Lemma hex_digit_in (n : Z) :
  0 <= n < 16 -> In (hex_digit n) (str "0123456789abcdef").
Proof.
  intros H. pose proof (nibble_cases n H) as Hc. vm_compute in Hc.
  repeat (destruct Hc as [Hc | Hc]; [subst n; cbn; tauto |]). contradiction.
Qed.

Lemma hex_digit_inj (a b : Z) :
  0 <= a < 16 -> 0 <= b < 16 -> hex_digit a = hex_digit b -> a = b.
Proof.
  intros Ha Hb Heq.
  assert (Hc := f_equal (fun c => Z.of_nat (nat_of_ascii c)) Heq). cbn beta in Hc.
  rewrite !hex_digit_code in Hc by assumption.
  destruct (a <? 10) eqn:Ea, (b <? 10) eqn:Eb;
    rewrite ?Z.ltb_lt, ?Z.ltb_ge in *; lia.
Qed.

Lemma byte_nibbles (b : Z) : is_byte b -> 0 <= b / 16 < 16 /\ 0 <= b mod 16 < 16.
Proof.
  unfold is_byte. intros H. split.
  - split; [apply Z.div_pos; lia | apply Z.div_lt_upper_bound; lia].
  - apply Z.mod_pos_bound. lia.
Qed.

Lemma hex2_inj (a b : Z) : is_byte a -> is_byte b -> hex2 a = hex2 b -> a = b.
Proof.
  intros Ha Hb [= Hhi Hlo].
  destruct (byte_nibbles a Ha), (byte_nibbles b Hb).
  apply hex_digit_inj in Hhi; [| assumption ..].
  apply hex_digit_inj in Hlo; [| assumption ..].
  rewrite (Z.div_mod a 16), (Z.div_mod b 16) by lia. congruence.
Qed.

Lemma hex_inj (xs ys : list Z) :
  Forall is_byte xs -> Forall is_byte ys -> length xs = length ys ->
  flat_map hex2 xs = flat_map hex2 ys -> xs = ys.
Proof.
  intros Hx. revert ys. induction Hx as [| x xs Hbx Hxs IH]; intros ys Hy Hlen Heq.
  - destruct ys; [reflexivity | discriminate].
  - destruct Hy as [| y ys Hby Hys]; [discriminate |].
    cbn [flat_map] in Heq. unfold hex2 at 1 3 in Heq. cbn [app] in Heq.
    injection Heq as Hhi Hlo Hrest.
    f_equal; [apply hex2_inj; [assumption .. | unfold hex2; congruence] |].
    apply IH; [assumption | cbn in Hlen; lia | assumption].
Qed.

(** X4: with 16 bytes from the random source, [generate_session_id]
    gives 32 characters, each a lowercase hexadecimal digit, and two
    ids are equal only when the 16 bytes behind them are. *)
Theorem session_id_is_hex_of_16_bytes (bytes bytes' : list Z) :
  Forall is_byte bytes -> Forall is_byte bytes' ->
  (16 <= length bytes)%nat -> (16 <= length bytes')%nat ->
  exists id id',
    generate_session_id (Some bytes) = Some id
    /\ generate_session_id (Some bytes') = Some id'
    /\ length id = 32%nat
    /\ Forall (fun c => In c (str "0123456789abcdef")) id
    /\ (id = id' -> take 16 bytes = take 16 bytes').
Proof.
  intros Hb Hb' Hl Hl'. unfold generate_session_id.
  rewrite !length_take.
  destruct (Nat.ltb_spec (16 `min` length bytes) 16); [lia |].
  destruct (Nat.ltb_spec (16 `min` length bytes') 16); [lia |].
  eexists. eexists. split; [reflexivity |]. split; [reflexivity |].
  assert (Ht : Forall is_byte (take 16 bytes)) by (apply Forall_take, Hb).
  assert (Ht' : Forall is_byte (take 16 bytes')) by (apply Forall_take, Hb').
  split; [| split].
  - assert (Hlen : length (take 16 bytes) = 16%nat) by (rewrite length_take; lia).
    revert Hlen. generalize (take 16 bytes). intros l Hlen.
    do 17 (destruct l as [| ? l]; cbn [length] in Hlen; try lia). reflexivity.
  - clear -Ht. induction Ht as [| x xs Hx Hxs IH]; cbn [flat_map]; [constructor |].
    destruct (byte_nibbles x Hx).
    unfold hex2. cbn [app].
    constructor; [apply hex_digit_in; lia |].
    constructor; [apply hex_digit_in; lia | exact IH].
  - intros Heq. apply hex_inj; [assumption .. | | exact Heq].
    rewrite !length_take. lia.
Qed.

Lemma session_id_is_hex_of_16_bytes_witness :
  exists id id',
    generate_session_id (Some (seq_bytes 0)) = Some id
    /\ generate_session_id (Some (seq_bytes 1)) = Some id'
    /\ length id = 32%nat
    /\ Forall (fun c => In c (str "0123456789abcdef")) id
    /\ (id = id' -> take 16 (seq_bytes 0) = take 16 (seq_bytes 1)).
Proof.
  apply (session_id_is_hex_of_16_bytes (seq_bytes 0) (seq_bytes 1)).
  - vm_compute. repeat constructor; discriminate.
  - vm_compute. repeat constructor; discriminate.
  - vm_compute. lia.
  - vm_compute. lia.
Defined.

Lemma existsb_id_false (rows : list session_row) (id : list ascii) :
  existsb (fun row => list_eqb (s_id row) id) rows = false ->
  ~ In id (map s_id rows).
Proof.
  induction rows as [| r rows IH]; cbn; [tauto |].
  rewrite orb_false_iff. intros [Hr Hrest] [Heq | Hin]; [| exact (IH Hrest Hin)].
  rewrite <- Heq in Hr.
  assert (list_eqb (s_id r) (s_id r) = true) by (apply list_eqb_eq; reflexivity).
  congruence.
Qed.

(** X5: [session_store_create] never removes or changes a session or a
    message: a call that returns an id appended one row with that id, a
    fresh one, and with both timestamps equal to the current time; a
    call that returns NULL left the store as it was.  So session ids
    that were pairwise distinct stay so. *)
Theorem session_store_create_appends_fresh_row (store : session_store_t)
  (channel_id : option (list ascii)) (urandom : option (list Z)) (now : Z) :
  NoDup (map s_id (sessions store)) ->
  NoDup (map s_id (sessions (snd (session_store_create store channel_id urandom now))))
  /\ messages (snd (session_store_create store channel_id urandom now)) = messages store
  /\ match fst (session_store_create store channel_id urandom now) with
     | Some id =>
         exists c, channel_id = Some c
           /\ ~ In id (map s_id (sessions store))
           /\ sessions (snd (session_store_create store channel_id urandom now))
              = sessions store ++ [{| s_id := id; s_channel_id := c;
                                      s_created_at := now; s_updated_at := now |}]
     | None => snd (session_store_create store channel_id urandom now) = store
     end.
Proof.
  intros Hnd. unfold session_store_create.
  destruct (generate_session_id urandom) as [id |]; [| cbn; auto].
  unfold insert_session.
  destruct channel_id as [c |]; cbn [bind_text]; [| cbn; auto].
  destruct (existsb _ _) eqn:Hex; [cbn; auto |].
  apply existsb_id_false in Hex. cbn [fst snd sessions messages].
  split; [| split; [reflexivity | eauto]].
  rewrite map_app. cbn [map s_id].
  apply NoDup_app. split; [exact Hnd |]. split.
  - intros x Hx Hx'. apply list_elem_of_In in Hx.
    apply list_elem_of_singleton in Hx'. subst x. contradiction.
  - apply NoDup_singleton.
Qed.

Lemma session_store_create_appends_fresh_row_witness :
  let r := session_store_create session_store_open_new (Some (str "webchat"))
             (Some (seq_bytes 0)) 100 in
  NoDup (map s_id (sessions (snd r)))
  /\ messages (snd r) = []
  /\ match fst r with
     | Some id =>
         exists c, Some (str "webchat") = Some c
           /\ ~ In id []
           /\ sessions (snd r)
              = [] ++ [{| s_id := id; s_channel_id := c;
                          s_created_at := 100; s_updated_at := 100 |}]
     | None => snd r = session_store_open_new
     end.
Proof.
  apply (session_store_create_appends_fresh_row session_store_open_new
           (Some (str "webchat")) (Some (seq_bytes 0)) 100).
  constructor.
Defined.

(** [session_store_add_message] returns OC_OK exactly when none of its
    three strings is NULL; then it appended one row that holds them
    with the next message id and the time of the call; otherwise the
    store is as before. *)
Lemma session_store_add_message_outcome (store : session_store_t)
  (session_id role content : option (list ascii)) (now now' : Z) :
  session_store_add_message store session_id role content now now'
  = match session_id, role, content with
    | Some sid, Some r, Some c =>
        (OC_OK,
         {| sessions := sessions store;
            messages := messages store ++
              [{| m_id := messages_seq store + 1; m_session_id := sid;
                  m_role := r; m_content := c; m_created_at := now |}];
            messages_seq := messages_seq store + 1 |})
    | _, _, _ => (OC_ERR, store)
    end.
Proof.
  unfold session_store_add_message. rewrite update_with_null_is_identity.
  destruct session_id, role, content; reflexivity.
Qed.

Lemma to_int32_small (z : Z) : 0 <= z < 2 ^ 31 -> to_int32 z = z.
Proof.
  intros H. unfold to_int32. rewrite Z.mod_small; [lia |].
  change (2 ^ 32) with (2 * 2 ^ 31). lia.
Qed.

Lemma add_repeatedly_lengths (sid role content : list ascii) (times : list Z)
  (store : session_store_t) (other : list ascii) :
  length (messages (add_repeatedly sid role content times store))
  = (length (messages store) + length times)%nat
  /\ length (select_where (add_repeatedly sid role content times store) (SqlText other))
     = (length (select_where store (SqlText other))
        + if list_eqb sid other then length times else 0)%nat.
Proof.
  unfold add_repeatedly. revert store.
  induction times as [| t times IH]; intros store; cbn [fold_left length].
  - destruct (list_eqb sid other); split; lia.
  - rewrite session_store_add_message_outcome. cbn [snd].
    destruct (IH {| sessions := sessions store;
                    messages := messages store ++
                      [{| m_id := messages_seq store + 1; m_session_id := sid;
                          m_role := role; m_content := content; m_created_at := t |}];
                    messages_seq := messages_seq store + 1 |}) as [-> ->].
    cbn [messages]. rewrite length_app. cbn [length]. split; [lia |].
    rewrite !select_where_text. cbn [messages].
    rewrite List.filter_app, length_app. cbn [List.filter m_session_id].
    destruct (list_eqb sid other); cbn [length]; lia.
Qed.

(** X6: appending the same message [n] times adds [n] rows: the count
    of all messages and the count of the session's messages both grow
    by [n], and the count of any other session is unchanged (counts
    below 2^31, which is what the [int] results can hold). *)
Theorem add_message_n_times_adds_n_rows (sid role content other : list ascii)
  (times : list Z) (store : session_store_t) :
  Z.of_nat (length (messages store) + length times) < 2 ^ 31 ->
  other <> sid ->
  let store' := add_repeatedly sid role content times store in
  session_store_count_messages store'
  = session_store_count_messages store + Z.of_nat (length times)
  /\ session_store_get_message_count store' (Some sid)
     = session_store_get_message_count store (Some sid) + Z.of_nat (length times)
  /\ session_store_get_message_count store' (Some other)
     = session_store_get_message_count store (Some other).
Proof.
  intros Hsmall Hother store'. subst store'.
  unfold session_store_count_messages, session_store_get_message_count. cbn [bind_text].
  destruct (add_repeatedly_lengths sid role content times store sid) as [Hall Hsid].
  destruct (add_repeatedly_lengths sid role content times store other) as [_ Hoth].
  assert (Hself : list_eqb sid sid = true) by (apply list_eqb_eq; reflexivity).
  assert (Hne : list_eqb sid other = false).
  { destruct (list_eqb sid other) eqn:E; [| reflexivity].
    apply list_eqb_eq in E. congruence. }
  rewrite Hself in Hsid. rewrite Hne in Hoth.
  rewrite Hall, Hsid, Hoth.
  assert (Hf : forall o, (length (select_where store o) <= length (messages store))%nat).
  { intros o. unfold select_where. apply List.filter_length_le. }
  pose proof (Hf (SqlText sid)). pose proof (Hf (SqlText other)).
  rewrite !to_int32_small by lia.
  rewrite Nat.add_0_r. lia.
Qed.

Lemma add_message_n_times_adds_n_rows_witness :
  let store' := add_repeatedly (str "s1") (str "user") (str "hi") [7; 7; 9]
                  session_store_open_new in
  session_store_count_messages store'
  = session_store_count_messages session_store_open_new + 3
  /\ session_store_get_message_count store' (Some (str "s1"))
     = session_store_get_message_count session_store_open_new (Some (str "s1")) + 3
  /\ session_store_get_message_count store' (Some (str "s2"))
     = session_store_get_message_count session_store_open_new (Some (str "s2")).
Proof.
  apply (add_message_n_times_adds_n_rows (str "s1") (str "user") (str "hi") (str "s2")
           [7; 7; 9] session_store_open_new).
  - vm_compute. reflexivity.
  - discriminate.
Defined.

Lemma ids_increasing_app (rows : list message_row) (bound id : Z) (r : message_row) :
  ids_increasing bound rows = true ->
  forallb (fun x => m_id x <=? id) rows = true ->
  bound <= id ->
  m_id r = id + 1 ->
  ids_increasing bound (rows ++ [r]) = true.
Proof.
  revert bound. induction rows as [| x rows IH]; intros bound Hinc Hall Hb Hr; cbn in *.
  - rewrite Hr. rewrite andb_true_r. apply Z.ltb_lt. lia.
  - apply andb_true_iff in Hinc as [Hx Hinc]. apply andb_true_iff in Hall as [Hxi Hall].
    rewrite Hx. cbn [andb]. apply IH; try assumption. apply Z.leb_le in Hxi. exact Hxi.
Qed.

(** X7: message ids are given out in increasing order and never reused:
    a store whose message ids grow along the table and do not exceed
    the AUTOINCREMENT sequence (a new database is one) is still such a
    store after any call of [session_store_add_message], and the
    sequence never goes back. *)
Theorem add_message_keeps_ids_increasing (store : session_store_t)
  (session_id role content : option (list ascii)) (now now' : Z) :
  messages_ok store = true ->
  0 <= messages_seq store ->
  messages_ok (snd (session_store_add_message store session_id role content now now'))
  = true
  /\ messages_seq store
     <= messages_seq (snd (session_store_add_message store session_id role content
                             now now')).
Proof.
  intros Hok Hseq.
  rewrite session_store_add_message_outcome.
  destruct session_id as [sid |], role as [r |], content as [c |];
    cbn [snd]; try (split; [exact Hok | lia]).
  unfold messages_ok in *. apply andb_true_iff in Hok as [Hinc Hall].
  cbn [messages messages_seq]. split; [| lia].
  apply andb_true_iff. split.
  - apply (ids_increasing_app _ _ (messages_seq store)); auto.
  - rewrite forallb_app. cbn [forallb m_id]. rewrite !andb_true_iff.
    split; [| split; [apply Z.leb_le; lia | reflexivity]].
    rewrite forallb_forall in *. intros x Hx. specialize (Hall x Hx).
    apply Z.leb_le in Hall. apply Z.leb_le. lia.
Qed.

Lemma add_message_keeps_ids_increasing_witness :
  messages_ok (snd (session_store_add_message session_store_open_new
                      (Some (str "s")) (Some (str "user")) (Some (str "hi")) 5 5))
  = true
  /\ messages_seq session_store_open_new
     <= messages_seq (snd (session_store_add_message session_store_open_new
                             (Some (str "s")) (Some (str "user")) (Some (str "hi")) 5 5)).
Proof.
  apply (add_message_keeps_ids_increasing session_store_open_new).
  - reflexivity.
  - vm_compute. discriminate.
Defined.

(** *** History after an append *)

Lemma sorted_desc_head_max (h : message_row) (t : list message_row) (x : message_row) :
  sorted_desc (h :: t) = true -> In x (h :: t) -> m_created_at x <= m_created_at h.
Proof.
  intros Hs Hin. apply sorted_desc_cons in Hs as [Hall _].
  destruct Hin as [<- | Hin]; [lia |].
  rewrite Forall_forall in Hall. apply Hall, list_elem_of_In, Hin.
Qed.

(** The query always has a result, so the function always returns. *)
Lemma session_store_get_history_returns (store : session_store_t)
  (session_id : option (list ascii)) (limit : Z) :
  session_store_get_history store session_id limit
    (history_json
       (take (Z.to_nat (effective_limit limit))
          (order_desc (select_where store (bind_text session_id))))).
Proof.
  eexists. split; [| reflexivity].
  exists (order_desc (select_where store (bind_text session_id))).
  split; [apply order_desc_perm |]. split; [apply order_desc_sorted | reflexivity].
Qed.

(** X8: right after a message is appended with a time later than every
    message the session had, [session_store_get_history] returns for
    that session, whatever the limit, and what it returns starts with
    the new message, rendered with its role and content as they are;
    the rows behind it are older messages of the same session, and with
    the new one they are at most as many as the limit in force. *)
Theorem history_starts_with_newest (store : session_store_t)
  (sid role content : list ascii) (now now' limit : Z) :
  Forall (fun m => m_session_id m = sid -> m_created_at m < now) (messages store) ->
  let store' :=
    snd (session_store_add_message store (Some sid) (Some role) (Some content) now now') in
  (exists out, session_store_get_history store' (Some sid) limit out)
  /\ forall out,
       session_store_get_history store' (Some sid) limit out ->
       exists older,
         out = str "[{" ++ quoted (str "role") ++ str ":" ++ quoted role ++ str ","
               ++ quoted (str "content") ++ str ":" ++ quoted content ++ str "}"
               ++ render_rows false older ++ str "]"
         /\ Forall (fun m => In m (messages store) /\ m_session_id m = sid) older
         /\ (S (length older) <= Z.to_nat (effective_limit limit))%nat.
Proof.
  intros Hold store'. split.
  { eexists. apply session_store_get_history_returns. }
  intros out (rows & (ordered & Hperm & Hsorted & ->) & ->).
  unfold store' in Hperm.
  rewrite session_store_add_message_outcome in Hperm. cbn [snd bind_text] in Hperm.
  set (new := {| m_id := messages_seq store + 1; m_session_id := sid; m_role := role;
                 m_content := content; m_created_at := now |}) in *.
  rewrite select_where_text in Hperm. cbn [messages] in Hperm.
  rewrite List.filter_app in Hperm. cbn [List.filter] in Hperm.
  assert (Hself : list_eqb (m_session_id new) sid = true) by (apply list_eqb_eq; reflexivity).
  rewrite Hself in Hperm.
  assert (Hnew : In new ordered).
  { apply list_elem_of_In. rewrite Hperm. apply elem_of_app. right. constructor. }
  destruct ordered as [| h t]; [destruct Hnew |].
  assert (Hh : h = new).
  { assert (Hhin : h ∈ List.filter (fun m => list_eqb (m_session_id m) sid) (messages store)
                       ++ [new]).
    { rewrite <- Hperm. constructor. }
    apply elem_of_app in Hhin as [Hhold | Hhnew].
    - exfalso. apply list_elem_of_In, filter_In in Hhold as [Hin Hsid].
      apply list_eqb_eq in Hsid.
      rewrite Forall_forall in Hold.
      pose proof (Hold h (proj2 (list_elem_of_In _ _) Hin) Hsid) as Hlt.
      pose proof (sorted_desc_head_max h t new Hsorted Hnew) as Hle.
      subst new. cbn [m_created_at] in Hle. lia.
    - apply list_elem_of_singleton in Hhnew. exact Hhnew. }
  subst h.
  assert (Ht : t ≡ₚ List.filter (fun m => list_eqb (m_session_id m) sid) (messages store)).
  { apply (Permutation_cons_inv (a := new)). rewrite Hperm.
    symmetry. apply Permutation_cons_append. }
  pose proof (effective_limit_pos limit) as Hpos.
  destruct (Z.to_nat (effective_limit limit)) as [| n] eqn:Hn; [lia |].
  cbn [take]. exists (take n t). split; [| split].
  - unfold history_json. cbn [render_rows]. unfold render_row.
    cbn [m_role m_content new]. rewrite <- !app_assoc. reflexivity.
  - apply Forall_take. rewrite Ht. apply Forall_forall. intros m Hm.
    apply list_elem_of_In, filter_In in Hm as [Hin Hsid].
    split; [exact Hin | apply list_eqb_eq, Hsid].
  - rewrite length_take. lia.
Qed.

Lemma history_starts_with_newest_witness :
  let add sid role content t st :=
    snd (session_store_add_message st (Some (str sid)) (Some (str role))
           (Some (str content)) t t) in
  let store :=
    add "t" "user" "other" 9
      (add "s" "assistant" "old2" 4
         (add "s" "user" "old1" 3 session_store_open_new)) in
  let store' :=
    snd (session_store_add_message store (Some (str "s")) (Some (str "user"))
           (Some (str "new")) 5 5) in
  ((exists out, session_store_get_history store' (Some (str "s")) 2 out)
   /\ forall out,
        session_store_get_history store' (Some (str "s")) 2 out ->
        exists older,
          out = str "[{" ++ quoted (str "role") ++ str ":" ++ quoted (str "user") ++ str ","
                ++ quoted (str "content") ++ str ":" ++ quoted (str "new") ++ str "}"
                ++ render_rows false older ++ str "]"
          /\ Forall (fun m => In m (messages store) /\ m_session_id m = str "s") older
          /\ (S (length older) <= Z.to_nat (effective_limit 2))%nat)
  /\ session_store_get_history store' (Some (str "s")) 2
       (str "[{" ++ quoted (str "role") ++ str ":" ++ quoted (str "user") ++ str ","
        ++ quoted (str "content") ++ str ":" ++ quoted (str "new") ++ str "},{"
        ++ quoted (str "role") ++ str ":" ++ quoted (str "assistant") ++ str ","
        ++ quoted (str "content") ++ str ":" ++ quoted (str "old2") ++ str "}]").
Proof.
  intros add store store'. split.
  - apply (history_starts_with_newest store (str "s") (str "user") (str "new") 5 5 2).
    vm_compute.
    repeat (constructor 2; [intros Hs; first [reflexivity | discriminate Hs] |]).
    constructor 1.
  - pose proof (session_store_get_history_returns store' (Some (str "s")) 2) as H.
    vm_compute in H. vm_compute. exact H.
Defined.

(** X9: asked for a session without messages, or for a NULL session
    id, [session_store_get_history] returns, and returns the two
    characters of an empty array. *)
Theorem history_of_unknown_session_is_empty (store : session_store_t)
  (session_id : option (list ascii)) (limit : Z) :
  Forall (fun m => Some (m_session_id m) <> session_id) (messages store) ->
  session_store_get_history store session_id limit (str "[]")
  /\ forall out, session_store_get_history store session_id limit out -> out = str "[]".
Proof.
  intros Hnone.
  assert (Hsel : select_where store (bind_text session_id) = []).
  { unfold select_where. induction Hnone as [| m ms Hm Hms IH]; [reflexivity |].
    cbn [List.filter]. rewrite IH.
    destruct session_id as [sid |]; cbn [bind_text sql_eq where_holds]; [| reflexivity].
    destruct (list_eqb (m_session_id m) sid) eqn:E; [| reflexivity].
    apply list_eqb_eq in E. congruence. }
  split.
  - pose proof (session_store_get_history_returns store session_id limit) as H.
    rewrite Hsel in H. cbn [order_desc fold_right] in H. rewrite take_nil in H. exact H.
  - intros out (rows & (ordered & Hperm & _ & ->) & ->).
    rewrite Hsel in Hperm. apply Permutation_nil_r in Hperm. subst ordered.
    rewrite take_nil. reflexivity.
Qed.

Lemma history_of_unknown_session_is_empty_witness :
  let store :=
    snd (session_store_add_message session_store_open_new (Some (str "s"))
           (Some (str "user")) (Some (str "hi")) 5 5) in
  (* a session that has no message *)
  (session_store_get_history store (Some (str "nobody")) 10 (str "[]")
   /\ forall out,
        session_store_get_history store (Some (str "nobody")) 10 out -> out = str "[]")
  (* a NULL session id *)
  /\ (session_store_get_history store None 10 (str "[]")
      /\ forall out, session_store_get_history store None 10 out -> out = str "[]")
  (* the session that has one *)
  /\ ~ session_store_get_history store (Some (str "s")) 10 (str "[]").
Proof.
  intros store. split; [| split].
  - apply (history_of_unknown_session_is_empty store (Some (str "nobody")) 10).
    vm_compute. repeat constructor; discriminate.
  - apply (history_of_unknown_session_is_empty store None 10).
    vm_compute. repeat constructor; discriminate.
  - intros (rows & (ordered & Hperm & _ & ->) & Hout).
    vm_compute in Hperm. apply Permutation_length in Hperm.
    destruct ordered as [| r [| r' rest]]; try discriminate Hperm.
    vm_compute in Hout. discriminate Hout.
Defined.

End SessionOpsFacts.

(** ** Tool registry: registration *)

Module ToolRegisterFacts.
Import Tool.

Section WithExecutors.

Variable exec_fn : Type.
Variable call_exec :
  exec_fn -> kelp_tool_ctx_t exec_fn -> string -> kelp_tool_result_t ->
  Z * kelp_tool_result_t.

(** X10: after a definition with a name and an executor is registered,
    executing that name calls that executor exactly once, on the
    arguments given (an empty object when they are NULL) and a zeroed
    result, and hands back what the executor returned, untouched; the
    entries under other names are as before. *)
Theorem register_then_execute (ctx : kelp_tool_ctx_t exec_fn)
  (def : kelp_tool_def_t exec_fn) (nm : string) (e : exec_fn)
  (args_json : option string) :
  def_name exec_fn def = Some nm ->
  def_exec exec_fn def = Some e ->
  exists ctx',
    kelp_tool_register exec_fn (Some ctx) (Some def) = (0, Some ctx')
    /\ kelp_tool_execute exec_fn call_exec (Some ctx') (Some nm) args_json true
       = {| ex_rc := fst (call_exec e ctx' (default "{}"%string args_json) result_zero);
            ex_result :=
              Some (snd (call_exec e ctx' (default "{}"%string args_json) result_zero));
            ex_called := [(e, default "{}"%string args_json)] |}
    /\ forall other, other <> nm ->
         tools exec_fn ctx' !! other = tools exec_fn ctx !! other.
Proof.
  intros Hn He. unfold kelp_tool_register. rewrite Hn, He.
  destruct (tools exec_fn ctx !! nm) as [old |] eqn:Hold.
  - eexists. split; [reflexivity |]. split.
    + unfold kelp_tool_execute. cbn [tools]. rewrite lookup_insert_eq. cbn [exec].
      destruct (call_exec _ _ _ _). reflexivity.
    + intros other Hne. cbn [tools].
      rewrite lookup_insert_ne, lookup_delete_ne by congruence. reflexivity.
  - eexists. split; [reflexivity |]. split.
    + unfold kelp_tool_execute. cbn [tools]. rewrite lookup_insert_eq. cbn [exec].
      destruct (call_exec _ _ _ _). reflexivity.
    + intros other Hne. cbn [tools]. rewrite lookup_insert_ne by congruence. reflexivity.
Qed.

(** X11: [tool_count] is the number of registered names.  Any call of
    [kelp_tool_register] keeps that so: a definition without a name or
    an executor is refused and changes nothing, a new name adds one,
    and a name that is already registered is replaced without changing
    the count. *)
Theorem register_keeps_tool_count (ctx : kelp_tool_ctx_t exec_fn)
  (def : option (kelp_tool_def_t exec_fn)) :
  tool_count exec_fn ctx = Z.of_nat (size (tools exec_fn ctx)) ->
  exists ctx',
    snd (kelp_tool_register exec_fn (Some ctx) def) = Some ctx'
    /\ tool_count exec_fn ctx' = Z.of_nat (size (tools exec_fn ctx'))
    /\ match def with
       | Some d =>
           match def_name exec_fn d, def_exec exec_fn d with
           | Some nm, Some _ =>
               fst (kelp_tool_register exec_fn (Some ctx) def) = 0
               /\ tool_count exec_fn ctx'
                  = tool_count exec_fn ctx
                    + (if decide (is_Some (tools exec_fn ctx !! nm)) then 0 else 1)
           | _, _ =>
               fst (kelp_tool_register exec_fn (Some ctx) def) = -1 /\ ctx' = ctx
           end
       | None => fst (kelp_tool_register exec_fn (Some ctx) def) = -1 /\ ctx' = ctx
       end.
Proof.
  intros Hcount. unfold kelp_tool_register.
  destruct def as [d |]; [| exists ctx; auto].
  destruct (def_name exec_fn d) as [nm |]; [| exists ctx; auto].
  destruct (def_exec exec_fn d) as [e |]; [| exists ctx; auto].
  destruct (tools exec_fn ctx !! nm) as [old |] eqn:Hold.
  - eexists. split; [reflexivity |]. cbn [fst snd tool_count tools].
    rewrite map_size_insert_None by apply lookup_delete_eq.
    assert (Hsz : size (tools exec_fn ctx) = S (size (delete nm (tools exec_fn ctx)))).
    { rewrite <- (insert_delete_id (tools exec_fn ctx) nm old) at 1 by exact Hold.
      apply map_size_insert_None, lookup_delete_eq. }
    destruct (decide (is_Some (Some old))) as [_ | Hn]; [| exfalso; apply Hn; eauto].
    split; [lia |]. split; [reflexivity | lia].
  - eexists. split; [reflexivity |]. cbn [fst snd tool_count tools].
    rewrite map_size_insert_None by exact Hold.
    destruct (decide (is_Some None)) as [[? Hs] | _]; [discriminate |].
    split; [lia |]. split; [reflexivity | lia].
Qed.

Lemma register_some (ctx : kelp_tool_ctx_t exec_fn) (def : kelp_tool_def_t exec_fn) :
  exists ctx',
    snd (kelp_tool_register exec_fn (Some ctx) (Some def)) = Some ctx'
    /\ (forall other, def_name exec_fn def <> Some other ->
          tools exec_fn ctx' !! other = tools exec_fn ctx !! other)
    /\ (forall nm e, def_name exec_fn def = Some nm -> def_exec exec_fn def = Some e ->
          exists entry, tools exec_fn ctx' !! nm = Some entry /\ exec exec_fn entry = e).
Proof.
  unfold kelp_tool_register.
  destruct (def_name exec_fn def) as [nm |]; [| exists ctx; repeat split; auto; discriminate].
  destruct (def_exec exec_fn def) as [e |]; [| exists ctx; repeat split; auto; discriminate].
  destruct (tools exec_fn ctx !! nm); eexists; (split; [reflexivity |]); cbn [tools]; split.
  - intros other Hne. rewrite lookup_insert_ne, lookup_delete_ne by congruence. reflexivity.
  - intros nm' e' [= <-] [= <-]. rewrite lookup_insert_eq. eauto.
  - intros other Hne. rewrite lookup_insert_ne by congruence. reflexivity.
  - intros nm' e' [= <-] [= <-]. rewrite lookup_insert_eq. eauto.
Qed.

End WithExecutors.

Lemma register_then_execute_witness :
  let ctx := kelp_tool_ctx_new nat (Some "/tmp"%string) in
  let def := ToolDefaults.desktop_def nat 7%nat "desktop_click" "Click" "{}" in
  let run := fun (e : nat) (_ : kelp_tool_ctx_t nat) (_ : string) (r : kelp_tool_result_t) =>
               (Z.of_nat e, r) in
  exists ctx',
    kelp_tool_register nat (Some ctx) (Some def) = (0, Some ctx')
    /\ kelp_tool_execute nat run (Some ctx') (Some "desktop_click"%string) None true
       = {| ex_rc := fst (run 7%nat ctx' (default "{}"%string None) result_zero);
            ex_result := Some (snd (run 7%nat ctx' (default "{}"%string None) result_zero));
            ex_called := [(7%nat, default "{}"%string None)] |}
    /\ forall other, other <> "desktop_click"%string ->
         tools nat ctx' !! other = tools nat ctx !! other.
Proof.
  intros ctx def run.
  apply (register_then_execute nat run ctx def "desktop_click" 7%nat None);
    reflexivity.
Defined.

Lemma register_keeps_tool_count_witness :
  let ctx := kelp_tool_ctx_new nat None in
  let def := ToolDefaults.desktop_def nat 7%nat "desktop_click" "Click" "{}" in
  exists ctx',
    snd (kelp_tool_register nat (Some ctx) (Some def)) = Some ctx'
    /\ tool_count nat ctx' = Z.of_nat (size (tools nat ctx'))
    /\ fst (kelp_tool_register nat (Some ctx) (Some def)) = 0
    /\ tool_count nat ctx'
       = tool_count nat ctx
         + (if decide (is_Some (tools nat ctx !! "desktop_click"%string)) then 0 else 1).
Proof.
  intros ctx def.
  destruct (register_keeps_tool_count nat ctx (Some def)) as (ctx' & H1 & H2 & H3);
    [reflexivity |].
  exists ctx'. cbn in H3. tauto.
Defined.

End ToolRegisterFacts.

(** ** Default tools *)

Module ToolDefaultsFacts.
Import Tool ToolDefaults ToolRegisterFacts.

Section WithExecutors.

Variable exec_fn : Type.
Variable noop : exec_fn.
Variable bash_def file_read_def file_write_def web_fetch_def : kelp_tool_def_t exec_fn.
Variable call_exec :
  exec_fn -> kelp_tool_ctx_t exec_fn -> string -> kelp_tool_result_t ->
  Z * kelp_tool_result_t.

Lemma register_step_some (acc : Z * option (kelp_tool_ctx_t exec_fn))
  (ctx : kelp_tool_ctx_t exec_fn) (def : kelp_tool_def_t exec_fn) :
  snd acc = Some ctx ->
  exists ctx',
    snd (register_step exec_fn acc def) = Some ctx'
    /\ (forall other, def_name exec_fn def <> Some other ->
          tools exec_fn ctx' !! other = tools exec_fn ctx !! other)
    /\ (forall nm e, def_name exec_fn def = Some nm -> def_exec exec_fn def = Some e ->
          exists entry, tools exec_fn ctx' !! nm = Some entry /\ exec exec_fn entry = e).
Proof.
  intros Hacc. unfold register_step. rewrite Hacc.
  destruct (register_some exec_fn ctx def) as (ctx' & Hs & Hrest).
  destruct (kelp_tool_register exec_fn (Some ctx) (Some def)) as [rc c].
  cbn [snd] in *. subst c. eauto.
Qed.

(** Registering a list of definitions leaves, under each name it
    defines with an executor, the executor of the last definition of
    that name. *)
Lemma fold_register_last (defs : list (kelp_tool_def_t exec_fn))
  (acc : Z * option (kelp_tool_ctx_t exec_fn)) (ctx : kelp_tool_ctx_t exec_fn) :
  snd acc = Some ctx ->
  exists ctx',
    snd (fold_left (register_step exec_fn) defs acc) = Some ctx'
    /\ (forall other, Forall (fun d => def_name exec_fn d <> Some other) defs ->
          tools exec_fn ctx' !! other = tools exec_fn ctx !! other)
    /\ (forall pre d post nm e,
          defs = pre ++ d :: post ->
          def_name exec_fn d = Some nm -> def_exec exec_fn d = Some e ->
          Forall (fun d' => def_name exec_fn d' <> Some nm) post ->
          exists entry, tools exec_fn ctx' !! nm = Some entry /\ exec exec_fn entry = e).
Proof.
  revert acc ctx. induction defs as [| d0 defs IH]; intros acc ctx Hacc.
  - exists ctx. cbn. split; [exact Hacc |]. split; [reflexivity |].
    intros [| ? ?] ? ? ? ? Heq; discriminate Heq.
  - cbn [fold_left].
    destruct (register_step_some acc ctx d0 Hacc) as (c1 & Hs1 & Hoth1 & Hnew1).
    destruct (IH _ c1 Hs1) as (c2 & Hs2 & Hoth2 & Hnew2).
    exists c2. split; [exact Hs2 |]. split.
    + intros other Hall. inversion Hall as [| ? ? Hd Hrest]; subst.
      rewrite Hoth2 by exact Hrest. apply Hoth1, Hd.
    + intros pre d post nm e Heq Hn He Hpost.
      destruct pre as [| p pre]; cbn [app] in Heq; injection Heq as <- ->.
      * rewrite Hoth2 by exact Hpost. apply (Hnew1 nm e Hn He).
      * apply (Hnew2 pre d post nm e eq_refl Hn He Hpost).
Qed.

(** X12: after [kelp_tool_register_defaults], whatever the four external
    tool definitions are, each of the five desktop tools is registered
    with the forwarding shim: executing it does nothing on the host and
    returns the marker text, without error and with exit code 0. *)
Theorem desktop_tools_are_forwarding_shims (ctx : kelp_tool_ctx_t exec_fn)
  (nm : string) (args_json : option string) :
  (forall c a r, call_exec noop c a r = desktop_tool_noop r) ->
  In nm desktop_names ->
  exists ctx',
    snd (kelp_tool_register_defaults exec_fn noop bash_def file_read_def
           file_write_def web_fetch_def (Some ctx)) = Some ctx'
    /\ kelp_tool_execute exec_fn call_exec (Some ctx') (Some nm) args_json true
       = {| ex_rc := 0;
            ex_result := Some {| output := Some "[forwarded to desktop]"%string;
                                 is_error := false; exit_code := 0 |};
            ex_called := [(noop, default "{}"%string args_json)] |}.
Proof.
  intros Hcall Hin. unfold kelp_tool_register_defaults.
  destruct (fold_register_last
              ([bash_def; file_read_def; file_write_def; web_fetch_def]
               ++ kelp_desktop_tools exec_fn noop) (0, Some ctx) ctx eq_refl)
    as (ctx' & Hs & _ & Hnew).
  exists ctx'. split; [exact Hs |].
  assert (Hentry : exists entry,
            tools exec_fn ctx' !! nm = Some entry /\ exec exec_fn entry = noop).
  { unfold desktop_names in Hin. cbn [In] in Hin.
    destruct Hin as [<- | [<- | [<- | [<- | [<- | []]]]]].
    - apply (Hnew [bash_def; file_read_def; file_write_def; web_fetch_def] _ _ _ noop
               eq_refl eq_refl eq_refl).
      repeat constructor; discriminate.
    - apply (Hnew [bash_def; file_read_def; file_write_def; web_fetch_def; _] _ _ _ noop
               eq_refl eq_refl eq_refl).
      repeat constructor; discriminate.
    - apply (Hnew [bash_def; file_read_def; file_write_def; web_fetch_def; _; _] _ _ _ noop
               eq_refl eq_refl eq_refl).
      repeat constructor; discriminate.
    - apply (Hnew [bash_def; file_read_def; file_write_def; web_fetch_def; _; _; _]
               _ _ _ noop eq_refl eq_refl eq_refl).
      repeat constructor; discriminate.
    - apply (Hnew [bash_def; file_read_def; file_write_def; web_fetch_def; _; _; _; _]
               _ _ _ noop eq_refl eq_refl eq_refl).
      constructor. }
  destruct Hentry as (entry & Hlook & Hexec).
  unfold kelp_tool_execute. rewrite Hlook, Hexec, Hcall. reflexivity.
Qed.

End WithExecutors.

Lemma desktop_tools_are_forwarding_shims_witness :
  let bash := desktop_def nat 1%nat "bash" "Run a command" "{}" in
  let ctx := kelp_tool_ctx_new nat None in
  let run := fun (_ : nat) (_ : kelp_tool_ctx_t nat) (_ : string) r => desktop_tool_noop r in
  exists ctx',
    snd (kelp_tool_register_defaults nat 0%nat bash bash bash bash (Some ctx)) = Some ctx'
    /\ kelp_tool_execute nat run (Some ctx') (Some "desktop_type"%string) None true
       = {| ex_rc := 0;
            ex_result := Some {| output := Some "[forwarded to desktop]"%string;
                                 is_error := false; exit_code := 0 |};
            ex_called := [(0%nat, default "{}"%string None)] |}.
Proof.
  intros bash ctx run.
  apply (desktop_tools_are_forwarding_shims nat 0%nat bash bash bash bash run ctx
           "desktop_type" None).
  - reflexivity.
  - cbn. tauto.
Defined.

End ToolDefaultsFacts.

(** ** HTTP parser: what a parsed request holds *)

Module RequestFacts.
Import Mach Cstr Http RequestBounds ParserFacts.

Lemma slice_length (s : list ascii) (from to : nat) :
  (length (slice s from to) <= to - from)%nat.
Proof. unfold slice. rewrite length_take. lia. Qed.

Lemma parse_headers_keeps_line (fuel : nat) (s : list ascii) (header_end hdr_line : nat)
  (req : http_request_t) :
  let req' := parse_headers fuel s header_end hdr_line req in
  method req' = method req /\ url req' = url req /\ path req' = path req
  /\ query req' = query req /\ body req' = body req /\ body_len req' = body_len req
  /\ content_length req' = content_length req.
Proof.
  revert hdr_line req. induction fuel as [| fuel IH]; intros hdr_line req; cbn [parse_headers];
    [tauto |].
  destruct (_ && _); [| tauto].
  destruct (strstr_at s hdr_line CRLF) as [next_line |]; [| tauto].
  destruct (next_line =? hdr_line)%nat; [tauto |].
  match goal with
  | |- context [parse_headers fuel s header_end ?h ?r] =>
      destruct (IH h r) as (H1 & H2 & H3 & H4 & H5 & H6 & H7);
      assert (Hr : method r = method req /\ url r = url req /\ path r = path req
                   /\ query r = query req /\ body r = body req
                   /\ body_len r = body_len req
                   /\ content_length r = content_length req)
  end.
  { destruct (strchr_at s hdr_line ":") as [colon |]; [| tauto].
    destruct (colon <? next_line)%nat; [| tauto]. cbn. tauto. }
  cbv zeta. destruct Hr as (R1 & R2 & R3 & R4 & R5 & R6 & R7).
  rewrite H1, H2, H3, H4, H5, H6, H7. tauto.
Qed.

Lemma headers_fit_store (s : list ascii) (hdr_line colon next_line : nat)
  (req : http_request_t) :
  (header_count req < GW_MAX_HEADERS)%nat ->
  length (headers req) = GW_MAX_HEADERS ->
  forallb (fun h => (length (key h) <? HEADER_KEY_SIZE)%nat
                    && (length (value h) <? HEADER_VALUE_SIZE)%nat) (headers req) = true ->
  let req' := store_header s hdr_line colon next_line req in
  (header_count req' <= GW_MAX_HEADERS)%nat
  /\ length (headers req') = GW_MAX_HEADERS
  /\ forallb (fun h => (length (key h) <? HEADER_KEY_SIZE)%nat
                       && (length (value h) <? HEADER_VALUE_SIZE)%nat) (headers req') = true.
Proof.
  intros Hc Hl Hall. unfold store_header. cbn [header_count headers with_headers].
  split; [lia |]. split; [rewrite length_insert; exact Hl |].
  rewrite forallb_forall in *. intros h Hin.
  apply list_elem_of_In, list_elem_of_lookup in Hin as [j Hj].
  destruct (decide (j = header_count req)) as [-> | Hne].
  - rewrite list_lookup_insert_eq in Hj by lia. injection Hj as <-. cbn [key value].
    assert (Hslot : (length (key (nth (header_count req) (headers req)
                                    {| key := []; value := [] |})) <? HEADER_KEY_SIZE)%nat
                    && (length (value (nth (header_count req) (headers req)
                                         {| key := []; value := [] |}))
                        <? HEADER_VALUE_SIZE)%nat = true).
    { apply Hall, nth_In. lia. }
    apply andb_true_iff in Hslot as [Hk Hv].
    apply andb_true_iff. split.
    + destruct (Nat.ltb_spec (colon - hdr_line) HEADER_KEY_SIZE); [| exact Hk].
      apply Nat.ltb_lt. pose proof (slice_length s hdr_line colon). lia.
    + destruct (Nat.ltb_spec (next_line - skip_spaces s (colon + 1)) HEADER_VALUE_SIZE);
        [| exact Hv].
      apply Nat.ltb_lt.
      pose proof (slice_length s (skip_spaces s (colon + 1)) next_line). lia.
  - rewrite list_lookup_insert_ne in Hj by congruence.
    apply Hall, list_elem_of_In, list_elem_of_lookup. eauto.
Qed.

Lemma headers_fit_parse (fuel : nat) (s : list ascii) (header_end hdr_line : nat)
  (req : http_request_t) :
  (header_count req <= GW_MAX_HEADERS)%nat ->
  length (headers req) = GW_MAX_HEADERS ->
  forallb (fun h => (length (key h) <? HEADER_KEY_SIZE)%nat
                    && (length (value h) <? HEADER_VALUE_SIZE)%nat) (headers req) = true ->
  let req' := parse_headers fuel s header_end hdr_line req in
  (header_count req' <= GW_MAX_HEADERS)%nat
  /\ length (headers req') = GW_MAX_HEADERS
  /\ forallb (fun h => (length (key h) <? HEADER_KEY_SIZE)%nat
                       && (length (value h) <? HEADER_VALUE_SIZE)%nat) (headers req') = true.
Proof.
  revert hdr_line req. induction fuel as [| fuel IH]; intros hdr_line req Hc Hl Hall;
    cbn [parse_headers]; [auto |].
  destruct (Nat.ltb_spec hdr_line header_end); cbn [andb]; [| auto].
  destruct (Nat.ltb_spec (header_count req) GW_MAX_HEADERS) as [Hlt | Hge]; [| auto].
  destruct (strstr_at s hdr_line CRLF) as [next_line |]; [| auto].
  destruct (next_line =? hdr_line)%nat; [auto |].
  destruct (strchr_at s hdr_line ":") as [colon |]; [| apply IH; auto].
  destruct (colon <? next_line)%nat; [| apply IH; auto].
  destruct (headers_fit_store s hdr_line colon next_line req Hlt Hl Hall) as (A & B & C).
  apply IH; assumption.
Qed.

Lemma request_fits_iff (req : http_request_t) :
  request_fits req = true <->
  (length (url req) < GW_MAX_URL_LEN)%nat
  /\ (length (path req) < GW_MAX_URL_LEN)%nat
  /\ (length (query req) < GW_MAX_URL_LEN)%nat
  /\ (header_count req <= GW_MAX_HEADERS)%nat
  /\ length (headers req) = GW_MAX_HEADERS
  /\ forallb (fun h => (length (key h) <? HEADER_KEY_SIZE)%nat
                       && (length (value h) <? HEADER_VALUE_SIZE)%nat) (headers req) = true.
Proof.
  unfold request_fits.
  rewrite !andb_true_iff, !Nat.ltb_lt, Nat.leb_le, Nat.eqb_eq. tauto.
Qed.

Lemma request_fits_line (s : list ascii) (header_end space1 space2 : nat)
  (req0 : http_request_t) :
  request_fits req0 = true ->
  (space2 - S space1 < GW_MAX_URL_LEN)%nat ->
  request_fits (parse_request_line_and_headers s header_end space1 space2 req0) = true.
Proof.
  intros Hfit Hurl. apply request_fits_iff in Hfit as (_ & _ & _ & Hc & Hl & Hall).
  unfold parse_request_line_and_headers.
  set (u := slice s (S space1) space2).
  assert (Hu : (length u < GW_MAX_URL_LEN)%nat)
    by (pose proof (slice_length s (S space1) space2); subst u; lia).
  destruct (match find_sub ["?"%char] u with
            | Some qmark => (take qmark u, drop (S qmark) u)
            | None => (u, [])
            end) as [p q] eqn:Hpq.
  assert (Hp : (length p <= length u)%nat /\ (length q <= length u)%nat).
  { destruct (find_sub ["?"%char] u); injection Hpq as <- <-.
    - rewrite length_take, length_drop. lia.
    - cbn. lia. }
  set (req1 := {| method := parse_method (slice s 0 space1); url := u; path := p;
                  query := q; version_major := 1; version_minor := 1;
                  headers := headers req0; header_count := 0; body := body req0;
                  body_len := body_len req0; content_length := content_length req0 |}).
  assert (H1 : request_fits req1 = true).
  { apply request_fits_iff. subst req1. cbn. repeat split; try assumption; lia. }
  set (req2 := match option_map (fun i => (i + 2)%nat) (strstr_at s 0 CRLF) with
               | Some h => parse_headers (length s) s header_end h req1
               | None => req1
               end).
  assert (H2 : request_fits req2 = true).
  { subst req2. destruct (option_map _ _) as [h |]; [| exact H1].
    apply request_fits_iff in H1 as (A & B & C & D & E & F).
    pose proof (parse_headers_keeps_line (length s) s header_end h req1)
      as (_ & K2 & K3 & K4 & _).
    pose proof (headers_fit_parse (length s) s header_end h req1 D E F) as (G1 & G2 & G3).
    apply request_fits_iff. rewrite K2, K3, K4. repeat split; assumption. }
  destruct (find_header req2 (str "Content-Length")); [| exact H2].
  apply request_fits_iff in H2. apply request_fits_iff. cbn. exact H2.
Qed.

Lemma take_body_fits (conn : connection_t) (n : nat) :
  request_fits (request conn) = true ->
  request_fits (request (snd (take_body conn n))) = true.
Proof.
  intros H. unfold take_body. destruct (_ <=? _); [| exact H].
  apply request_fits_iff in H. apply request_fits_iff. cbn. exact H.
Qed.

(** X13: the parser never writes past an array of the request: if the
    URL, path and query are shorter than [GW_MAX_URL_LEN], the header
    keys shorter than 256, the values shorter than 512 and at most
    [GW_MAX_HEADERS] of the 64 slots are in use (all true of a zeroed
    request), the same holds after [http_parse_request], whatever
    bytes are in the read buffer. *)
Theorem http_parse_request_keeps_request_in_bounds (conn : connection_t) :
  request_fits (request conn) = true ->
  request_fits (request (snd (http_parse_request conn))) = true.
Proof.
  intros Hfit. unfold http_parse_request.
  destruct (state conn); try exact Hfit.
  - destruct (strstr_at _ 0 (CRLF ++ CRLF)) as [header_end |]; [| exact Hfit].
    destruct (strchr_at _ 0 " ") as [space1 |]; [| exact Hfit].
    assert (Hm : forall m, request_fits
               {| method := m; url := url (request conn); path := path (request conn);
                  query := query (request conn);
                  version_major := version_major (request conn);
                  version_minor := version_minor (request conn);
                  headers := headers (request conn);
                  header_count := header_count (request conn);
                  body := body (request conn); body_len := body_len (request conn);
                  content_length := content_length (request conn) |} = true).
    { intros m. apply request_fits_iff in Hfit. apply request_fits_iff. exact Hfit. }
    destruct (strchr_at _ (S space1) " ") as [space2 |]; [| apply Hm].
    destruct (Nat.leb_spec GW_MAX_URL_LEN (space2 - S space1)); [apply Hm |].
    pose proof (request_fits_line (cstr_view (read_buf conn)) header_end space1 space2
                  (request conn) Hfit ltac:(lia)) as Hline.
    destruct (0 <? _); [apply take_body_fits |]; exact Hline.
  - destruct (strstr_at _ 0 (CRLF ++ CRLF)); [apply take_body_fits |]; exact Hfit.
Qed.

Lemma http_parse_request_keeps_request_in_bounds_witness :
  request_fits
    (request (snd (http_parse_request
                     (Sample.conn_with
                        (str "GET /a?b HTTP/1.1" ++ CRLF ++ str "Host: x" ++ CRLF ++ CRLF)))))
  = true.
Proof.
  apply http_parse_request_keeps_request_in_bounds. reflexivity.
Defined.






Lemma cstr_view_length (buf : list ascii) : (length (cstr_view buf) <= length buf)%nat.
Proof.
  induction buf as [| c buf IH]; cbn; [lia |].
  destruct (Ascii.eqb c NUL); cbn; lia.
Qed.

Lemma is_prefix_length (p s : list ascii) :
  is_prefix p s = true -> (length p <= length s)%nat.
Proof.
  revert s. induction p as [| a p IH]; intros [| b s]; cbn; try lia; try discriminate.
  rewrite andb_true_iff. intros [_ H]. apply IH in H. lia.
Qed.

Lemma find_sub_bound (needle s : list ascii) (i : nat) :
  find_sub needle s = Some i -> (i + length needle <= length s)%nat.
Proof.
  revert i. induction s as [| c s IH]; intros i.
  - cbn. destruct (is_prefix needle []) eqn:E; [| discriminate].
    intros [= <-]. apply is_prefix_length in E. cbn in *. lia.
  - cbn [find_sub]. destruct (is_prefix needle (c :: s)) eqn:E.
    + intros [= <-]. apply is_prefix_length in E. lia.
    + destruct (find_sub needle s) as [j |]; [| discriminate].
      cbn. intros [= <-]. specialize (IH j eq_refl). cbn. lia.
Qed.

Lemma take_body_complete (conn : connection_t) (header_end : nat) :
  read_buffer_ok conn = true ->
  read_len conn = Z.of_nat (length (read_buf conn)) ->
  strstr_at (cstr_view (read_buf conn)) 0 (CRLF ++ CRLF) = Some header_end ->
  fst (take_body conn (header_end + 4)) = 0 ->
  0 < content_length (request conn) ->
  let req := request (snd (take_body conn (header_end + 4))) in
  exists b,
    body req = Some b
    /\ b = take (Z.to_nat (content_length req)) (drop (header_end + 4) (read_buf conn))
    /\ Z.of_nat (length b) = content_length req
    /\ body_len req = content_length req
    /\ content_length req = content_length (request conn).
Proof.
  intros Hok Hexact Hse Hrc Hpos.
  apply read_buffer_ok_inv in Hok as [(k & Hk & Hcap) Hlen].
  assert (Hpow : 2 ^ k <= 128).
  { change 128 with (2 ^ 7). apply Z.pow_le_mono_r; lia. }
  unfold strstr_at in Hse. rewrite drop_0 in Hse.
  destruct (find_sub _ _) as [i |] eqn:Hfind; [| discriminate].
  cbn in Hse. injection Hse as <-.
  apply find_sub_bound in Hfind. cbn [length app CRLF] in Hfind.
  pose proof (cstr_view_length (read_buf conn)) as Hview.
  unfold take_body in *.
  assert (Hav : u64 (read_len conn - Z.of_nat (i + 4))
                = read_len conn - Z.of_nat (i + 4)).
  { unfold u64, two64 in *. apply Z.mod_small. lia. }
  rewrite Hav in *.
  destruct (Z.leb_spec (content_length (request conn))
              (read_len conn - Z.of_nat (i + 4))) as [Hle | Hgt];
    [| cbn in Hrc; discriminate].
  cbn. eexists. split; [reflexivity |]. split; [reflexivity |].
  split; [| split; reflexivity].
  rewrite length_take, length_drop. lia.
Qed.

(** X15: the body.  On a buffer that holds [read_len] bytes, as
    [connection_read] leaves it, when the parser reports a complete
    request with a positive content length, the body it allocated is
    made of exactly [content_length] bytes, those of the read buffer
    that follow the blank line ending the header block, and [body_len]
    is that length. *)
Theorem http_parse_request_body_is_content_length_bytes (conn : connection_t) :
  read_buffer_ok conn = true ->
  read_len conn = Z.of_nat (length (read_buf conn)) ->
  fst (http_parse_request conn) = 0 ->
  0 < content_length (request (snd (http_parse_request conn))) ->
  let req := request (snd (http_parse_request conn)) in
  exists header_end b,
    strstr_at (cstr_view (read_buf conn)) 0 (CRLF ++ CRLF) = Some header_end
    /\ body req = Some b
    /\ b = take (Z.to_nat (content_length req)) (drop (header_end + 4) (read_buf conn))
    /\ Z.of_nat (length b) = content_length req
    /\ body_len req = content_length req.
Proof.
  intros Hok Hexact. unfold http_parse_request.
  destruct (state conn); try (cbn; discriminate).
  - destruct (strstr_at _ 0 (CRLF ++ CRLF)) as [header_end |] eqn:Hse;
      [| cbn; discriminate].
    destruct (strchr_at _ 0 " ") as [space1 |]; [| cbn; discriminate].
    destruct (strchr_at _ (S space1) " ") as [space2 |]; [| cbn; discriminate].
    destruct (GW_MAX_URL_LEN <=? _)%nat; [cbn; discriminate |].
    match goal with
    | |- context [if ?c then take_body ?x ?n else (0, ?y)] =>
        destruct c eqn:Hcl; [set (conn1 := x) | cbn; apply Z.ltb_ge in Hcl; lia]
    end.
    intros Hrc Hpos.
    assert (Hpos1 : 0 < content_length (request conn1)) by (apply Z.ltb_lt; exact Hcl).
    destruct (take_body_complete conn1 header_end Hok Hexact Hse Hrc Hpos1)
      as (b & B1 & B2 & B3 & B4 & _).
    exists header_end, b. repeat split; assumption.
  - destruct (strstr_at _ 0 (CRLF ++ CRLF)) as [header_end |] eqn:Hse;
      [| cbn; discriminate].
    intros Hrc Hpos.
    assert (Hpos1 : 0 < content_length (request conn)).
    { unfold take_body in Hpos. destruct (_ <=? _); exact Hpos. }
    destruct (take_body_complete conn header_end Hok Hexact Hse Hrc Hpos1)
      as (b & B1 & B2 & B3 & B4 & _).
    exists header_end, b. repeat split; assumption.
Qed.

Lemma http_parse_request_body_is_content_length_bytes_witness :
  let conn := Sample.conn_with
                (str "POST /hook HTTP/1.1" ++ CRLF ++ str "content-length:  4" ++ CRLF
                 ++ CRLF ++ str "abcdef") in
  let req := request (snd (http_parse_request conn)) in
  exists header_end b,
    strstr_at (cstr_view (read_buf conn)) 0 (CRLF ++ CRLF) = Some header_end
    /\ body req = Some b
    /\ b = take (Z.to_nat (content_length req)) (drop (header_end + 4) (read_buf conn))
    /\ Z.of_nat (length b) = content_length req
    /\ body_len req = content_length req.
Proof.
  exact (http_parse_request_body_is_content_length_bytes
           (Sample.conn_with
              (str "POST /hook HTTP/1.1" ++ CRLF ++ str "content-length:  4" ++ CRLF
               ++ CRLF ++ str "abcdef"))
           eq_refl eq_refl eq_refl eq_refl).
Defined.

End RequestFacts.

(** ** Reading from the socket *)

Module ReadFacts.
Import Mach Cstr Http ParserFacts.

(** What the loop leaves when it can drain the socket: the pending bytes
    stored from index [read_len] on, or the buffer as it was when
    nothing is pending. *)
Lemma connection_read_loop_drains (fuel : nat) (conn : connection_t) (sock : socket) :
  (length (pending sock) < fuel)%nat ->
  read_buffer_ok conn = true ->
  0 <= read_len conn ->
  read_len conn + Z.of_nat (length (pending sock)) < GW_MAX_BODY_LEN - 1 ->
  on_empty sock = WouldBlock ->
  exists cap,
    connection_read_loop fuel conn sock
    = (0,
       with_buffer conn
         (match pending sock with
          | [] => read_buf conn
          | _ :: _ => take (Z.to_nat (read_len conn)) (read_buf conn) ++ pending sock
          end)
         (read_len conn + Z.of_nat (length (pending sock))) cap,
       {| pending := []; on_empty := WouldBlock |})
    /\ read_cap conn <= cap
    /\ read_buffer_ok
         (with_buffer conn (read_buf conn)
            (read_len conn + Z.of_nat (length (pending sock))) cap) = true.
Proof.
  revert conn sock.
  induction fuel as [| fuel IH]; intros conn sock Hfuel Hok Hpos Hsmall Hwb; [lia |].
  destruct (read_buffer_ok_inv conn Hok) as [(k & Hk & Hcap) Hlen].
  assert (Hpow : 1 <= 2 ^ k <= 128).
  { split; [apply (Z.pow_le_mono_r 2 0 k); lia |].
    change 128 with (2 ^ 7). apply Z.pow_le_mono_r; lia. }
  unfold GW_MAX_BODY_LEN in Hsmall.
  cbn [connection_read_loop].
  assert (Hgrown :
    exists cap k', 0 <= k' <= 7 /\ cap = 8192 * 2 ^ k' /\ read_len conn + 1 < cap
      /\ read_cap conn <= cap
      /\ (if read_cap conn <=? read_len conn + 1
          then if GW_MAX_BODY_LEN + GW_READ_BUF_SIZE <? read_cap conn * 2
               then None else Some (read_cap conn * 2)
          else Some (read_cap conn)) = Some cap).
  { destruct (Z.leb_spec (read_cap conn) (read_len conn + 1)) as [Hgrow | Hgrow].
    - assert (Hk6 : k <= 6).
      { destruct (Z.eq_dec k 7) as [-> | ?]; [| lia].
        rewrite Hcap in Hgrow. change (8192 * 2 ^ 7) with 1048576 in Hgrow. lia. }
      assert (H64 : 2 ^ k <= 64).
      { change 64 with (2 ^ 6). apply Z.pow_le_mono_r; lia. }
      exists (read_cap conn * 2), (k + 1).
      split; [lia |]. split; [rewrite Hcap, Z.pow_add_r by lia; change (2 ^ 1) with 2; lia |].
      split; [lia |]. split; [lia |].
      destruct (Z.ltb_spec (GW_MAX_BODY_LEN + GW_READ_BUF_SIZE) (read_cap conn * 2))
        as [Hmax | _]; [| reflexivity].
      unfold GW_MAX_BODY_LEN, GW_READ_BUF_SIZE in Hmax. lia.
    - exists (read_cap conn), k. repeat split; try assumption; lia. }
  destruct Hgrown as (cap & k' & Hk' & Hcapk & Hroom & Hmono & ->).
  assert (Hr : (cap - read_len conn - 1 <=? 0) = false) by (apply Z.leb_gt; lia).
  rewrite Hr. unfold Sock.read.
  destruct sock as [pend oe]. cbn [pending on_empty] in *. subst oe.
  destruct (take (Z.to_nat (cap - read_len conn - 1)) pend) as [| c chunk] eqn:Hchunk.
  - assert (Hnil : pend = []).
    { destruct pend as [| x pend]; [reflexivity |].
      assert (Hl := f_equal length Hchunk). rewrite length_take in Hl. cbn in Hl. lia. }
    subst pend. exists cap. cbn [length]. rewrite Z.add_0_r.
    split; [reflexivity |]. split; [exact Hmono |].
    apply (read_buffer_ok_intro _ k'); [lia | exact Hcapk |].
    cbn [read_len read_cap with_buffer]. lia.
  - assert (Hne : pend <> []) by (intros ->; rewrite take_nil in Hchunk; discriminate).
    rewrite <- Hchunk.
    pose proof (length_take pend (Z.to_nat (cap - read_len conn - 1))) as Htl.
    assert (Hl : (0 < length (take (Z.to_nat (cap - read_len conn - 1)) pend))%nat)
      by (rewrite Hchunk; cbn; lia).
    set (chunk' := take (Z.to_nat (cap - read_len conn - 1)) pend) in *.
    set (rest := drop (Z.to_nat (cap - read_len conn - 1)) pend).
    assert (Hsplit : pend = chunk' ++ rest) by (symmetry; apply take_drop).
    assert (Hrest : length pend = (length chunk' + length rest)%nat)
      by (rewrite Hsplit at 1; apply length_app).
    set (buf1 := take (Z.to_nat (read_len conn)) (read_buf conn) ++ chunk').
    destruct (IH (with_buffer (with_buffer conn (read_buf conn) (read_len conn) cap)
                    buf1 (read_len conn + Z.of_nat (length chunk')) cap)
                 {| pending := rest; on_empty := WouldBlock |})
      as (cap2 & Heq & Hmono2 & Hok2).
    + cbn [pending]. lia.
    + apply (read_buffer_ok_intro _ k'); [lia | exact Hcapk |].
      cbn [read_len read_cap with_buffer]. lia.
    + cbn [read_len with_buffer]. lia.
    + cbn [read_len pending with_buffer]. unfold GW_MAX_BODY_LEN. lia.
    + reflexivity.
    + exists cap2. cbn [pending read_buf read_len read_cap with_buffer] in Heq, Hmono2, Hok2.
      assert (Hfull : take (Z.to_nat (read_len conn + Z.of_nat (length chunk'))) buf1 = buf1).
      { apply take_ge. unfold buf1. rewrite length_app, length_take. lia. }
      assert (Hbuf : match rest with
                     | [] => buf1
                     | _ :: _ =>
                         take (Z.to_nat (read_len conn + Z.of_nat (length chunk'))) buf1
                         ++ rest
                     end
                     = take (Z.to_nat (read_len conn)) (read_buf conn) ++ pend).
      { transitivity (take (Z.to_nat (read_len conn)) (read_buf conn) ++ chunk' ++ rest);
          [| f_equal; symmetry; exact Hsplit].
        destruct rest; [rewrite app_nil_r; reflexivity |].
        rewrite Hfull. unfold buf1. rewrite <- app_assoc. reflexivity. }
      rewrite Hbuf in Heq.
      replace (read_len conn + Z.of_nat (length chunk') + Z.of_nat (length rest))
        with (read_len conn + Z.of_nat (length pend)) in Heq, Hok2 by lia.
      assert (Hmatch : forall (l : list ascii) (a b : list ascii),
                 l <> [] -> match l with [] => a | _ :: _ => b end = b)
        by (intros l a b H; destruct l; [contradiction | reflexivity]).
      rewrite Hmatch by exact Hne.
      split; [exact Heq |]. split; [lia |]. exact Hok2.
Qed.

(** X16: [connection_read] drains the socket.  Starting from a read
    buffer of a capacity the code can produce that holds [read_len]
    bytes, when the bytes buffered and pending stay below
    [GW_MAX_BODY_LEN - 1] and the socket then reports that it would
    block, the function returns 0, has appended all the pending bytes
    to the buffer in order, left nothing on the socket and kept room
    for the terminating NUL; the buffer again holds [read_len] bytes. *)
Theorem connection_read_drains_socket (conn : connection_t) (sock : socket) :
  read_buffer_ok conn = true ->
  read_len conn = Z.of_nat (length (read_buf conn)) ->
  read_len conn + Z.of_nat (length (pending sock)) < GW_MAX_BODY_LEN - 1 ->
  on_empty sock = WouldBlock ->
  let '(rc, conn', sock') := connection_read conn sock in
  rc = 0
  /\ read_buf conn' = read_buf conn ++ pending sock
  /\ pending sock' = []
  /\ read_buffer_ok conn' = true
  /\ state conn' = state conn /\ request conn' = request conn
  /\ read_len conn' = Z.of_nat (length (read_buf conn')).
Proof.
  intros Hok Hexact Hsmall Hwb. unfold connection_read.
  destruct (connection_read_loop_drains (S (length (pending sock))) conn sock
              ltac:(lia) Hok ltac:(lia) Hsmall Hwb) as (cap & -> & _ & Hok').
  assert (Hbuf : match pending sock with
                 | [] => read_buf conn
                 | _ :: _ => take (Z.to_nat (read_len conn)) (read_buf conn) ++ pending sock
                 end = read_buf conn ++ pending sock).
  { destruct (pending sock); [rewrite app_nil_r; reflexivity |].
    rewrite take_ge by lia. reflexivity. }
  rewrite Hbuf. cbn [read_buf read_len state request with_buffer].
  repeat split.
  - exact Hok'.
  - rewrite length_app. lia.
Qed.

Lemma connection_read_drains_socket_witness :
  let '(rc, conn', sock') :=
    connection_read (Sample.conn_with (str "GET / HT"))
      {| pending := str "TP/1.1"; on_empty := WouldBlock |} in
  rc = 0
  /\ read_buf conn' = read_buf (Sample.conn_with (str "GET / HT")) ++ str "TP/1.1"
  /\ pending sock' = []
  /\ read_buffer_ok conn' = true
  /\ state conn' = state (Sample.conn_with (str "GET / HT"))
  /\ request conn' = request (Sample.conn_with (str "GET / HT"))
  /\ read_len conn' = Z.of_nat (length (read_buf conn')).
Proof.
  exact (connection_read_drains_socket (Sample.conn_with (str "GET / HT"))
           {| pending := str "TP/1.1"; on_empty := WouldBlock |}
           eq_refl eq_refl eq_refl eq_refl).
Defined.

Lemma connection_read_loop_zero_would_block (fuel : nat) (conn : connection_t)
  (sock : socket) :
  fst (fst (connection_read_loop fuel conn sock)) = 0 -> on_empty sock = WouldBlock.
Proof.
  revert conn sock. induction fuel as [| fuel IH]; intros conn sock; cbn [connection_read_loop].
  - cbn. discriminate.
  - destruct (if read_cap conn <=? read_len conn + 1 then _ else _) as [cap |];
      [| cbn; discriminate].
    destruct (cap - read_len conn - 1 <=? 0); [cbn; discriminate |].
    unfold Sock.read.
    destruct (take _ (pending sock)) as [| c chunk].
    + destruct (on_empty sock); [reflexivity | cbn; discriminate ..].
    + intros H. apply IH in H. exact H.
Qed.

(** X17: [connection_read] returns 0 or -1, and 0 only when the last
    [read] reported that it would block: end of stream and every other
    error close the connection's read side with -1, whatever was read
    before. *)
Theorem connection_read_zero_only_on_would_block (conn : connection_t) (sock : socket) :
  on_empty sock <> WouldBlock ->
  fst (fst (connection_read conn sock)) = -1.
Proof.
  intros Hne. unfold connection_read.
  pose proof (connection_read_loop_zero_would_block (S (length (pending sock))) conn sock)
    as Hz.
  assert (Hrc : forall fuel c s,
             fst (fst (connection_read_loop fuel c s)) = 0
             \/ fst (fst (connection_read_loop fuel c s)) = -1).
  { induction fuel as [| fuel IH]; intros c s; cbn [connection_read_loop].
    - right. reflexivity.
    - destruct (if read_cap c <=? read_len c + 1 then _ else _) as [cap |];
        [| right; reflexivity].
      destruct (cap - read_len c - 1 <=? 0); [right; reflexivity |].
      unfold Sock.read.
      destruct (take _ (pending s)) as [| x chunk]; [| apply IH].
      destruct (on_empty s); cbn; auto. }
  destruct (Hrc (S (length (pending sock))) conn sock) as [H0 | H1]; [| exact H1].
  apply Hz in H0. contradiction.
Qed.

Lemma connection_read_zero_only_on_would_block_witness :
  fst (fst (connection_read (Sample.conn_with (str "GET / HT"))
              {| pending := str "TP/1.1"; on_empty := EndOfStream |})) = -1.
Proof.
  exact (connection_read_zero_only_on_would_block (Sample.conn_with (str "GET / HT"))
           {| pending := str "TP/1.1"; on_empty := EndOfStream |}
           ltac:(discriminate)).
Defined.

End ReadFacts.

(** ** Router: patterns and precedence *)

Module RouterFacts.
Import Mach Cstr Http SessionStoreFacts.

Lemma method_eqb_eq (a b : http_method_t) : method_eqb a b = true <-> a = b.
Proof. destruct a, b; cbn; split; congruence. Qed.

Lemma is_prefix_spec (p s : list ascii) :
  is_prefix p s = true <-> exists rest, s = p ++ rest.
Proof.
  revert s. induction p as [| a p IH]; intros s; cbn.
  - split; [intros _; exists s; reflexivity | reflexivity].
  - destruct s as [| b s].
    + split; [discriminate | intros [rest H]; discriminate].
    + rewrite andb_true_iff, Ascii.eqb_eq, IH. split.
      * intros [-> [rest ->]]. exists rest. reflexivity.
      * intros [rest [= -> ->]]. split; [reflexivity | exists rest; reflexivity].
Qed.

Lemma ends_with_star (pat : list ascii) :
  (1 <? length pat)%nat && Ascii.eqb (nth (length pat - 1) pat NUL) "*"%char = true
  <-> exists pre, pre <> [] /\ pat = pre ++ ["*"%char].
Proof.
  rewrite andb_true_iff, Nat.ltb_lt, Ascii.eqb_eq.
  destruct pat as [| c pat _] using rev_ind.
  - cbn. split; [lia |]. intros (pre & _ & H). destruct pre; discriminate.
  - rewrite length_app. cbn [length].
    replace (length pat + 1 - 1)%nat with (length pat) by lia.
    rewrite app_nth2 by lia. rewrite Nat.sub_diag. cbn [nth]. split.
    + intros [Hlen ->]. exists pat. split; [| reflexivity].
      destruct pat; [cbn in Hlen; lia | discriminate].
    + intros (pre & Hne & H). apply app_inj_tail in H as [-> ->].
      split; [| reflexivity]. destruct pre; [contradiction | cbn; lia].
Qed.

(** X18: what a route matches.  A route matches a request exactly when
    the methods are equal and either the path is the pattern, or the
    pattern is a non-empty prefix followed by a star and the path
    starts with that prefix.  So [/v1/*] matches [/v1/] and everything
    below it, a star elsewhere in a pattern is an ordinary character,
    and the pattern made of a star alone matches only that path. *)
Theorem route_matches_iff (route : route_t) (m : http_method_t) (p : list ascii) :
  route_matches route m p = true
  <-> route_method route = m
      /\ (pattern route = p
          \/ exists pre rest,
               pre <> [] /\ pattern route = pre ++ ["*"%char] /\ p = pre ++ rest).
Proof.
  unfold route_matches.
  destruct (method_eqb (route_method route) m) eqn:Hm; cbn [negb].
  2: { split; [discriminate |]. intros [H _]. apply method_eqb_eq in H. congruence. }
  apply method_eqb_eq in Hm.
  destruct (list_eqb (pattern route) p) eqn:Heq.
  { apply list_eqb_eq in Heq. split; [auto | reflexivity]. }
  assert (Hne : pattern route <> p).
  { intros H. apply list_eqb_eq in H. congruence. }
  destruct ((1 <? length (pattern route))%nat
            && Ascii.eqb (nth (length (pattern route) - 1) (pattern route) NUL) "*"%char)
    eqn:Hstar.
  - apply ends_with_star in Hstar as (pre & Hpre & Hpat).
    rewrite Hpat at 1 2. rewrite length_app. cbn [length].
    replace (length pre + 1 - 1)%nat with (length pre) by lia.
    rewrite take_app_length, is_prefix_spec. split.
    + intros [rest ->]. split; [exact Hm |]. right. exists pre, rest. auto.
    + intros [_ [H | (pre' & rest & _ & Hpat' & ->)]]; [contradiction |].
      rewrite Hpat in Hpat'. apply app_inj_tail in Hpat' as [<- _].
      exists rest. reflexivity.
  - split; [discriminate |].
    intros [_ [H | (pre & rest & Hpre & Hpat & _)]]; [contradiction |].
    assert (Hs : (1 <? length (pattern route))%nat
                 && Ascii.eqb (nth (length (pattern route) - 1) (pattern route) NUL)
                      "*"%char = true)
      by (apply ends_with_star; exists pre; auto).
    congruence.
Qed.

Lemma find_route_app (rs1 rs2 : list route_t) (m : http_method_t) (p : list ascii) :
  find_route (rs1 ++ rs2) m p
  = match find_route rs1 m p with
    | Some r => Some r
    | None => find_route rs2 m p
    end.
Proof.
  induction rs1 as [| r rs1 IH]; cbn; [reflexivity |].
  destruct (route_matches r m p); [reflexivity | exact IH].
Qed.

(** X19: routes registered earlier take precedence.  A request that an
    already registered route matches is dispatched to the same handler
    and gets the same response after any further [gateway_add_route],
    whatever the new pattern is. *)
Theorem gateway_add_route_keeps_earlier_routes (gw : gateway_ctx_t) (m : http_method_t)
  (pat : list ascii) (h : route_handler_t) (clock : Z) (conn : connection_t) :
  find_route (routes gw) (method (request conn)) (path (request conn)) <> None ->
  router_dispatch (gateway_add_route gw m pat h) clock conn = router_dispatch gw clock conn.
Proof.
  intros Hfound. unfold router_dispatch.
  destruct (method_eqb (method (request conn)) HTTP_OPTIONS); [reflexivity |].
  cbn [routes gateway_add_route]. rewrite find_route_app.
  destruct (find_route (routes gw) _ _) as [r |]; [reflexivity | contradiction].
Qed.

Lemma gateway_add_route_keeps_earlier_routes_witness :
  router_dispatch
    (gateway_add_route
       (gateway_add_route (gateway_create Sample.cfg 0) HTTP_GET (str "/v1/*")
          Sample.idle_handler)
       HTTP_GET (str "/v1/models") (fun _ _ resp => (7, resp)))
    1 (snd (http_parse_request
              (Sample.conn_with (str "GET /v1/models HTTP/1.1" ++ CRLF ++ CRLF))))
  = router_dispatch
      (gateway_add_route (gateway_create Sample.cfg 0) HTTP_GET (str "/v1/*")
         Sample.idle_handler)
      1 (snd (http_parse_request
                (Sample.conn_with (str "GET /v1/models HTTP/1.1" ++ CRLF ++ CRLF)))).
Proof.
  apply gateway_add_route_keeps_earlier_routes. vm_compute. discriminate.
Defined.

End RouterFacts.

(** ** Event loop: the connection table *)

Module EventLoopFacts.
Import Mach Cstr Http GatewayInv.

Lemma connection_read_loop_fd (fuel : nat) (conn : connection_t) (sock : socket) :
  fd (snd (fst (connection_read_loop fuel conn sock))) = fd conn.
Proof.
  revert conn sock. induction fuel as [| fuel IH]; intros conn sock;
    cbn [connection_read_loop]; [reflexivity |].
  destruct (if read_cap conn <=? read_len conn + 1 then _ else _) as [cap |];
    [| reflexivity].
  destruct (cap - read_len conn - 1 <=? 0); [reflexivity |].
  unfold Sock.read.
  destruct (take _ (pending sock)) as [| c chunk].
  - destruct (on_empty sock); reflexivity.
  - rewrite IH. reflexivity.
Qed.

Lemma take_body_fd (conn : connection_t) (n : nat) :
  fd (snd (take_body conn n)) = fd conn.
Proof. unfold take_body. destruct (_ <=? _); reflexivity. Qed.

Lemma http_parse_request_fd (conn : connection_t) :
  fd (snd (http_parse_request conn)) = fd conn.
Proof.
  unfold http_parse_request.
  destruct (state conn); try reflexivity.
  - destruct (strstr_at _ 0 (CRLF ++ CRLF)); [| reflexivity].
    destruct (strchr_at _ 0 " "); [| reflexivity].
    destruct (strchr_at _ _ " "); [| reflexivity].
    destruct (GW_MAX_URL_LEN <=? _)%nat; [reflexivity |].
    destruct (0 <? _); [rewrite take_body_fd |]; reflexivity.
  - destruct (strstr_at _ 0 (CRLF ++ CRLF)); [apply take_body_fd | reflexivity].
Qed.

(** What a step of [handle_client_data] does to the table: nothing, or
    it frees the slot of its descriptor, or it replaces the connection
    there by one of the same descriptor. *)
Lemma handle_client_data_table (gw : gateway_ctx_t) (fd0 : Z) (sock : socket) (clock : Z) :
  let gw' := fst (fst (handle_client_data gw fd0 sock clock)) in
  max_fd gw' = max_fd gw
  /\ ((connections gw' = connections gw
       /\ active_connections gw' = active_connections gw)
      \/ (exists conn,
            connections gw !! fd0 = Some conn
            /\ connections gw' = delete fd0 (connections gw)
            /\ active_connections gw' = u64 (active_connections gw - 1))
      \/ (exists conn c',
            connections gw !! fd0 = Some conn
            /\ fd c' = fd conn
            /\ connections gw' = <[fd0 := c']> (connections gw)
            /\ active_connections gw' = active_connections gw)).
Proof.
  unfold handle_client_data.
  destruct (Z.leb_spec (max_fd gw) fd0) as [Hge | Hlt]; [cbn; auto |].
  destruct (connections gw !! fd0) as [conn |] eqn:Hconn; [| cbn; auto].
  pose proof (connection_read_loop_fd (S (length (pending sock))) conn sock) as Hfd1.
  fold (connection_read conn sock) in Hfd1.
  destruct (connection_read conn sock) as [[rc conn1] sock1]. cbn [fst snd] in Hfd1.
  assert (Hclose : forall g c,
            connections g !! fd0 = Some c -> fd0 < max_fd g ->
            close_connection g fd0
            = with_table g (delete fd0 (connections g)) (max_fd g) (total_requests g)
                (u64 (active_connections g - 1))).
  { intros g c Hc Hg. unfold close_connection.
    destruct (Z.ltb_spec fd0 (max_fd g)); [| lia].
    rewrite bool_decide_eq_true_2 by (rewrite Hc; eauto). reflexivity. }
  destruct (rc <? 0).
  { cbn [fst snd]. rewrite (Hclose gw conn Hconn Hlt).
    cbn. split; [reflexivity |]. right. left. exists conn. auto. }
  assert (Hkeep : forall c', fd c' = fd conn ->
            exists conn0 c'0,
              connections gw !! fd0 = Some conn0 /\ fd c'0 = fd conn0
              /\ <[fd0 := c']> (connections gw) = <[fd0 := c'0]> (connections gw)).
  { intros c' Hc'. exists conn, c'. auto. }
  destruct (state conn1).
  3-6: cbn; split; [reflexivity |]; right; right; exists conn, conn1; auto.
  all: pose proof (http_parse_request_fd conn1) as Hfd2;
       destruct (http_parse_request conn1) as [rc2 conn2]; cbn [snd] in Hfd2;
       destruct (rc2 =? 0).
  2, 4: cbn; split; [reflexivity |]; right; right; exists conn, conn2;
        rewrite insert_insert_eq; repeat split; congruence.
  all: cbn [connections max_fd total_requests active_connections with_table];
       destruct (router_dispatch _ clock conn2) as [rcd sent];
       destruct (keep_alive conn2); cbn [negb].
  all: try (cbn; split; [reflexivity |]; right; right;
            eexists conn, _; rewrite !insert_insert_eq;
            split; [reflexivity |]; split; [| split; reflexivity];
            cbn; congruence).
  all: rewrite (Hclose _ conn2) by (cbn; try apply lookup_insert_eq; lia);
       cbn; split; [reflexivity |]; right; left; exists conn;
       rewrite !delete_insert_eq; auto.
Qed.

Lemma table_ok_iff (gw : gateway_ctx_t) :
  table_ok gw = true
  <-> forall k c, connections gw !! k = Some c -> 0 <= k < max_fd gw /\ fd c = k.
Proof.
  unfold table_ok. rewrite forallb_forall. split.
  - intros H k c Hk.
    specialize (H (k, c)). cbn in H.
    rewrite !andb_true_iff, Z.leb_le, Z.ltb_lt, Z.eqb_eq in H.
    assert (Hin : In (k, c) (map_to_list (connections gw))).
    { apply list_elem_of_In, elem_of_map_to_list. exact Hk. }
    specialize (H Hin). lia.
  - intros H [k c] Hin. cbn.
    apply list_elem_of_In, elem_of_map_to_list in Hin. apply H in Hin.
    rewrite !andb_true_iff, Z.leb_le, Z.ltb_lt, Z.eqb_eq. lia.
Qed.

Lemma accept_one_table_ok (gw : gateway_ctx_t) (k : Z) :
  table_ok gw = true -> 0 <= k -> table_ok (accept_one gw k) = true.
Proof.
  rewrite !table_ok_iff. intros H Hk j c. unfold accept_one.
  cbn [connections max_fd with_table].
  destruct (Z.eq_dec j k) as [-> | Hne].
  - rewrite lookup_insert_eq. intros [= <-]. cbn [fd connection_create].
    destruct (Z.leb_spec (max_fd gw) k); lia.
  - rewrite lookup_insert_ne by congruence. intros Hj. apply H in Hj.
    destruct (Z.leb_spec (max_fd gw) k); lia.
Qed.

Lemma close_connection_table_ok (gw : gateway_ctx_t) (k : Z) :
  table_ok gw = true -> table_ok (close_connection gw k) = true.
Proof.
  rewrite !table_ok_iff. intros H j c. unfold close_connection.
  destruct (_ && _); [| apply H].
  cbn [connections max_fd with_table].
  destruct (Z.eq_dec j k) as [-> | Hne].
  - rewrite lookup_delete_eq. discriminate.
  - rewrite lookup_delete_ne by congruence. apply H.
Qed.

Lemma handle_event_table_ok (gw : gateway_ctx_t) (ev : event) :
  table_ok gw = true -> accepts_ok ev = true ->
  table_ok (fst (handle_event gw ev)) = true.
Proof.
  intros Hok Hev. destruct ev as [fds | k | k sock clock]; cbn [handle_event fst].
  - cbn [accepts_ok] in Hev. unfold accept_connections.
    revert gw Hok. induction fds as [| f fds IH]; intros gw Hok; [exact Hok |].
    cbn [forallb] in Hev. apply andb_true_iff in Hev as [Hf Hfds].
    cbn [fold_left]. apply IH; [exact Hfds |].
    apply accept_one_table_ok; [exact Hok | apply Z.leb_le, Hf].
  - apply close_connection_table_ok, Hok.
  - pose proof (handle_client_data_table gw k sock clock) as Ht. cbv zeta in Ht.
    destruct (handle_client_data gw k sock clock) as [[gw' sock'] served].
    cbn [fst] in *. destruct Ht as [Hmax Hcases].
    rewrite table_ok_iff in *. intros j c. rewrite Hmax.
    destruct Hcases as [[-> _] | [(conn & Hc & -> & _) | (conn & c' & Hc & Hfd & -> & _)]].
    + apply Hok.
    + destruct (Z.eq_dec j k) as [-> | Hne].
      * rewrite lookup_delete_eq. discriminate.
      * rewrite lookup_delete_ne by congruence. apply Hok.
    + destruct (Z.eq_dec j k) as [-> | Hne].
      * rewrite lookup_insert_eq. intros [= <-]. apply Hok in Hc. lia.
      * rewrite lookup_insert_ne by congruence. apply Hok.
Qed.

(** X20: the connection table stays within its array.  If every
    connection is stored at the index of its own descriptor and below
    [max_fd], the same holds after the event loop has handled any
    sequence of events in which [accept] returned no negative
    descriptor: accepting grows [max_fd] past the new descriptor before
    storing it, and reading, parsing, answering and closing only touch
    the slot of the descriptor they were called for. *)
Theorem run_events_keeps_table_in_bounds (gw : gateway_ctx_t)
  (served : list (http_request_t * list ascii)) (evs : list event) :
  table_ok gw = true ->
  forallb accepts_ok evs = true ->
  table_ok (fst (run_events gw served evs)) = true.
Proof.
  revert gw served. induction evs as [| ev evs IH]; intros gw served Hok Hevs;
    [exact Hok |].
  cbn [forallb] in Hevs. apply andb_true_iff in Hevs as [Hev Hevs].
  cbn [run_events].
  pose proof (handle_event_table_ok gw ev Hok Hev) as Hstep.
  destruct (handle_event gw ev) as [gw' out]. cbn [fst] in Hstep.
  apply IH; assumption.
Qed.

Lemma run_events_keeps_table_in_bounds_witness :
  table_ok
    (fst (run_events (gateway_create Sample.cfg 0) []
            [ EvListen [1030; 7];
              EvReadable 7 {| pending := str "GET /health HTTP/1.1" ++ CRLF ++ CRLF;
                              on_empty := WouldBlock |} 3;
              EvHangup 1030 ])) = true.
Proof.
  apply run_events_keeps_table_in_bounds; vm_compute; reflexivity.
Defined.

Lemma u64_pred (z : Z) : u64 (u64 z - 1) = u64 (z - 1).
Proof. unfold u64. apply Zminus_mod_idemp_l. Qed.

Lemma u64_succ (z : Z) : u64 (u64 z + 1) = u64 (z + 1).
Proof. unfold u64. apply Zplus_mod_idemp_l. Qed.

Lemma accept_connections_counter (fds : list Z) (gw : gateway_ctx_t) :
  counter_ok gw = true ->
  NoDup fds ->
  Forall (fun k => connections gw !! k = None) fds ->
  counter_ok (accept_connections gw fds) = true.
Proof.
  unfold accept_connections. revert gw.
  induction fds as [| f fds IH]; intros gw Hc Hnd Hfresh; [exact Hc |].
  cbn [fold_left]. apply NoDup_cons in Hnd as [Hnotin Hnd].
  apply Forall_cons in Hfresh as [Hf Hfresh].
  apply IH; [| exact Hnd |].
  - unfold counter_ok in *. apply Z.eqb_eq in Hc. apply Z.eqb_eq.
    unfold accept_one. cbn [active_connections connections with_table].
    rewrite map_size_insert_None by exact Hf. rewrite Hc, u64_succ.
    f_equal. lia.
  - unfold accept_one. cbn [connections with_table].
    rewrite Forall_forall in *. intros k Hk.
    rewrite lookup_insert_ne; [apply Hfresh, Hk |].
    intros ->. contradiction.
Qed.

Lemma delete_counter (tbl : gmap Z connection_t) (k : Z) (c : connection_t) (a : Z) :
  tbl !! k = Some c -> a = u64 (Z.of_nat (size tbl)) ->
  u64 (a - 1) = u64 (Z.of_nat (size (delete k tbl))).
Proof.
  intros Hk ->. rewrite u64_pred.
  assert (Hs : size (delete k tbl) = Nat.pred (size tbl))
    by (apply map_size_delete_Some; eauto).
  assert (Hpos : (0 < size tbl)%nat).
  { destruct (size tbl) eqn:E; [| lia].
    apply map_size_empty_iff in E. subst tbl. rewrite lookup_empty in Hk. discriminate. }
  f_equal. lia.
Qed.

(** X21: [active_connections] counts the open connections.  If the
    counter equals the number of connections of the table, it still
    does after the event loop has handled one more event, provided
    [accept] returned descriptors that were not open: a connection is
    counted once when accepted and once when closed, also when a hang-up
    arrives for a descriptor that was closed already. *)
Theorem handle_event_keeps_active_connections (gw : gateway_ctx_t) (ev : event) :
  counter_ok gw = true ->
  accepts_fresh gw ev = true ->
  counter_ok (fst (handle_event gw ev)) = true.
Proof.
  intros Hc Hev. destruct ev as [fds | k | k sock clock]; cbn [handle_event fst].
  - cbn [accepts_fresh] in Hev. apply andb_true_iff in Hev as [Hnd Hfresh].
    apply bool_decide_eq_true in Hnd.
    apply accept_connections_counter; [exact Hc | exact Hnd |].
    rewrite forallb_forall in Hfresh. apply Forall_forall. intros x Hx.
    apply list_elem_of_In, Hfresh in Hx. apply bool_decide_eq_true in Hx. exact Hx.
  - unfold close_connection.
    destruct (k <? max_fd gw); cbn [andb]; [| exact Hc].
    destruct (connections gw !! k) as [c |] eqn:Hk.
    + rewrite bool_decide_eq_true_2 by eauto.
      unfold counter_ok in *. apply Z.eqb_eq in Hc. apply Z.eqb_eq.
      cbn [active_connections connections with_table].
      apply (delete_counter _ k c); assumption.
    + rewrite bool_decide_eq_false_2; [exact Hc |].
      intros [x Hx]. discriminate.
  - pose proof (handle_client_data_table gw k sock clock) as Ht. cbv zeta in Ht.
    destruct (handle_client_data gw k sock clock) as [[gw' sock'] served].
    cbn [fst] in *. destruct Ht as [_ Hcases].
    unfold counter_ok in *. apply Z.eqb_eq in Hc. apply Z.eqb_eq.
    destruct Hcases as [[-> ->] | [(conn & Hk & -> & ->) | (conn & c' & Hk & _ & -> & ->)]].
    + exact Hc.
    + apply (delete_counter _ k conn); assumption.
    + rewrite map_size_insert_Some by eauto. exact Hc.
Qed.

Lemma handle_event_keeps_active_connections_witness :
  counter_ok
    (fst (handle_event
            (fst (handle_event (gateway_create Sample.cfg 0) (EvListen [7; 9])))
            (EvHangup 7))) = true.
Proof.
  apply handle_event_keeps_active_connections; vm_compute; reflexivity.
Defined.

End EventLoopFacts.

(** ** HTTP parser: the header table *)

Module HeaderFacts.
Import Mach Cstr Http RequestBounds HeaderText ParserFacts RequestFacts.

Lemma no_char_Forall (c : ascii) (s : list ascii) :
  no_char c s = true <-> Forall (fun x => x <> c) s.
Proof.
  unfold no_char. rewrite forallb_forall, Forall_forall. split.
  - intros H x Hx. apply list_elem_of_In, H in Hx.
    destruct (Ascii.eqb_spec x c); [discriminate | assumption].
  - intros H x Hx. apply list_elem_of_In, H in Hx.
    destruct (Ascii.eqb_spec x c); [contradiction | reflexivity].
Qed.

Lemma find_sub_skip (c : ascii) (n a t : list ascii) :
  Forall (fun x => x <> c) a ->
  find_sub (c :: n) (a ++ t) = option_map (Nat.add (length a)) (find_sub (c :: n) t).
Proof.
  induction 1 as [| x a Hx Ha IH].
  - cbn [app length]. destruct (find_sub (c :: n) t); reflexivity.
  - cbn [app length]. change (find_sub (c :: n) (x :: a ++ t))
      with (if is_prefix (c :: n) (x :: a ++ t) then Some O
            else option_map S (find_sub (c :: n) (a ++ t))).
    cbn [is_prefix]. destruct (Ascii.eqb_spec c x) as [-> | _]; [contradiction |].
    cbn [andb]. rewrite IH. destruct (find_sub (c :: n) t); reflexivity.
Qed.

Lemma strstr_at_app (pre t needle : list ascii) :
  strstr_at (pre ++ t) (length pre) needle
  = option_map (Nat.add (length pre)) (find_sub needle t).
Proof. unfold strstr_at. rewrite drop_app_length. reflexivity. Qed.

Lemma slice_app (a b c : list ascii) :
  slice (a ++ b ++ c) (length a) (length a + length b) = b.
Proof.
  unfold slice. rewrite drop_app_length.
  replace (length a + length b - length a)%nat with (length b) by lia.
  apply take_app_length.
Qed.

Lemma count_spaces_replicate (n : nat) (t : list ascii) :
  count_spaces (replicate n " "%char ++ t) = (n + count_spaces t)%nat.
Proof. induction n as [| n IH]; cbn; [reflexivity | rewrite IH; reflexivity]. Qed.

Lemma header_text_ok_inv (k v : list ascii) (n : nat) :
  header_text_ok (k, n, v) = true ->
  Forall (fun x => x <> ":"%char) k
  /\ Forall (fun x => x <> CR) k
  /\ Forall (fun x => x <> CR) v
  /\ (forall t, count_spaces (v ++ CR :: t) = O)
  /\ (length k < HEADER_KEY_SIZE)%nat /\ (length v < HEADER_VALUE_SIZE)%nat.
Proof.
  unfold header_text_ok.
  rewrite !andb_true_iff, !no_char_Forall, !Nat.ltb_lt.
  intros [[[[[H1 H2] H3] H4] H5] H6]. repeat split; try assumption.
  intros t. destruct v as [| c v]; cbn; [reflexivity |].
  destruct (Ascii.eqb c " "); [discriminate | reflexivity].
Qed.

Lemma header_text_length (k v : list ascii) (n : nat) :
  length (header_text (k, n, v)) = (length k + 1 + n + length v + 2)%nat.
Proof.
  unfold header_text. rewrite length_app. cbn [length].
  rewrite length_app, length_replicate, length_app. cbn. lia.
Qed.

(** One turn of the header loop on a well-formed line. *)
Lemma parse_headers_line (fuel : nat) (pre t k v : list ascii) (n header_end : nat)
  (req : http_request_t) :
  header_text_ok (k, n, v) = true ->
  (length pre < header_end)%nat ->
  (header_count req < GW_MAX_HEADERS)%nat ->
  parse_headers (S fuel) (pre ++ header_text (k, n, v) ++ t) header_end (length pre) req
  = parse_headers fuel (pre ++ header_text (k, n, v) ++ t) header_end
      (length (pre ++ header_text (k, n, v)))
      (with_headers req
         (<[header_count req := {| key := k; value := v |}]> (headers req))
         (S (header_count req))).
Proof.
  intros Hok Hend Hcount.
  apply header_text_ok_inv in Hok as (Hk1 & Hk2 & Hv & Hsp & Hkl & Hvl).
  set (s := pre ++ header_text (k, n, v) ++ t).
  assert (Hs1 : s = pre ++ (k ++ ":"%char :: replicate n " "%char ++ v) ++ CRLF ++ t).
  { unfold s, header_text. rewrite <- !app_assoc. cbn [app].
    repeat (rewrite <- ?app_assoc; cbn [app]). reflexivity. }
  assert (Hla : length (k ++ ":"%char :: replicate n " "%char ++ v)
                = (length k + 1 + n + length v)%nat).
  { rewrite length_app. cbn [length]. rewrite length_app, length_replicate. lia. }
  assert (Hnext : strstr_at s (length pre) CRLF
                  = Some (length pre + (length k + 1 + n + length v))%nat).
  { rewrite Hs1, strstr_at_app. unfold CRLF at 1.
    rewrite find_sub_skip.
    - change (find_sub [CR; LF] (CRLF ++ t)) with (Some O).
      cbn [option_map]. rewrite Hla. f_equal. lia.
    - apply Forall_app. split; [exact Hk2 |].
      constructor; [discriminate |]. apply Forall_app. split; [| exact Hv].
      apply Forall_forall. intros x Hx. apply elem_of_replicate in Hx as [-> _].
      discriminate. }
  assert (Hcolon : strchr_at s (length pre) ":"%char = Some (length pre + length k)%nat).
  { unfold s, header_text. rewrite <- app_assoc. cbn [app].
    apply strchr_at_app. exact Hk1. }
  assert (Hkey : slice s (length pre) (length pre + length k) = k).
  { unfold s, header_text. rewrite <- app_assoc. apply slice_app. }
  assert (Hskip : skip_spaces s (length pre + length k + 1)
                  = (length pre + length k + 1 + n)%nat).
  { unfold skip_spaces. f_equal.
    assert (Hs2 : s = (pre ++ k ++ [":"%char]) ++ replicate n " "%char ++ v ++ CR :: LF :: t).
    { unfold s, header_text. repeat (rewrite <- ?app_assoc; cbn [app]). reflexivity. }
    rewrite Hs2.
    replace (length pre + length k + 1)%nat with (length (pre ++ k ++ [":"%char]))
      by (rewrite !length_app; cbn; lia).
    rewrite drop_app_length, count_spaces_replicate, Hsp. lia. }
  assert (Hval : slice s (length pre + length k + 1 + n)
                   (length pre + (length k + 1 + n + length v)) = v).
  { assert (Hs3 : s = (pre ++ k ++ ":"%char :: replicate n " "%char) ++ v ++ CRLF ++ t).
    { unfold s, header_text. repeat (rewrite <- ?app_assoc; cbn [app]). reflexivity. }
    rewrite Hs3.
    replace (length pre + length k + 1 + n)%nat
      with (length (pre ++ k ++ ":"%char :: replicate n " "%char))
      by (rewrite !length_app; cbn [length]; rewrite length_replicate; lia).
    replace (length pre + (length k + 1 + n + length v))%nat
      with (length (pre ++ k ++ ":"%char :: replicate n " "%char) + length v)%nat
      by (rewrite !length_app; cbn [length]; rewrite length_replicate; lia).
    apply slice_app. }
  cbn [parse_headers].
  destruct (Nat.ltb_spec (length pre) header_end) as [_ | ?]; [| lia].
  destruct (Nat.ltb_spec (header_count req) GW_MAX_HEADERS) as [_ | ?]; [| lia].
  cbn [andb]. rewrite Hnext.
  destruct (Nat.eqb_spec (length pre + (length k + 1 + n + length v)) (length pre))
    as [? | _]; [lia |].
  rewrite Hcolon.
  destruct (Nat.ltb_spec (length pre + length k)
              (length pre + (length k + 1 + n + length v))) as [_ | ?]; [| lia].
  unfold store_header.
  replace (length pre + length k - length pre)%nat with (length k) by lia.
  destruct (Nat.ltb_spec (length k) HEADER_KEY_SIZE) as [_ | ?]; [| lia].
  rewrite Hkey, Hskip.
  replace (length pre + (length k + 1 + n + length v)
           - (length pre + length k + 1 + n))%nat with (length v) by lia.
  destruct (Nat.ltb_spec (length v) HEADER_VALUE_SIZE) as [_ | ?]; [| lia].
  rewrite Hval. f_equal.
  rewrite length_app, header_text_length. lia.
Qed.

Lemma take_S_insert (hs : list header_t) (i : nat) (h : header_t) :
  (i < length hs)%nat -> take (S i) (<[i := h]> hs) = take i hs ++ [h].
Proof.
  revert i. induction hs as [| x hs IH]; intros [| i] Hi; cbn in *; try lia.
  - rewrite take_0. reflexivity.
  - f_equal. apply IH. lia.
Qed.

(** The header loop on a block of well-formed lines. *)
Lemma parse_headers_block (hs : list (list ascii * nat * list ascii)) :
  forall (fuel : nat) (pre t : list ascii) (header_end : nat) (req : http_request_t),
  forallb header_text_ok hs = true ->
  (length hs <= fuel)%nat ->
  (header_count req + length hs <= GW_MAX_HEADERS)%nat ->
  length (headers req) = GW_MAX_HEADERS ->
  (header_end + 2 = length pre + length (header_block hs))%nat ->
  let req' := parse_headers fuel (pre ++ header_block hs ++ t) header_end (length pre) req in
  header_count req' = (header_count req + length hs)%nat
  /\ take (header_count req') (headers req')
     = take (header_count req) (headers req) ++ map header_of hs.
Proof.
  induction hs as [| [[k n] v] hs IH]; intros fuel pre t header_end req Hok Hfuel Hcount Hlen Hend.
  - cbn [header_block flat_map length] in *. cbv zeta.
    assert (Hstop : parse_headers fuel (pre ++ [] ++ t) header_end (length pre) req = req).
    { destruct fuel; [reflexivity |]. cbn [parse_headers].
      destruct (Nat.ltb_spec (length pre) header_end); [lia | reflexivity]. }
    rewrite Hstop. cbn [map]. rewrite app_nil_r. split; [lia | reflexivity].
  - cbn [forallb] in Hok. apply andb_true_iff in Hok as [Hh Hok].
    cbn [length] in Hfuel, Hcount.
    destruct fuel as [| fuel]; [lia |].
    change (header_block ((k, n, v) :: hs))
      with (header_text (k, n, v) ++ header_block hs) in *.
    rewrite length_app, header_text_length in Hend.
    cbv zeta. rewrite <- app_assoc.
    rewrite (parse_headers_line fuel pre (header_block hs ++ t) k v n header_end req Hh)
      by lia.
    replace (pre ++ header_text (k, n, v) ++ header_block hs ++ t)
      with ((pre ++ header_text (k, n, v)) ++ header_block hs ++ t)
      by (rewrite <- app_assoc; reflexivity).
    specialize (IH fuel (pre ++ header_text (k, n, v)) t header_end
                  (with_headers req
                     (<[header_count req := {| key := k; value := v |}]> (headers req))
                     (S (header_count req))) Hok).
    cbv zeta in IH. cbn [header_count headers with_headers] in IH.
    destruct IH as [IH1 IH2].
    + lia.
    + lia.
    + rewrite length_insert. exact Hlen.
    + rewrite length_app, header_text_length. lia.
    + split; [rewrite IH1; cbn [length]; lia |].
      rewrite IH2, take_S_insert by lia.
      rewrite <- app_assoc. reflexivity.
Qed.

Lemma header_text_split (k v : list ascii) (n : nat) :
  header_text_ok (k, n, v) = true ->
  exists x w,
    header_text (k, n, v) = (x :: w) ++ CRLF
    /\ Forall (fun c => c <> CR) (x :: w).
Proof.
  intros Hok. apply header_text_ok_inv in Hok as (_ & Hk2 & Hv & _).
  assert (Hall : Forall (fun c => c <> CR) (k ++ ":"%char :: replicate n " "%char ++ v)).
  { apply Forall_app. split; [exact Hk2 |].
    constructor; [discriminate |]. apply Forall_app. split; [| exact Hv].
    apply Forall_forall. intros x Hx. apply elem_of_replicate in Hx as [-> _].
    discriminate. }
  assert (Heq : header_text (k, n, v) = (k ++ ":"%char :: replicate n " "%char ++ v) ++ CRLF).
  { unfold header_text. repeat (rewrite <- ?app_assoc; cbn [app]). reflexivity. }
  destruct (k ++ ":"%char :: replicate n " "%char ++ v) as [| x w] eqn:E.
  - destruct k; discriminate.
  - exists x, w. split; assumption.
Qed.

Lemma find_blank_line (hs : list (list ascii * nat * list ascii)) :
  forall line rest : list ascii,
  Forall (fun c => c <> CR) line ->
  forallb header_text_ok hs = true ->
  find_sub (CRLF ++ CRLF) (line ++ CRLF ++ header_block hs ++ CRLF ++ rest)
  = Some (length line + length (header_block hs))%nat.
Proof.
  induction hs as [| [[k n] v] hs IH]; intros line rest Hline Hok.
  - change (CRLF ++ CRLF) with (CR :: [LF; CR; LF]). rewrite find_sub_skip by exact Hline.
    change (find_sub (CR :: [LF; CR; LF]) (CRLF ++ header_block [] ++ CRLF ++ rest))
      with (Some O).
    cbn. f_equal; lia.
  - cbn [forallb] in Hok. apply andb_true_iff in Hok as [Hh Hok].
    destruct (header_text_split k v n Hh) as (x & w & Htext & Hxw).
    change (header_block ((k, n, v) :: hs))
      with (header_text (k, n, v) ++ header_block hs).
    rewrite length_app, Htext.
    change (CRLF ++ CRLF) with (CR :: [LF; CR; LF]) in *.
    rewrite find_sub_skip by exact Hline.
    assert (Hx : x <> CR) by (inversion Hxw; assumption).
    assert (Hstep : forall tl,
               find_sub (CR :: [LF; CR; LF]) (CR :: LF :: x :: tl)
               = option_map (Nat.add 2) (find_sub (CR :: [LF; CR; LF]) (x :: tl))).
    { intros tl.
      change (find_sub (CR :: [LF; CR; LF]) (CR :: LF :: x :: tl))
        with (if is_prefix (CR :: [LF; CR; LF]) (CR :: LF :: x :: tl) then Some O
              else option_map S
                     (if is_prefix (CR :: [LF; CR; LF]) (LF :: x :: tl) then Some O
                      else option_map S (find_sub (CR :: [LF; CR; LF]) (x :: tl)))).
      cbn [is_prefix].
      change (Ascii.eqb CR CR) with true. change (Ascii.eqb LF LF) with true.
      change (Ascii.eqb CR LF) with false. cbn [andb].
      destruct (Ascii.eqb_spec CR x) as [E | _]; [congruence |]. cbn [andb].
      destruct (find_sub (CR :: [LF; CR; LF]) (x :: tl)); reflexivity. }
    assert (Hnorm : CRLF ++ (((x :: w) ++ CRLF) ++ header_block hs) ++ CRLF ++ rest
                    = CR :: LF :: x :: (w ++ CRLF ++ header_block hs ++ CRLF ++ rest)).
    { cbn [app CRLF]. rewrite <- !app_assoc. reflexivity. }
    rewrite Hnorm, Hstep.
    specialize (IH (x :: w) rest Hxw Hok). cbn [app] in IH. rewrite IH.
    cbn [option_map]. f_equal. rewrite length_app. cbn [length CRLF]. lia.
Qed.

Lemma header_block_length (hs : list (list ascii * nat * list ascii)) :
  (length hs <= length (header_block hs))%nat.
Proof.
  induction hs as [| [[k n] v] hs IH]; [cbn; lia |].
  change (header_block ((k, n, v) :: hs)) with (header_text (k, n, v) ++ header_block hs).
  rewrite length_app, header_text_length. cbn [length]. lia.
Qed.

Lemma take_body_headers (conn : connection_t) (n : nat) :
  headers (request (snd (take_body conn n))) = headers (request conn)
  /\ header_count (request (snd (take_body conn n))) = header_count (request conn).
Proof. unfold take_body. destruct (_ <=? _); split; reflexivity. Qed.

(** X22: the header table.  When the buffer holds a request line, a
    block of header lines and the blank line, each header line made of
    a key without colon, a colon, any number of spaces and a value,
    both within the arrays of [header_t], and there are at most
    [GW_MAX_HEADERS] of them, the parsed request has exactly these
    headers, in the order received, with the spaces after the colon
    dropped. *)
Theorem http_parse_request_stores_headers (conn : connection_t)
  (m u ver rest : list ascii) (hs : list (list ascii * nat * list ascii)) :
  state conn = CONN_READING_HEADERS ->
  cstr_view (read_buf conn)
  = m ++ " "%char :: u ++ " "%char :: ver ++ CRLF ++ header_block hs ++ CRLF ++ rest ->
  request_line_ok m u ver = true ->
  forallb header_text_ok hs = true ->
  (length hs <= GW_MAX_HEADERS)%nat ->
  length (headers (request conn)) = GW_MAX_HEADERS ->
  let req := request (snd (http_parse_request conn)) in
  header_count req = length hs
  /\ take (header_count req) (headers req) = map header_of hs.
Proof.
  intros Hst Hview Hline Hhs Hn Hslots.
  unfold request_line_ok in Hline.
  rewrite !andb_true_iff, !no_char_Forall, Nat.ltb_lt in Hline.
  destruct Hline as [[[[[Hm1 Hm2] Hu1] Hu2] Hver] Hulen].
  set (line := m ++ " "%char :: u ++ " "%char :: ver).
  assert (Hlinecr : Forall (fun c => c <> CR) line).
  { unfold line. apply Forall_app. split; [exact Hm2 |].
    constructor; [discriminate |]. apply Forall_app. split; [exact Hu2 |].
    constructor; [discriminate | exact Hver]. }
  assert (Hs : cstr_view (read_buf conn)
               = line ++ CRLF ++ header_block hs ++ CRLF ++ rest).
  { rewrite Hview. unfold line. repeat (rewrite <- ?app_assoc; cbn [app]). reflexivity. }
  set (s := cstr_view (read_buf conn)) in *.
  assert (Hend : strstr_at s 0 (CRLF ++ CRLF)
                 = Some (length line + length (header_block hs))%nat).
  { unfold strstr_at. rewrite drop_0, Hs, find_blank_line by assumption. reflexivity. }
  assert (Hsp1 : strchr_at s 0 " "%char = Some (length m)).
  { rewrite Hview.
    apply (strchr_at_app " "%char [] m
             (u ++ " "%char :: ver ++ CRLF ++ header_block hs ++ CRLF ++ rest) Hm1). }
  assert (Hsp2 : strchr_at s (S (length m)) " "%char = Some (S (length m) + length u)%nat).
  { rewrite Hview.
    pose proof (strchr_at_app " "%char (m ++ [" "%char]) u
                  (ver ++ CRLF ++ header_block hs ++ CRLF ++ rest) Hu1) as H2.
    rewrite <- !app_assoc in H2. cbn [app] in H2.
    rewrite length_app in H2. cbn [length] in H2.
    replace (length m + 1)%nat with (S (length m)) in H2 by lia. exact H2. }
  assert (Hcrlf : strstr_at s 0 CRLF = Some (length line)).
  { unfold strstr_at. rewrite drop_0, Hs. unfold CRLF at 1.
    rewrite find_sub_skip by exact Hlinecr.
    change (find_sub [CR; LF] (CRLF ++ header_block hs ++ CRLF ++ rest)) with (Some O).
    cbn. f_equal. lia. }
  assert (Hloop : forall req1,
             header_count req1 = O -> length (headers req1) = GW_MAX_HEADERS ->
             let req2 := parse_headers (length s) s
                           (length line + length (header_block hs))
                           (length line + 2) req1 in
             header_count req2 = length hs
             /\ take (header_count req2) (headers req2) = map header_of hs).
  { intros req1 Hc0 Hl1.
    pose proof (parse_headers_block hs (length s) (line ++ CRLF) (CRLF ++ rest)
                  (length line + length (header_block hs)) req1 Hhs) as Hb.
    rewrite <- app_assoc, <- Hs in Hb.
    rewrite length_app in Hb. cbn [length CRLF] in Hb.
    cbv zeta in Hb. rewrite Hc0 in Hb. cbn [take Nat.add app] in Hb.
    rewrite take_0 in Hb. cbn [app] in Hb.
    apply Hb; try lia; try assumption.
    pose proof (header_block_length hs).
    rewrite Hs, !length_app. lia. }
  unfold http_parse_request. fold s. rewrite Hst, Hend, Hsp1, Hsp2.
  replace (S (length m) + length u - S (length m))%nat with (length u) by lia.
  destruct (Nat.leb_spec GW_MAX_URL_LEN (length u)) as [? | _]; [lia |].
  assert (Hreq : let req := parse_request_line_and_headers s
                              (length line + length (header_block hs))
                              (length m) (S (length m) + length u) (request conn) in
                 header_count req = length hs
                 /\ take (header_count req) (headers req) = map header_of hs).
  { unfold parse_request_line_and_headers. rewrite Hcrlf. cbn [option_map].
    destruct (match find_sub ["?"%char] _ with
              | Some qmark => _
              | None => _
              end) as [p q].
    match goal with
    | |- context [parse_headers _ _ _ _ ?r] =>
        pose proof (Hloop r eq_refl Hslots) as Hl; cbv zeta in Hl
    end.
    destruct (find_header _ (str "Content-Length")); cbv zeta;
      cbn [header_count headers]; exact Hl. }
  cbv zeta in Hreq.
  match goal with
  | |- context [if ?c then take_body ?x ?n else (0, ?y)] =>
      destruct c; [pose proof (take_body_headers x n) as [Hb1 Hb2];
                   cbn [request with_request] in Hb1, Hb2 | cbn [snd request with_request]]
  end.
  - cbv zeta. rewrite Hb1, Hb2. exact Hreq.
  - exact Hreq.
Qed.

Lemma http_parse_request_stores_headers_witness :
  let conn := Sample.conn_with
                (str "POST /hook HTTP/1.1" ++ CRLF
                 ++ str "Host:example.org" ++ CRLF
                 ++ str "X-Empty:" ++ CRLF
                 ++ str "content-length:   4" ++ CRLF ++ CRLF ++ str "abcd") in
  let req := request (snd (http_parse_request conn)) in
  header_count req = 3%nat
  /\ take (header_count req) (headers req)
     = [ {| key := str "Host"; value := str "example.org" |};
         {| key := str "X-Empty"; value := [] |};
         {| key := str "content-length"; value := str "4" |} ].
Proof.
  exact (http_parse_request_stores_headers
           (Sample.conn_with
              (str "POST /hook HTTP/1.1" ++ CRLF
               ++ str "Host:example.org" ++ CRLF
               ++ str "X-Empty:" ++ CRLF
               ++ str "content-length:   4" ++ CRLF ++ CRLF ++ str "abcd"))
           (str "POST") (str "/hook") (str "HTTP/1.1") (str "abcd")
           [ (str "Host", O, str "example.org"); (str "X-Empty", O, []);
             (str "content-length", 3%nat, str "4") ]
           eq_refl eq_refl eq_refl eq_refl ltac:(vm_compute; lia) eq_refl).
Defined.

End HeaderFacts.

(** ** Bearer token check *)

Module AuthFacts.
Import Mach Cstr Http AuthGateway SessionStoreFacts RouterFacts.

Lemma header_authorizes_iff (h : header_t) (token : list ascii) :
  header_authorizes h token = true
  <-> strcaseeq (key h) (str "Authorization") = true
      /\ value h = str "Bearer " ++ token.
Proof.
  unfold header_authorizes. rewrite !andb_true_iff, is_prefix_spec, list_eqb_eq.
  split.
  - intros [[Hk [rest Hv]] Hd]. split; [exact Hk |].
    rewrite Hv in Hd |- *. change (drop 7 (str "Bearer " ++ rest)) with rest in Hd.
    congruence.
  - intros [Hk Hv]. split; [split; [exact Hk | exists token; exact Hv] |].
    rewrite Hv. reflexivity.
Qed.

(** X23: the bearer check.  With a non-empty expected token, the check
    returns [OC_OK] exactly when one of the stored headers is named
    Authorization, in any letter case, and its value is the word Bearer,
    one space and the token, byte for byte; in every other case it
    returns [OC_ERR_AUTH]. *)
Theorem auth_gateway_check_iff (req : http_request_t) (token : list ascii) :
  token <> [] ->
  (auth_gateway_check req (Some token) = OC_OK
   <-> exists h, In h (take (header_count req) (headers req))
                 /\ strcaseeq (key h) (str "Authorization") = true
                 /\ value h = str "Bearer " ++ token)
  /\ (auth_gateway_check req (Some token) = OC_OK
      \/ auth_gateway_check req (Some token) = OC_ERR_AUTH).
Proof.
  intros Hne. unfold auth_gateway_check.
  destruct token as [| c token]; [contradiction |].
  destruct (existsb _ _) eqn:Hex.
  - split; [| left; reflexivity]. split; [intros _ | reflexivity].
    apply existsb_exists in Hex as (h & Hin & Hh).
    apply header_authorizes_iff in Hh. exists h. tauto.
  - split; [| right; reflexivity]. split; [discriminate |].
    intros (h & Hin & Hk & Hv).
    assert (Htrue : existsb (fun h => header_authorizes h (c :: token))
                      (take (header_count req) (headers req)) = true).
    { apply existsb_exists. exists h. split; [exact Hin |].
      apply header_authorizes_iff. auto. }
    congruence.
Qed.

Lemma auth_gateway_check_iff_witness :
  let req := request (snd (http_parse_request
               (Sample.conn_with
                  (str "GET /health HTTP/1.1" ++ CRLF
                   ++ str "authorization: Bearer s3cret" ++ CRLF ++ CRLF))))in
  (auth_gateway_check req (Some (str "s3cret")) = OC_OK
   <-> exists h, In h (take (header_count req) (headers req))
                 /\ strcaseeq (key h) (str "Authorization") = true
                 /\ value h = str "Bearer " ++ str "s3cret")
  /\ (auth_gateway_check req (Some (str "s3cret")) = OC_OK
      \/ auth_gateway_check req (Some (str "s3cret")) = OC_ERR_AUTH).
Proof.
  exact (auth_gateway_check_iff _ (str "s3cret") ltac:(discriminate)).
Defined.

End AuthFacts.

(** ** Chat and webhook handlers: what goes upstream *)

Module UpstreamFacts.
Import Mach Cstr Http Json Chat Webhook Upstream.

Section WithLibraries.

Variable cJSON_Parse : list ascii -> option cJSON.
Variable cJSON_PrintUnformatted : cJSON -> list ascii.
Variable json_get_str : cJSON -> list ascii -> option (list ascii).
Variable json_get_int : cJSON -> list ascii -> Z -> Z.
Variable json_get_double : cJSON -> list ascii -> Q -> Q.
Variable auth_parse_provider : option (list ascii) -> provider_t.
Variable auth_resolve : config_t -> provider_t -> option (list ascii).
Variable json_build_anthropic_request json_build_openai_request :
  option (list ascii) -> option (list ascii) -> list ascii -> Z -> Q -> cJSON.
Variable http_stream_post :
  list ascii -> list ascii -> cJSON -> provider_t -> Z * list stream_event.




(** X26: the webhook takes nothing but the message and the session
    id from the request.  When the body parses, its member message is a
    non-empty string and a key is configured for the default provider,
    the handler calls [http_stream_post] at the endpoint of the
    configured default provider, with the key resolved for it, on the
    request the builder of that provider makes of the configured model,
    system prompt, token limit and temperature and of the message; its
    response is made of what that call returned, of the session id of
    the body and of the configured model. *)
Theorem handler_webhook_uses_configuration (view : gw_view) (req : http_request_t)
  (resp : http_response_build_t) (req_body : list ascii) (json : cJSON)
  (message api_key : list ascii) :
  body req = Some req_body ->
  body_len req <> 0 ->
  cJSON_Parse (cstr_view req_body) = Some json ->
  json_get_str json (str "message") = Some message ->
  message <> [] ->
  auth_resolve (v_cfg view) (auth_parse_provider (default_provider (v_cfg view)))
  = Some api_key ->
  let provider := auth_parse_provider (default_provider (v_cfg view)) in
  let model := configured_model (v_cfg view) provider in
  fst (handler_webhook_run cJSON_Parse cJSON_PrintUnformatted json_get_str
         auth_parse_provider auth_resolve json_build_anthropic_request
         json_build_openai_request http_stream_post view req resp)
  = (OC_OK,
     hook_reply cJSON_PrintUnformatted resp (json_get_str json (str "session_id")) model
       (http_stream_post (endpoint_of provider) api_key
          (build_request json_build_anthropic_request json_build_openai_request provider
             model (system_prompt (v_cfg view)) message (max_tokens (v_cfg view))
             (temperature (v_cfg view)))
          provider)).
Proof.
  intros Hbody Hlen Hparse Hmsg Hne Hkey provider model.
  unfold handler_webhook_run. rewrite Hbody.
  destruct (body_len req =? 0) eqn:E; [apply Z.eqb_eq in E; contradiction |].
  rewrite Hparse, Hmsg.
  destruct message as [| c message]; [contradiction |].
  fold provider. change (auth_resolve (v_cfg view) provider = Some api_key) in Hkey.
  rewrite Hkey.
  unfold hook_reply, build_request, endpoint_of, model, configured_model.
  destruct provider;
    match goal with
    | |- context [http_stream_post ?a ?b ?c ?d] =>
        destruct (http_stream_post a b c d) as [rc events]
    end; reflexivity.
Qed.

End WithLibraries.



Lemma handler_webhook_uses_configuration_witness :
  fst (SampleHook.run_hook SampleHook.hook_view SampleHook.hook_request http_response_init)
  = (OC_OK,
     hook_reply Sample.print_json http_response_init (Some (str "s1"))
       (Some (str "claude-x"))
       (Sample.post_echo (str "https://api.anthropic.com/v1/messages") (str "sk-ant")
          (Sample.build_echo "anthropic" (Some (str "claude-x")) (Some (str "Be brief."))
             (str "ping") 256 0)
          PROVIDER_ANTHROPIC)).
Proof.
  exact (handler_webhook_uses_configuration
           SampleHook.parse_hook_body Sample.print_json json_get_str_ref
           (fun _ => PROVIDER_ANTHROPIC) Sample.keys
           (Sample.build_echo "anthropic") (Sample.build_echo "openai") Sample.post_echo
           SampleHook.hook_view SampleHook.hook_request http_response_init
           SampleHook.hook_body SampleHook.hook_tree (str "ping") (str "sk-ant")
           eq_refl ltac:(vm_compute; discriminate) ltac:(vm_compute; reflexivity)
           ltac:(vm_compute; reflexivity) ltac:(discriminate) eq_refl).
Defined.

End UpstreamFacts.

(** ** One request per readable event *)

Module ServeFacts.
Import Mach Cstr Http GatewayInv.






(** *** A readable event without new bytes *)

Lemma http_parse_request_read_cap (conn : connection_t) :
  read_cap (snd (http_parse_request conn)) = read_cap conn.
Proof.
  unfold http_parse_request, take_body.
  destruct (state conn); try reflexivity.
  - destruct (strstr_at _ 0 (CRLF ++ CRLF)); [| reflexivity].
    destruct (strchr_at _ 0 " "); [| reflexivity].
    destruct (strchr_at _ _ " "); [| reflexivity].
    destruct (GW_MAX_URL_LEN <=? _)%nat; [reflexivity |].
    destruct (0 <? _); [| reflexivity].
    destruct (_ <=? _); reflexivity.
  - destruct (strstr_at _ 0 (CRLF ++ CRLF)); [| reflexivity].
    destruct (_ <=? _); reflexivity.
Qed.

Lemma router_dispatch_ext (gw gw' : gateway_ctx_t) (clock : Z) (conn conn' : connection_t) :
  routes gw = routes gw' ->
  view_of gw clock = view_of gw' clock ->
  request conn = request conn' ->
  router_dispatch gw clock conn = router_dispatch gw' clock conn'.
Proof.
  intros Hr Hv Hq. unfold router_dispatch. rewrite Hr, Hv, Hq. reflexivity.
Qed.

(** Parsing again what the reset left: the request comes out as it did
    the first time, whatever [read_len] says. *)
Lemma http_parse_request_again (conn conn2 : connection_t) :
  state conn = CONN_READING_HEADERS ->
  request conn = request_zero ->
  read_len conn = Z.of_nat (length (read_buf conn)) ->
  read_len conn < two64 ->
  http_parse_request conn = (0, conn2) ->
  http_parse_request (reset_for_next_request conn2)
  = (0, with_buffer conn2 (read_buf conn2) 0 (read_cap conn2)).
Proof.
  intros Hst Hreq Hex Hlt Hp.
  unfold http_parse_request in Hp. rewrite Hst, Hreq in Hp.
  destruct (strstr_at (cstr_view (read_buf conn)) 0 (CRLF ++ CRLF)) as [he |] eqn:Hse;
    [| discriminate Hp].
  destruct (strchr_at (cstr_view (read_buf conn)) 0 " ") as [sp1 |] eqn:H1;
    [| discriminate Hp].
  destruct (strchr_at (cstr_view (read_buf conn)) (S sp1) " ") as [sp2 |] eqn:H2;
    [| discriminate Hp].
  destruct (GW_MAX_URL_LEN <=? sp2 - S sp1)%nat eqn:Hurl; [discriminate Hp |].
  set (req := parse_request_line_and_headers _ he sp1 sp2 request_zero) in *.
  set (ka := match find_header req (str "Connection") with
             | Some v => if strcaseeq v (str "close") then false else keep_alive conn
             | None => keep_alive conn
             end) in *.
  assert (Hka : match find_header req (str "Connection") with
                | Some v => if strcaseeq v (str "close") then false else ka
                | None => ka
                end = ka).
  { unfold ka. destruct (find_header req (str "Connection")) as [v |]; [| reflexivity].
    destruct (strcaseeq v (str "close")); reflexivity. }
  destruct (0 <? content_length req) eqn:Hcl.
  - unfold take_body in Hp. cbn [request read_len read_buf with_request] in Hp.
    destruct (content_length req <=? u64 (read_len conn - Z.of_nat (he + 4))) eqn:Hle;
      [| discriminate Hp].
    injection Hp as <-.
    unfold http_parse_request, reset_for_next_request.
    cbn [state read_buf request keep_alive with_request with_body fd read_cap
         is_websocket read_len].
    rewrite Hse, H1, H2, Hurl. fold req. rewrite Hka, Hcl.
    unfold take_body.
    cbn [state read_buf request keep_alive with_request with_body fd read_cap
         is_websocket read_len].
    assert (Hwrap : (content_length req <=? u64 (0 - Z.of_nat (he + 4))) = true).
    { apply Z.leb_le. apply Z.leb_le in Hle.
      unfold strstr_at in Hse. rewrite drop_0 in Hse.
      destruct (find_sub _ _) as [i |] eqn:Hfind; [| discriminate].
      cbn in Hse. injection Hse as <-.
      apply RequestFacts.find_sub_bound in Hfind. cbn [length app CRLF] in Hfind.
      pose proof (RequestFacts.cstr_view_length (read_buf conn)) as Hview.
      unfold u64, two64 in *.
      rewrite Z.mod_small in Hle by lia.
      replace (0 - Z.of_nat (i + 4)) with (- Z.of_nat (i + 4)) by lia.
      rewrite Z.mod_opp_l_nz; rewrite ?Z.mod_small; lia. }
    rewrite Hwrap. reflexivity.
  - injection Hp as <-.
    unfold http_parse_request, reset_for_next_request.
    cbn [state read_buf request keep_alive with_request with_body fd read_cap
         is_websocket read_len].
    rewrite Hse, H1, H2, Hurl. fold req. rewrite Hka, Hcl. reflexivity.
Qed.

(** Reading from a socket on which nothing has arrived leaves the
    connection as it is. *)
Lemma connection_read_idle (conn : connection_t) :
  read_len conn + 1 < read_cap conn ->
  connection_read conn idle_socket
  = (0, with_buffer conn (read_buf conn) (read_len conn) (read_cap conn), idle_socket).
Proof.
  intros Hroom. unfold connection_read, idle_socket. cbn [pending length connection_read_loop].
  destruct (Z.leb_spec (read_cap conn) (read_len conn + 1)) as [Hle | _]; [lia |].
  destruct (Z.leb_spec (read_cap conn - read_len conn - 1) 0) as [Hle | _]; [lia |].
  unfold Sock.read. rewrite take_nil. cbn [on_empty]. reflexivity.
Qed.


(** The event that follows the reset, when nothing has arrived. *)
Lemma handle_client_data_idle (gw : gateway_ctx_t) (fd0 : Z) (c2 : connection_t)
  (clock : Z) :
  fd0 < max_fd gw ->
  connections gw !! fd0 = Some (reset_for_next_request c2) ->
  1 < read_cap c2 ->
  http_parse_request (reset_for_next_request c2)
  = (0, with_buffer c2 (read_buf c2) 0 (read_cap c2)) ->
  keep_alive c2 = true ->
  let gw' := fst (fst (handle_client_data gw fd0 idle_socket clock)) in
  snd (handle_client_data gw fd0 idle_socket clock)
  = [(request c2, snd (router_dispatch gw' clock c2))]
  /\ total_requests gw' = u64 (total_requests gw + 1)
  /\ connections gw' = connections gw.
Proof.
  intros Hfd Hc Hcap Hparse Hka.
  unfold handle_client_data.
  destruct (Z.leb_spec (max_fd gw) fd0) as [Hle | _]; [lia |].
  rewrite Hc. rewrite connection_read_idle by (cbn [read_len read_cap reset_for_next_request]; lia).
  change (with_buffer (reset_for_next_request c2) _ _ _) with (reset_for_next_request c2).
  change (0 <? 0) with false. cbn iota.
  change (state (reset_for_next_request c2)) with CONN_READING_HEADERS. cbn iota.
  rewrite Hparse. change (0 =? 0) with true. cbn iota.
  cbn [connections max_fd total_requests active_connections with_table].
  match goal with
  | |- context [router_dispatch ?g ?k ?c] =>
      set (gwd := g);
      assert (Hd : router_dispatch gwd k c
                   = (fst (router_dispatch gwd k c), snd (router_dispatch gwd k c)))
        by (destruct (router_dispatch gwd k c); reflexivity);
      rewrite Hd
  end.
  cbn [keep_alive with_buffer]. rewrite Hka. cbn [negb fst snd].
  cbn [connections max_fd total_requests active_connections with_table].
  split; [| split].
  - cbn [request with_buffer].
    match goal with
    | |- [(_, snd (router_dispatch ?a ?k ?c))] = [(_, snd (router_dispatch ?a' ?k ?c'))] =>
        rewrite (router_dispatch_ext a a' k c c') by reflexivity
    end.
    reflexivity.
  - reflexivity.
  - rewrite !insert_insert_eq. apply insert_id. rewrite Hc.
    unfold reset_for_next_request. rewrite Hka. reflexivity.
Qed.

(** X29: a request is answered once per readable event, not once per
    arrival.  When a connection in its initial state has received a
    request and [handle_client_data] has answered it and kept the
    connection, the next readable event on the descriptor on which no
    byte has arrived parses the same request from the bytes left in the
    buffer, answers it again with the response the router gives at the
    new counter and clock, increments [total_requests] once more and
    leaves the table as it was, ready to do the same again. *)
Theorem stale_request_is_answered_again (gw : gateway_ctx_t) (fd0 : Z)
  (conn : connection_t) (sock : socket) (clock clock' : Z)
  (req : http_request_t) (out : list ascii) :
  connections gw !! fd0 = Some conn ->
  state conn = CONN_READING_HEADERS ->
  request conn = request_zero ->
  read_buffer_ok conn = true ->
  0 <= read_len conn <= Z.of_nat (length (read_buf conn)) ->
  pending sock <> [] ->
  on_empty sock = WouldBlock ->
  read_len conn + Z.of_nat (length (pending sock)) < GW_MAX_BODY_LEN - 1 ->
  let gw1 := fst (fst (handle_client_data gw fd0 sock clock)) in
  snd (handle_client_data gw fd0 sock clock) = [(req, out)] ->
  connections gw1 !! fd0 <> None ->
  let gw2 := fst (fst (handle_client_data gw1 fd0 idle_socket clock')) in
  snd (handle_client_data gw1 fd0 idle_socket clock')
  = [(req, snd (router_dispatch gw2 clock'
                  (with_request conn CONN_READING_HEADERS req true)))]
  /\ total_requests gw1 = u64 (total_requests gw + 1)
  /\ total_requests gw2 = u64 (total_requests gw1 + 1)
  /\ connections gw2 = connections gw1.
Proof.
  intros Hconn Hst Hreq Hok Hlen Hpend Hwb Hsmall gw1 Hserved Hkept gw2.
  destruct (ReadFacts.connection_read_loop_drains (S (length (pending sock))) conn sock
              ltac:(lia) Hok ltac:(lia) Hsmall Hwb) as (cap & Hread & Hcap & Hok1).
  set (buf1 := take (Z.to_nat (read_len conn)) (read_buf conn) ++ pending sock) in *.
  assert (Hbuf : match pending sock with
                 | [] => read_buf conn
                 | _ :: _ => buf1
                 end = buf1).
  { destruct (pending sock); [contradiction | reflexivity]. }
  rewrite Hbuf in Hread.
  set (len1 := read_len conn + Z.of_nat (length (pending sock))) in *.
  set (conn1 := with_buffer conn buf1 len1 cap) in *.
  assert (Hex1 : read_len conn1 = Z.of_nat (length (read_buf conn1))).
  { unfold conn1, buf1, len1. cbn [read_len read_buf with_buffer].
    rewrite length_app, length_take, Nat.min_l by lia. lia. }
  assert (Hcap1 : len1 < cap /\ 1 < cap).
  { destruct (ParserFacts.read_buffer_ok_inv _ Hok1) as [(k & Hk & Hc) Hl].
    cbn [read_len read_cap with_buffer] in Hl, Hc.
    assert (1 <= 2 ^ k) by (apply (Z.pow_le_mono_r 2 0 k); lia).
    lia. }
  assert (Hfirst :
    exists c2,
      http_parse_request conn1 = (0, c2)
      /\ keep_alive c2 = true /\ request c2 = req /\ read_cap c2 = cap
      /\ fd0 < max_fd gw /\ max_fd gw1 = max_fd gw
      /\ total_requests gw1 = u64 (total_requests gw + 1)
      /\ connections gw1 !! fd0 = Some (reset_for_next_request c2)).
  { subst gw1. revert Hserved Hkept. unfold handle_client_data.
    destruct (Z.leb_spec (max_fd gw) fd0) as [Hle | Hlt]; [discriminate |].
    rewrite Hconn. unfold connection_read. rewrite Hread.
    change (0 <? 0) with false. cbn iota.
    change (state conn1) with (state conn). rewrite Hst. cbn iota.
    pose proof (http_parse_request_read_cap conn1) as Hb.
    destruct (http_parse_request conn1) as [rc2 c2] eqn:Hp.
    cbn [snd] in Hb. change (read_cap conn1) with cap in Hb.
    destruct (Z.eqb_spec rc2 0) as [-> | Hne]; [| discriminate].
    cbn [connections max_fd total_requests active_connections with_table].
    destruct (router_dispatch _ clock c2) as [rcd sent].
    destruct (keep_alive c2) eqn:Hka; cbn [negb fst snd].
    - intros [= <- <-] _. exists c2.
      cbn [connections max_fd total_requests active_connections with_table].
      rewrite lookup_insert_eq.
      repeat split; try reflexivity; try assumption.
      unfold reset_for_next_request. rewrite Hka. reflexivity.
    - intros _ Hk. exfalso. apply Hk.
      unfold close_connection. cbn [connections max_fd with_table].
      destruct (Z.ltb_spec fd0 (max_fd gw)); [| lia].
      rewrite bool_decide_eq_true_2 by (rewrite lookup_insert_eq; eauto).
      cbn [connections with_table]. apply lookup_delete_eq. }
  destruct Hfirst as (c2 & Hp & Hka & Hrq & Hc2cap & Hfd & Hmax & Htot & Hslot).
  assert (Hagain : http_parse_request (reset_for_next_request c2)
                   = (0, with_buffer c2 (read_buf c2) 0 (read_cap c2))).
  { apply (http_parse_request_again conn1);
      [exact Hst | exact Hreq | exact Hex1 | | exact Hp].
    apply ParserFacts.read_buffer_ok_inv in Hok1 as [(k & Hk & Hc) Hl].
    cbn [read_len read_cap with_buffer] in Hl, Hc.
    assert (2 ^ k <= 128) by (change 128 with (2 ^ 7); apply Z.pow_le_mono_r; lia).
    change (read_len conn1) with len1. unfold two64. lia. }
  destruct (handle_client_data_idle gw1 fd0 c2 clock' ltac:(lia) Hslot ltac:(lia) Hagain Hka)
    as (Hs2 & Ht2 & Hc2).
  fold gw2 in Hs2, Ht2, Hc2.
  split; [| split; [exact Htot | split; [exact Ht2 | exact Hc2]]].
  rewrite Hs2, Hrq. do 3 f_equal. apply router_dispatch_ext; try reflexivity.
  cbn [request with_request]. exact Hrq.
Qed.


Lemma stale_request_is_answered_again_witness :
  let gw :=
    accept_connections
      (Health.register_routes Sample.print_json (gateway_create Sample.cfg 10)
         Sample.idle_handler Sample.idle_handler) [5] in
  let bytes := str "GET /health HTTP/1.1" ++ CRLF ++ CRLF in
  let sock := {| pending := bytes; on_empty := WouldBlock |} in
  let req := request (snd (http_parse_request (Sample.conn_with bytes))) in
  let gw1 := fst (fst (handle_client_data gw 5 sock 11)) in
  let gw2 := fst (fst (handle_client_data gw1 5 idle_socket 12)) in
  (snd (handle_client_data gw1 5 idle_socket 12)
   = [(req, snd (router_dispatch gw2 12
                   (with_request (connection_create 5) CONN_READING_HEADERS req true)))]
   /\ total_requests gw1 = u64 (total_requests gw + 1)
   /\ total_requests gw2 = u64 (total_requests gw1 + 1)
   /\ connections gw2 = connections gw1)
  /\ total_requests gw2 = 2
  /\ map snd (snd (handle_client_data gw1 5 idle_socket 12))
     = [ str "HTTP/1.1 200 OK" ++ CRLF
         ++ str "Access-Control-Allow-Origin: *" ++ CRLF
         ++ str "Content-Type: application/json" ++ CRLF
         ++ str "Content-Length: 94" ++ CRLF
         ++ CRLF
         ++ str "{" ++ quoted (str "status") ++ str ":" ++ quoted (str "ok")
         ++ str "," ++ quoted (str "version") ++ str ":" ++ quoted (str "0.1.0")
         ++ str "," ++ quoted (str "uptime_seconds") ++ str ":2"
         ++ str "," ++ quoted (str "total_requests") ++ str ":2"
         ++ str "," ++ quoted (str "active_connections") ++ str ":1}" ].
Proof.
  intros gw bytes sock req gw1 gw2. split; [| split].
  - refine (stale_request_is_answered_again gw 5 (connection_create 5) sock 11 12 req
              (snd (router_dispatch gw1 11
                      (with_request (connection_create 5) CONN_READING_HEADERS req true)))
              _ _ _ _ _ _ _ _ _ _).
    + vm_compute; reflexivity.
    + reflexivity.
    + reflexivity.
    + reflexivity.
    + cbn; lia.
    + discriminate.
    + reflexivity.
    + vm_compute; reflexivity.
    + vm_compute; reflexivity.
    + vm_compute; discriminate.
  - vm_compute; reflexivity.
  - vm_compute; reflexivity.
Defined.

End ServeFacts.

(** ** WebSocket: no frame without a handshake *)

Module WsSessionFacts.
Import Mach Cstr Http WsUpgrade WsWrite.

(** X28: the upgrade is all or nothing.  On a connection that is not a
    WebSocket, [ws_handle_upgrade] either returns 0, having written its
    whole response and switched the connection to WebSocket state, or
    returns -1 and leaves the connection as it was; in that case
    [ws_send_text] still refuses the connection and writes nothing. *)
Theorem ws_upgrade_all_or_nothing (conn : connection_t) (req : http_request_t)
  (accepts : nat) (text : list Z) (room : nat) :
  is_websocket conn = false ->
  let '(rc, conn', sent) := ws_handle_upgrade conn req accepts in
  (rc = 0 /\ is_websocket conn' = true /\ state conn' = CONN_WEBSOCKET
   /\ exists ws_key, find_header req (str "Sec-WebSocket-Key") = Some ws_key
                     /\ sent = take 511 (upgrade_response (accept_key ws_key)))
  \/ (rc = -1 /\ conn' = conn /\ ws_send_text conn' text room = (-1, [])).
Proof.
  intros Hws. unfold ws_handle_upgrade.
  assert (Hsend : ws_send_text conn text room = (-1, [])).
  { unfold ws_send_text. rewrite Hws. reflexivity. }
  destruct (find_header req (str "Sec-WebSocket-Key")) as [ws_key |]; [| right; auto].
  set (response := take 511 (upgrade_response (accept_key ws_key))).
  destruct (Nat.eqb_spec (length (take accepts response)) (length response)) as [Heq | Hne];
    cbn [negb]; [left | right; auto].
  repeat split. exists ws_key. split; [reflexivity |].
  rewrite length_take in Heq. fold response. apply take_ge. lia.
Qed.

Lemma ws_upgrade_all_or_nothing_witness :
  let req := request Sample.ws_conn in
  (* the whole response is written *)
  (let '(rc, conn', sent) := ws_handle_upgrade Sample.ws_conn req 512 in
   (rc = 0 /\ is_websocket conn' = true /\ state conn' = CONN_WEBSOCKET
    /\ exists ws_key, find_header req (str "Sec-WebSocket-Key") = Some ws_key
                      /\ sent = take 511 (upgrade_response (accept_key ws_key)))
   \/ (rc = -1 /\ conn' = Sample.ws_conn
       /\ ws_send_text conn' [104; 105] 64 = (-1, [])))
  /\ fst (fst (ws_handle_upgrade Sample.ws_conn req 512)) = 0
  /\ snd (ws_handle_upgrade Sample.ws_conn req 512)
     = str "HTTP/1.1 101 Switching Protocols" ++ CRLF
       ++ str "Upgrade: websocket" ++ CRLF
       ++ str "Connection: Upgrade" ++ CRLF
       ++ str "Sec-WebSocket-Accept: oaMi3hzjas62i/BuwYpSNXwtj5s=" ++ CRLF
       ++ CRLF
  (* the socket takes ten bytes only *)
  /\ (let '(rc, conn', sent) := ws_handle_upgrade Sample.ws_conn req 10 in
      (rc = 0 /\ is_websocket conn' = true /\ state conn' = CONN_WEBSOCKET
       /\ exists ws_key, find_header req (str "Sec-WebSocket-Key") = Some ws_key
                         /\ sent = take 511 (upgrade_response (accept_key ws_key)))
      \/ (rc = -1 /\ conn' = Sample.ws_conn
          /\ ws_send_text conn' [104; 105] 64 = (-1, [])))
  /\ fst (ws_handle_upgrade Sample.ws_conn req 10) = (-1, Sample.ws_conn)
  (* no key in the request *)
  /\ fst (ws_handle_upgrade (Sample.conn_with []) request_zero 512)
     = (-1, Sample.conn_with []).
Proof.
  intros req. split; [| split; [| split; [| split; [| split]]]].
  - exact (ws_upgrade_all_or_nothing Sample.ws_conn req 512 [104; 105] 64
             ltac:(vm_compute; reflexivity)).
  - vm_compute. reflexivity.
  - vm_compute. reflexivity.
  - exact (ws_upgrade_all_or_nothing Sample.ws_conn req 10 [104; 105] 64
             ltac:(vm_compute; reflexivity)).
  - vm_compute. reflexivity.
  - vm_compute. reflexivity.
Defined.

End WsSessionFacts.
